(** * Capability attestation service: passports, leases, revocation, JWKS

    A shallow embedding of the Python sources
      - [src/ismx/passport.py]            (module [passport])
      - [src/tokens.py]                   (module [tokens])
      - [src/authy_v4_open/config.py], [crypto.py], [storage.py],
        [authy_server.py]                 (modules [config], [crypto],
                                           [storage], [authy_server])
      - [src/auth0_utils.py]              (module [auth0_utils])
      - [src/examples/mcp_integration.py], its authentication and scope
        checks                            (module [mcp_integration])
    together with the part of the Python run time these functions lean on
    (module [Py]).

    Conventions.
      - A Python [str] is a Rocq [string]; each character stands for the
        code point of the same number (0..255).
      - Python [bytes] are [list byte].
      - A Python object is a [value]; a [dict] with string keys is a
        [gmap string value], so two dictionaries are equal exactly when they
        hold the same entries, whatever the insertion order.
      - A call that can raise returns a [result]; [Raise e] is the exception.
      - [int(time.time())] is an input of type [Z] (whole seconds), random
        draws ([secrets.token_hex], [SigningKey.generate]) are inputs too.
      - [json_dumps] is the text [json.dumps] returns; where the call
        returns is [json_dumps_returns], for the levels of nesting the
        recursion limit leaves at the call, an input [room] of the
        theorems that need the call to return.
      - Library code that is not part of the repository (HMAC-SHA256,
        Ed25519, base64, [json.loads], [repr] of a float) is the interface
        [Primitives]; what the proofs need of it is [PrimitivesLaws] and
        [Base64Laws].  The JOSE library, SHA-256, [str()] of an object and
        the class name of an exception are variables of the sections that
        use them. *)

From Stdlib Require Import ZArith Lia List Bool Ascii String.
From Stdlib Require Import Strings.Byte.
From Stdlib Require Import Floats.SpecFloat.
From stdpp Require Import base option list gmap sets strings pretty.

Set Warnings "-register-all".
Local Open Scope string_scope.
Local Open Scope Z_scope.

Abbreviation bytes := (list byte).

#[global] Instance byte_eq_decision : EqDecision byte := Byte.byte_eq_dec.

(** ** Python run time *)
Module Py.

(** Exception classes the sources raise, catch or let escape.  A subclass a
    handler never tells apart from its base is named by the base:
    [binascii.Error], [json.JSONDecodeError], [UnicodeError] and
    [nacl.exceptions.ValueError] are [ValueError]; [httpx.HTTPStatusError]
    and the transport errors are [HTTPError]; [FileNotFoundError],
    [FileExistsError] and [IsADirectoryError] are [OSError].
    [InterfaceError] is [sqlite3]'s refusal to bind a parameter,
    [IntegrityError] its refusal of a row that breaks a constraint,
    [HTTPException] is FastAPI's. *)
Inductive exn_class : Set :=
| BadSignatureError
| KeyError
| ValueError
| TypeError
| OverflowError
| AttributeError
| HTTPError
| InterfaceError
| IntegrityError
| OSError
| HTTPException.

#[global] Instance exn_class_eq_dec : EqDecision exn_class.
Proof. solve_decision. Defined.

(** An exception: its class and [str(e)].  For an exception raised inside
    a library the text is the fixed part of the library's message. *)
Record exn : Set := Exn { exn_cls : exn_class; exn_msg : string }.

Inductive result (A : Type) : Type :=
| Ok (a : A)
| Raise (e : exn).
Arguments Ok {A} a.
Arguments Raise {A} e.

Definition bind {A B} (r : result A) (k : A -> result B) : result B :=
  match r with
  | Ok a => k a
  | Raise e => Raise e
  end.

Definition raise {A} (c : exn_class) (msg : string) : result A :=
  Raise (Exn c msg).

(** [try: body  except (c1, c2, ...) : handler] *)
Definition try_except {A} (body : result A) (classes : list exn_class)
    (handler : exn -> result A) : result A :=
  match body with
  | Ok a => Ok a
  | Raise e =>
      if existsb (fun c => bool_decide (c = exn_cls e)) classes
      then handler e else Raise e
  end.

(** [try: body  except Exception as e: handler] *)
Definition try_except_all {A} (body : result A) (handler : exn -> result A)
    : result A :=
  match body with
  | Ok a => Ok a
  | Raise e => handler e
  end.

#[global] Instance result_ret : MRet result := fun _ a => Ok a.
#[global] Instance result_bind : MBind result := fun _ _ k r => bind r k.

(** *** Objects

    The objects the modelled functions can meet: [None], [bool], [int],
    [float] (IEEE binary64 as [spec_float]), [str], [list], [tuple] and
    [dict] with string keys. *)
Inductive value : Type :=
| VNone
| VBool (b : bool)
| VInt (z : Z)
| VFloat (f : spec_float)
| VStr (s : string)
| VList (l : list value)
| VTuple (l : list value)
| VDict (d : gmap string value).

Abbreviation dict := (gmap string value).

(** [bool(v)] *)
Definition truthy (v : value) : bool :=
  match v with
  | VNone => false
  | VBool b => b
  | VInt z => negb (z =? 0)
  | VFloat (S754_zero _) => false
  | VFloat _ => true
  | VStr s => negb (String.eqb s "")
  | VList l | VTuple l => match l with [] => false | _ => true end
  | VDict d => match map_to_list d with [] => false | _ => true end
  end.

(** [d.get(k, dflt)] *)
Definition dict_get (d : dict) (k : string) (dflt : value) : value :=
  default dflt (d !! k).

(** [d[k]] *)
Definition getitem (d : dict) (k : string) : result value :=
  match d !! k with
  | Some v => Ok v
  | None => raise KeyError k
  end.

(** [v != s] for a [str] s: only an equal string is equal to a string. *)
Definition ne_str (v : value) (s : string) : bool :=
  match v with
  | VStr s' => negb (String.eqb s' s)
  | _ => true
  end.

(** *** Strings and bytes *)
Definition code (c : ascii) : Z := Z.of_N (N_of_ascii c).
Definition chr (n : Z) : ascii := ascii_of_N (Z.to_N n).
Definition byte_of_Z (n : Z) : byte := byte_of_ascii (chr n).
Definition Z_of_byte (b : byte) : Z := Z.of_N (Byte.to_N b).

(** [s.isascii()] *)
Definition is_ascii (s : string) : bool :=
  forallb (fun c => code c <? 128) (list_ascii_of_string s).

(** [s.encode("utf-8")] for code points below 256. *)
Definition encode_utf8 (s : string) : bytes :=
  flat_map (fun c =>
      let n := code c in
      if n <? 128 then [byte_of_Z n]
      else [byte_of_Z (Z.lor 192 (Z.shiftr n 6)); byte_of_Z (Z.lor 128 (Z.land n 63))])
    (list_ascii_of_string s).

Fixpoint lstrip (p : ascii -> bool) (s : string) : string :=
  match s with
  | String c s' => if p c then lstrip p s' else s
  | EmptyString => EmptyString
  end.

Definition string_rev (s : string) : string :=
  string_of_list_ascii (rev (list_ascii_of_string s)).

Definition rstrip (p : ascii -> bool) (s : string) : string :=
  string_rev (lstrip p (string_rev s)).

(** [s.strip(chars)]: the characters satisfying [p] are removed at both ends. *)
Definition strip (p : ascii -> bool) (s : string) : string :=
  rstrip p (lstrip p s).

Definition is_char (c0 : ascii) (c : ascii) : bool := Ascii.eqb c c0.

(** [s.replace(c, "")] for a one-character [c]. *)
Definition remove_char (c0 : ascii) (s : string) : string :=
  string_of_list_ascii (List.filter (fun c => negb (is_char c0 c)) (list_ascii_of_string s)).

(** [s.lower()] on code points below 256: A-Z, and the Latin-1 capitals
    U+00C0..U+00DE except the multiplication sign U+00D7. *)
Definition lower_char (c : ascii) : ascii :=
  let n := code c in
  if ((65 <=? n) && (n <=? 90)) || ((192 <=? n) && (n <=? 222) && negb (n =? 215))
  then chr (n + 32) else c.

Definition lower (s : string) : string :=
  string_of_list_ascii (map lower_char (list_ascii_of_string s)).

(** The white space [int()] skips around a number, on code points below
    256: the ASCII white space and the two Latin-1 spaces U+0085, U+00A0. *)
Definition is_space (c : ascii) : bool :=
  let n := code c in
  ((9 <=? n) && (n <=? 13)) || (n =? 32) || (n =? 133) || (n =? 160).

Definition hex_digit (n : Z) : ascii :=
  if n <? 10 then chr (48 + n) else chr (87 + n).

(** [b.hex()], the lower-case hexadecimal rendering of [hexdigest]. *)
Definition hex (b : bytes) : string :=
  string_of_list_ascii
    (flat_map (fun x => let n := Z_of_byte x in [hex_digit (n / 16); hex_digit (n mod 16)]) b).

Definition hex_value (c : ascii) : option Z :=
  let n := code c in
  if (48 <=? n) && (n <=? 57) then Some (n - 48)
  else if (97 <=? n) && (n <=? 102) then Some (n - 87)
  else if (65 <=? n) && (n <=? 70) then Some (n - 55)
  else None.

Definition is_hex_space (c : ascii) : bool :=
  let n := code c in ((9 <=? n) && (n <=? 13)) || (n =? 32).

(** [bytes.fromhex(s)]: pairs of hexadecimal digits, ASCII white space
    allowed between pairs; anything else is a [ValueError] that names the
    position of the offending character. *)
Fixpoint fromhex_go (pos : nat) (l : list ascii) : nat + bytes :=
  match l with
  | [] => inr []
  | c :: l' =>
      if is_hex_space c then fromhex_go (S pos) l'
      else
        match hex_value c with
        | None => inl pos
        | Some hi =>
            match l' with
            | [] => inl (S pos)
            | d :: l'' =>
                match hex_value d with
                | None => inl (S pos)
                | Some lo =>
                    match fromhex_go (S (S pos)) l'' with
                    | inr rest => inr (byte_of_Z (16 * hi + lo) :: rest)
                    | inl bad => inl bad
                    end
                end
            end
        end
  end.

Definition fromhex (s : string) : result bytes :=
  match fromhex_go 0 (list_ascii_of_string s) with
  | inr b => Ok b
  | inl pos =>
      raise ValueError
        ("non-hexadecimal number found in fromhex() arg at position " +:+ pretty pos)
  end.

(** *** Numbers *)

(** The integer part of a binary64 number, towards zero: [int(f)]. *)
Definition float_trunc (f : spec_float) : result Z :=
  match f with
  | S754_zero _ => Ok 0
  | S754_infinity _ => raise OverflowError "cannot convert float infinity to integer"
  | S754_nan => raise ValueError "cannot convert float NaN to integer"
  | S754_finite s m e =>
      let a := if 0 <=? e then Z.pos m * 2 ^ e else Z.pos m / 2 ^ (- e) in
      Ok (if s then - a else a)
  end.

Definition digit_value (c : ascii) : option Z :=
  let n := code c in
  if (48 <=? n) && (n <=? 57) then Some (n - 48) else None.

(** Decimal digits with single underscores between digits. *)
Fixpoint parse_digits (after_digit : bool) (acc : Z) (s : string) : option Z :=
  match s with
  | EmptyString => if after_digit then Some acc else None
  | String c s' =>
      match digit_value c with
      | Some d => parse_digits true (10 * acc + d) s'
      | None =>
          if is_char "_" c && after_digit then parse_digits false acc s' else None
      end
  end.

(** [int(s)] for a string, base 10: white space around, an optional sign,
    digits.  (The interpreter's limit on the number of digits of such a
    conversion, 4300 unless configured otherwise, is left out here and in
    [json_dumps]; where it applies it raises [ValueError].) *)
Definition int_of_str (s : string) : result Z :=
  let t := strip is_space s in
  let '(neg, body) :=
    match t with
    | String "-" r => (true, r)
    | String "+" r => (false, r)
    | _ => (false, t)
    end in
  match parse_digits false 0 body with
  | Some z => Ok (if neg then - z else z)
  | None => raise ValueError "invalid literal for int() with base 10"
  end.

(** [int(v)] *)
Definition int (v : value) : result Z :=
  match v with
  | VInt z => Ok z
  | VBool b => Ok (Z.b2z b)
  | VFloat f => float_trunc f
  | VStr s => int_of_str s
  | VNone | VList _ | VTuple _ | VDict _ =>
      raise TypeError "int() argument must be a string, a bytes-like object or a real number"
  end.

(** The order of a binary64 number and an integer, as exact numbers;
    [None] for NaN, which is unordered. *)
Definition float_compare_Z (f : spec_float) (z : Z) : option comparison :=
  match f with
  | S754_nan => None
  | S754_infinity s => Some (if s then Lt else Gt)
  | S754_zero _ => Some (0 ?= z)
  | S754_finite s m e =>
      let a := if s then Z.neg m else Z.pos m in
      Some (if 0 <=? e then (a * 2 ^ e ?= z) else (a ?= z * 2 ^ (- e)))
  end.

(** [v < n] for an integer [n]. *)
Definition lt_int (v : value) (n : Z) : result bool :=
  match v with
  | VInt z => Ok (z <? n)
  | VBool b => Ok (Z.b2z b <? n)
  | VFloat f => Ok (match float_compare_Z f n with Some Lt => true | _ => false end)
  | VNone | VStr _ | VList _ | VTuple _ | VDict _ =>
      raise TypeError "'<' not supported between these instances"
  end.

(** Objects that can be members of a [set]. *)
Fixpoint hashable (v : value) : bool :=
  match v with
  | VList _ | VDict _ => false
  | VTuple l => forallb hashable l
  | _ => true
  end.

Definition num_eq (a b : Z + spec_float) : bool :=
  match a, b with
  | inl x, inl y => x =? y
  | inl x, inr f | inr f, inl x =>
      match float_compare_Z f x with Some Eq => true | _ => false end
  | inr f, inr g => SFeqb f g
  end.

Definition as_number (v : value) : option (Z + spec_float) :=
  match v with
  | VBool b => Some (inl (Z.b2z b))
  | VInt z => Some (inl z)
  | VFloat f => Some (inr f)
  | _ => None
  end.

(** [a == b] on hashable objects: numbers by value across [bool], [int]
    and [float], strings by content, tuples componentwise. *)
Fixpoint py_eq (a b : value) : bool :=
  match a, b with
  | VNone, VNone => true
  | VStr s, VStr t => String.eqb s t
  | VTuple l, VTuple l' =>
      (fix all2 (l l' : list value) : bool :=
         match l, l' with
         | [], [] => true
         | x :: r, y :: r' => py_eq x y && all2 r r'
         | _, _ => false
         end) l l'
  | _, _ =>
      match as_number a, as_number b with
      | Some x, Some y => num_eq x y
      | _, _ => false
      end
  end.

(** [v in s] for a set [s], kept as the list of its members: unhashable
    objects are a [TypeError].  (Membership is by [==]; the identity test
    Python tries first only matters for NaN.) *)
Definition contains (s : list value) (v : value) : result bool :=
  if hashable v then Ok (existsb (py_eq v) s)
  else raise TypeError "unhashable type".

(** [s.add(v)] *)
Definition set_add (s : list value) (v : value) : list value :=
  if existsb (py_eq v) s then s else v :: s.

(** [hmac.compare_digest(a, b)]: two ASCII strings, else a [TypeError]. *)
Definition compare_digest (a b : value) : result bool :=
  match a, b with
  | VStr s, VStr t =>
      if is_ascii s && is_ascii t then Ok (String.eqb s t)
      else raise TypeError "comparing strings with non-ASCII characters is not supported"
  | _, _ => raise TypeError "unsupported operand types(s) or combination of types"
  end.

(** *** Library primitives

    Code outside the repository that the sources call and whose results the
    model only passes around. *)
Class Primitives : Type := {
  (** [repr(f)] of a finite, non-zero float *)
  float_repr : spec_float -> string;
  (** [hmac.new(key, msg, hashlib.sha256).digest()] *)
  hmac_sha256 : bytes -> bytes -> bytes;
  (** [bytes(SigningKey(seed).verify_key)] *)
  ed25519_verify_key : bytes -> bytes;
  (** [SigningKey(seed).sign(msg).signature] *)
  ed25519_sign : bytes -> bytes -> bytes;
  (** libsodium's check of a 64-byte signature under a 32-byte key *)
  ed25519_verify : bytes -> bytes -> bytes -> bool;
  (** [base64.b64encode(b).decode()] *)
  b64encode : bytes -> string;
  (** [binascii.a2b_base64] on an ASCII string; [None] is [binascii.Error] *)
  a2b_base64 : string -> option bytes;
  (** [json.loads] *)
  json_loads : bytes -> result value;
  (** The text a parameter bound by [sqlite3] is stored as, and compared
      as, in a column of TEXT affinity; an object [sqlite3] cannot bind is
      an error. *)
  sqlite_text : value -> result string;
}.

(** What the round-trip proofs need of the primitives. *)
Class PrimitivesLaws (P : Primitives) : Prop := {
  verify_key_length (seed : bytes) :
    length seed = 32%nat -> length (ed25519_verify_key seed) = 32%nat;
  sign_length (seed msg : bytes) :
    length seed = 32%nat -> length (ed25519_sign seed msg) = 64%nat;
  verify_sign (seed msg : bytes) :
    length seed = 32%nat ->
    ed25519_verify (ed25519_verify_key seed) msg (ed25519_sign seed msg) = true;
  b64encode_ascii (b : bytes) : is_ascii (b64encode b) = true;
  b64_roundtrip (b : bytes) : a2b_base64 (b64encode b) = Some b;
  sqlite_text_str (s : string) : sqlite_text (VStr s) = Ok s;
}.

(** *** [json.dumps(v, sort_keys=True, separators=(",", ":"))] *)
Definition backslash : string := String (chr 92) EmptyString.
Definition dquote : string := String (chr 34) EmptyString.

Definition hex2 (n : Z) : string :=
  String (hex_digit (n / 16)) (String (hex_digit (n mod 16)) EmptyString).

(** [ensure_ascii] is on: everything outside the printable ASCII range is
    escaped. *)
Definition escape_char (c : ascii) : string :=
  let n := code c in
  if n =? 34 then backslash +:+ dquote
  else if n =? 92 then backslash +:+ backslash
  else if n =? 10 then backslash +:+ "n"
  else if n =? 13 then backslash +:+ "r"
  else if n =? 9 then backslash +:+ "t"
  else if n =? 8 then backslash +:+ "b"
  else if n =? 12 then backslash +:+ "f"
  else if (32 <=? n) && (n <=? 126) then String c EmptyString
  else backslash +:+ "u00" +:+ hex2 n.

Definition json_string (s : string) : string :=
  dquote +:+ String.concat "" (List.map escape_char (list_ascii_of_string s)) +:+ dquote.

Definition float_str `{Primitives} (f : spec_float) : string :=
  match f with
  | S754_nan => "NaN"
  | S754_infinity false => "Infinity"
  | S754_infinity true => "-Infinity"
  | S754_zero false => "0.0"
  | S754_zero true => "-0.0"
  | S754_finite _ _ _ => float_repr f
  end.

(** Items in the order of their keys ([sort_keys]): strings compare by
    code point. *)
Fixpoint insert_item (kv : string * string) (l : list (string * string))
    : list (string * string) :=
  match l with
  | [] => [kv]
  | x :: l' => if String.leb kv.1 x.1 then kv :: x :: l' else x :: insert_item kv l'
  end.

Definition sort_items (l : list (string * string)) : list (string * string) :=
  foldr insert_item [] l.

(** Where [json.dumps] returns.  The encoder goes one level deeper into
    the interpreter's stack for every [list], [tuple] or [dict] inside
    another, and writes an [int] through its decimal conversion: the call
    raises [RecursionError] when the object is nested deeper than the
    recursion limit leaves room for, and [ValueError] when an [int] has
    more than 4300 digits (the interpreter's limit for that conversion).
    [room] is the number of levels the interpreter has left at the call;
    it is an input, like the readings of the clock. *)
Definition int_max_str_digits : Z := 4300.

Fixpoint json_dumps_returns (room : nat) (v : value) {struct v} : bool :=
  match v with
  | VInt z => Z.abs z <? 10 ^ int_max_str_digits
  | VList l | VTuple l =>
      match room with
      | O => false
      | S room' => forallb (json_dumps_returns room') l
      end
  | VDict d =>
      match room with
      | O => false
      | S room' => map_fold (fun _ x acc => json_dumps_returns room' x && acc) true d
      end
  | _ => true
  end.

(** The text [json.dumps] returns, where it returns
    ([json_dumps_returns]); every other object of the model can be
    serialised, NaN and the infinities are written as Python writes them
    by default. *)
Fixpoint json_dumps `{Primitives} (v : value) : string :=
  match v with
  | VNone => "null"
  | VBool true => "true"
  | VBool false => "false"
  | VInt z => pretty z
  | VFloat f => float_str f
  | VStr s => json_string s
  | VList l | VTuple l => "[" +:+ String.concat "," (List.map json_dumps l) +:+ "]"
  | VDict d =>
      "{" +:+
      String.concat ","
        (List.map (fun kv : string * string => json_string kv.1 +:+ ":" +:+ kv.2)
           (sort_items (map_fold (fun k x acc => (k, json_dumps x) :: acc) [] d)))
      +:+ "}"
  end.

(** [base64.b64decode(v)]: an ASCII [str] is decoded, a non-ASCII one is a
    [ValueError], as is a decoding failure; any other object of the model
    is not bytes-like. *)
Definition b64decode `{Primitives} (v : value) : result bytes :=
  match v with
  | VStr s =>
      if is_ascii s then
        match a2b_base64 s with
        | Some b => Ok b
        | None => raise ValueError "binascii.Error"
        end
      else raise ValueError "string argument should contain only ASCII characters"
  | _ => raise TypeError "argument should be a bytes-like object or ASCII string"
  end.

(** [nacl.signing.SigningKey(seed)] and [VerifyKey(key)]: 32 bytes each. *)
Definition SigningKey (seed : bytes) : result bytes :=
  if (length seed =? 32)%nat then Ok seed
  else raise ValueError "The seed must be exactly 32 bytes long".

Definition VerifyKey (key : bytes) : result bytes :=
  if (length key =? 32)%nat then Ok key
  else raise ValueError "The key must be exactly 32 bytes long".

(** [vk.verify(msg, sig)] *)
Definition vk_verify `{Primitives} (vk msg sig : bytes) : result bytes :=
  if (length sig =? 64)%nat then
    if ed25519_verify vk msg sig then Ok msg
    else raise BadSignatureError "Signature was forged or corrupt"
  else raise ValueError "The signature must be exactly 64 bytes long".

(** *** More of [str] *)

(** [c.isspace()] on code points below 256: the white space [str.split()]
    and [str.strip()] cut at when they are called without arguments. *)
Definition is_whitespace (c : ascii) : bool :=
  let n := code c in
  ((9 <=? n) && (n <=? 13)) || ((28 <=? n) && (n <=? 32)) || (n =? 133) || (n =? 160).

(** [s.split()]: the maximal runs of characters that are not white space;
    [word] is the run being read. *)
Fixpoint split_from (word : string) (s : string) : list string :=
  match s with
  | EmptyString => if String.eqb word "" then [] else [word]
  | String c s' =>
      if is_whitespace c then
        if String.eqb word "" then split_from "" s' else word :: split_from "" s'
      else split_from (word +:+ String c EmptyString) s'
  end.

Definition split (s : string) : list string := split_from "" s.

(** [v.split()] for an object: only a [str] has the method. *)
Definition str_split (v : value) : result (list string) :=
  match v with
  | VStr s => Ok (split s)
  | _ => raise AttributeError "object has no attribute 'split'"
  end.

(** [a or b] *)
Definition or_else (a b : value) : value := if truthy a then a else b.

(** [s.startswith(prefix)] *)
Definition startswith (s prefix : string) : bool := String.prefix prefix s.

(** [repr(s)] for a [str]: single quotes unless the text has a single
    quote and no double quote; the backslash, the quote in use and what is
    not printable are escaped. *)
Definition is_printable (c : ascii) : bool :=
  let n := code c in
  ((32 <=? n) && (n <=? 126)) || ((161 <=? n) && negb (n =? 173)).

Definition repr_char (quote : ascii) (c : ascii) : string :=
  let n := code c in
  if n =? 92 then backslash +:+ backslash
  else if n =? 9 then backslash +:+ "t"
  else if n =? 10 then backslash +:+ "n"
  else if n =? 13 then backslash +:+ "r"
  else if Ascii.eqb c quote then backslash +:+ String c EmptyString
  else if is_printable c then String c EmptyString
  else backslash +:+ "x" +:+ hex2 n.

Definition repr_str (s : string) : string :=
  let l := list_ascii_of_string s in
  let quote :=
    if existsb (is_char "'") l && negb (existsb (is_char (chr 34)) l)
    then chr 34 else "'"%char in
  String quote (String.concat "" (List.map (repr_char quote) l)) +:+ String quote EmptyString.

(** [repr(l)] for a list of [str] *)
Definition repr_list (l : list string) : string :=
  "[" +:+ String.concat ", " (List.map repr_str l) +:+ "]".

(** [a == b] on all the objects of the model: as [py_eq], and lists and
    dictionaries by their contents.  (A NaN is equal to nothing, itself
    included; the identity test a container tries first is left out.) *)
Fixpoint value_eq (a b : value) : bool :=
  match a, b with
  | VNone, VNone => true
  | VStr s, VStr t => String.eqb s t
  | VList l, VList l' | VTuple l, VTuple l' =>
      (fix all2 (l l' : list value) : bool :=
         match l, l' with
         | [], [] => true
         | x :: r, y :: r' => value_eq x y && all2 r r'
         | _, _ => false
         end) l l'
  | VDict d, VDict d' =>
      (size d =? size d')%nat &&
      map_fold (fun k x acc =>
                  acc && match d' !! k with Some y => value_eq x y | None => false end)
        true d
  | _, _ =>
      match as_number a, as_number b with
      | Some x, Some y => num_eq x y
      | _, _ => false
      end
  end.

(** [iter(v)]: the items of a list or tuple, the characters of a [str],
    the keys of a [dict] (in an order the model does not keep; they are
    all of type [str]); other objects are not iterable. *)
Definition iterate (v : value) : result (list value) :=
  match v with
  | VList l | VTuple l => Ok l
  | VStr s => Ok (List.map (fun c => VStr (String c EmptyString)) (list_ascii_of_string s))
  | VDict d => Ok (List.map (fun kv : string * value => VStr kv.1) (map_to_list d))
  | VNone | VBool _ | VInt _ | VFloat _ => raise TypeError "object is not iterable"
  end.

(** [s.split(sep, 1)] for a one-character [sep]: cut at the first [sep]. *)
Fixpoint split_once (sep : ascii) (s : string) : list string :=
  match s with
  | EmptyString => [EmptyString]
  | String c s' =>
      if is_char sep c then [EmptyString; s']
      else match split_once sep s' with
           | p :: ps => String c p :: ps
           | [] => [String c EmptyString]
           end
  end.


(** *** The shape of base64 text

    What [base64.b64encode] writes: letters, digits, [+] and [/], then at
    most two [=], a multiple of four characters in all. *)
Definition is_b64_char (c : ascii) : bool :=
  let n := code c in
  ((65 <=? n) && (n <=? 90)) || ((97 <=? n) && (n <=? 122)) ||
  ((48 <=? n) && (n <=? 57)) || (n =? 43) || (n =? 47).

Definition b64_shape (s : string) : bool :=
  let body := rstrip (is_char "=") s in
  forallb is_b64_char (list_ascii_of_string body)
  && (String.length s - String.length body <=? 2)%nat
  && (String.length s mod 4 =? 0)%nat.

Class Base64Laws (P : Primitives) : Prop := {
  b64encode_shape (b : bytes) : b64_shape (b64encode b) = true;
}.

End Py.
Export Py.


(** ** [src/ismx/passport.py] *)
Module passport.
Section passport.
Context `{Primitives}.
(** [os.environ] *)
Variable environ : gmap string string.

(** [os.getenv(k) or dflt] *)
Definition getenv_or (k dflt : string) : string :=
  match environ !! k with
  | Some s => if String.eqb s "" then dflt else s
  | None => dflt
  end.

Definition COMMIT_KEY : bytes := encode_utf8 (getenv_or "COMMIT_KEY" "dev-commit-key").

Definition hmac_commit (payload : dict) : string :=
  let msg := encode_utf8 (json_dumps (VDict payload)) in
  hex (hmac_sha256 COMMIT_KEY msg).

(** [seed] is the key [SigningKey.generate()] draws when it is called. *)
Definition _load_keys (seed : bytes) : result (bytes * bytes) :=
  let sk_b64 := default "" (environ !! "ED25519_SK_B64") in
  let vk_b64 := default "" (environ !! "ED25519_VK_B64") in
  let env_mode := default "development" (environ !! "ENV") in
  if String.eqb sk_b64 "" || String.eqb vk_b64 "" then
    if String.eqb env_mode "development" then
      let sk := seed in
      let vk := ed25519_verify_key sk in
      Ok (sk, vk)
    else
      raise ValueError
        "ED25519_SK_B64 and ED25519_VK_B64 environment variables must be set in production mode. Generate keys with: python scripts/dev_keys.py"
  else
    try_except_all
      (sk ← b64decode (VStr sk_b64) ≫= SigningKey;
       vk ← b64decode (VStr vk_b64) ≫= VerifyKey;
       Ok (sk, vk))
      (fun e => raise ValueError ("Failed to load Ed25519 keys: " +:+ exn_msg e)).

Definition pack_message (agent_id session_id commitment ttl_s nonce : value) : bytes :=
  let payload : dict :=
    {[ "agent_id" := agent_id;
       "session_id" := session_id;
       "commitment" := commitment;
       "ttl_s" := ttl_s;
       "nonce" := nonce ]} in
  encode_utf8 (json_dumps (VDict payload)).

(** [seed] and [nonce] are the random draws of the call, [t_exp] and
    [t_issued] its two readings of [int(time.time())], in this order. *)
Definition issue_passport (seed : bytes) (nonce : string) (t_exp t_issued : Z)
    (agent_id session_id : string) (redacted_metrics : dict) (ttl_s : Z)
    : result dict :=
  '(sk, vk) ← _load_keys seed;
  let commitment := hmac_commit redacted_metrics in
  let msg := pack_message (VStr agent_id) (VStr session_id) (VStr commitment)
               (VInt ttl_s) (VStr nonce) in
  let sig := ed25519_sign sk msg in
  let exp := t_exp + ttl_s in
  Ok ({[ "agent_id" := VStr agent_id;
         "session_id" := VStr session_id;
         "commitment" := VStr commitment;
         "nonce" := VStr nonce;
         "sig_b64" := VStr (b64encode sig);
         "vk_b64" := VStr (b64encode vk);
         "exp" := VInt exp;
         "ttl_s_original" := VInt ttl_s;
         "issued_at" := VInt t_issued ]} : dict).

(** The classes [verify_passport] catches. *)
Definition handled : list exn_class :=
  [BadSignatureError; KeyError; ValueError; TypeError].

(** [now] is the reading of [int(time.time())]. *)
Definition verify_passport (now : Z) (passport : dict)
    (agent_id session_id : string) (redacted_metrics : dict) : result bool :=
  try_except
    (exp ← int (dict_get passport "exp" (VInt 0));
     if now >? exp then Ok false else
     let expected_commit := hmac_commit redacted_metrics in
     let actual_commit := dict_get passport "commitment" (VStr "") in
     same ← compare_digest (VStr expected_commit) actual_commit;
     if negb same then Ok false else
     if ne_str (dict_get passport "agent_id" VNone) agent_id then Ok false else
     if ne_str (dict_get passport "session_id" VNone) session_id then Ok false else
     let ttl_s := dict_get passport "ttl_s_original" (VInt 60) in
     commitment ← getitem passport "commitment";
     nonce ← getitem passport "nonce";
     let msg := pack_message (VStr agent_id) (VStr session_id) commitment ttl_s nonce in
     vk_b64 ← getitem passport "vk_b64";
     vk ← b64decode vk_b64 ≫= VerifyKey;
     sig_b64 ← getitem passport "sig_b64";
     sig ← b64decode sig_b64;
     verified ← vk_verify vk msg sig;
     Ok true)
    handled
    (fun _ => Ok false).

Definition verify_passport_commitment_only (passport : dict) (redacted_metrics : dict)
    : result bool :=
  try_except_all
    (let expected_commit := hmac_commit redacted_metrics in
     let actual_commit := dict_get passport "commitment" (VStr "") in
     compare_digest (VStr expected_commit) actual_commit)
    (fun _ => Ok false).

Definition passport_is_expired (now : Z) (passport : dict) : result bool :=
  try_except
    (exp ← int (dict_get passport "exp" (VInt 0));
     Ok (now >? exp))
    [ValueError; TypeError]
    (fun _ => Ok true).

End passport.
End passport.

(** ** [src/tokens.py] *)
Module tokens.

(** The two module-level stores.  The locks serialise the accesses; a call
    is modelled as one atomic transition. *)
Record store : Type := Store {
  _USED_LEASES : list value;
  _ACTIVE_LEASES : gmap string dict;
}.

Definition empty : store := Store [] ∅.

Definition set_used (u : list value) (st : store) : store :=
  Store u (_ACTIVE_LEASES st).
Definition set_active (a : gmap string dict) (st : store) : store :=
  Store (_USED_LEASES st) a.

(** [lease_id] is the draw of [secrets.token_hex(16)], [t_exp] and
    [t_issued] the two readings of [int(time.time())]. *)
Definition issue_capability_lease (lease_id : string) (t_exp t_issued : Z)
    (user_id action_id scope : string) (ttl_s : Z) (st : store) : dict * store :=
  let exp := t_exp + ttl_s in
  let lease : dict :=
    {[ "lease_id" := VStr lease_id;
       "user_id" := VStr user_id;
       "action_id" := VStr action_id;
       "scope" := VStr scope;
       "exp" := VInt exp;
       "issued_at" := VInt t_issued;
       "used" := VBool false ]} in
  (lease, set_active (<[lease_id := lease]> (_ACTIVE_LEASES st)) st).

(** [_ACTIVE_LEASES[lease_id]['used'] = True] when [lease_id] is a key; the
    keys are the strings [issue_capability_lease] stored.  (In Python the
    stored dictionary is the object the issuer returned, so the caller's
    lease changes with it; here the caller holds a copy.  No modelled
    function reads the field [used].) *)
Definition mark_used (lease_id : value) (a : gmap string dict) : gmap string dict :=
  match lease_id with
  | VStr lid =>
      match a !! lid with
      | Some l => <[lid := <["used" := VBool true]> l]> a
      | None => a
      end
  | _ => a
  end.

(** [now] is the reading of [int(time.time())] at the expiry check. *)
Definition lease_valid (now : Z) (lease : dict) (needed_scope : string)
    (consume : bool) (st : store) : result bool * store :=
  let lease_id := dict_get lease "lease_id" VNone in
  if negb (truthy lease_id) then (Ok false, st) else
  match contains (_USED_LEASES st) lease_id with
  | Raise e => (Raise e, st)
  | Ok true => (Ok false, st)
  | Ok false =>
      match int (dict_get lease "exp" (VInt 0)) with
      | Raise e => (Raise e, st)
      | Ok exp =>
          if now >? exp then (Ok false, st) else
          if ne_str (dict_get lease "scope" VNone) needed_scope then (Ok false, st) else
          if consume then
            if existsb (py_eq lease_id) (_USED_LEASES st) then (Ok false, st)
            else
              let st1 := set_used (set_add (_USED_LEASES st) lease_id) st in
              (Ok true, set_active (mark_used lease_id (_ACTIVE_LEASES st1)) st1)
          else (Ok true, st)
      end
  end.

(** [lease_id in _USED_LEASES] for a string. *)
Definition used_in (st : store) (lease_id : string) : bool :=
  existsb (py_eq (VStr lease_id)) (_USED_LEASES st).

Definition revoke_lease (lease_id : string) (st : store) : bool * store :=
  let st1 := set_active (delete lease_id (_ACTIVE_LEASES st)) st in
  (true, set_used (set_add (_USED_LEASES st1) (VStr lease_id)) st1).

Definition get_lease_status (lease_id : string) (st : store) : option dict :=
  _ACTIVE_LEASES st !! lease_id.

Definition cleanup_expired_leases (now : Z) (st : store) : result Z * store :=
  match
    mapM (fun item : string * dict =>
            expired ← lt_int (dict_get item.2 "exp" (VInt 0)) now;
            Ok (item.1, expired))
         (map_to_list (_ACTIVE_LEASES st))
  with
  | Raise e => (Raise e, st)
  | Ok flagged =>
      let expired_ids := List.map fst (List.filter snd flagged) in
      (Ok (Z.of_nat (length expired_ids)),
       set_active (foldr delete (_ACTIVE_LEASES st) expired_ids) st)
  end.

Definition get_active_lease_count (st : store) : Z :=
  Z.of_nat (size (_ACTIVE_LEASES st)).

Definition get_used_lease_count (st : store) : Z :=
  Z.of_nat (length (_USED_LEASES st)).

(** A call of the module's interface, with the inputs it draws, and the
    store it leaves behind; [run] is any sequence of calls. *)
Inductive call : Type :=
| Issue (lease_id : string) (t_exp t_issued : Z)
    (user_id action_id scope : string) (ttl_s : Z)
| Valid (now : Z) (lease : dict) (needed_scope : string) (consume : bool)
| Revoke (lease_id : string)
| Status (lease_id : string)
| Cleanup (now : Z)
| ActiveCount
| UsedCount.

Definition step (st : store) (c : call) : store :=
  match c with
  | Issue lid t1 t2 u a s ttl => (issue_capability_lease lid t1 t2 u a s ttl st).2
  | Valid now l s c => (lease_valid now l s c st).2
  | Revoke lid => (revoke_lease lid st).2
  | Cleanup now => (cleanup_expired_leases now st).2
  | Status _ | ActiveCount | UsedCount => st
  end.

Definition run (st : store) (cs : list call) : store := foldl step st cs.

(** *** [lease_valid] under concurrent callers

    The same function cut at its lock boundaries: a caller is in the first
    critical section of [_LEASE_LOCK] ([Start]), between the two with the
    identifier seen unused ([Unused]: the expiry and scope tests touch
    nothing shared), past the second with the identifier added ([Added],
    about to take [_STORAGE_LOCK]), or has returned.  [advance] runs a
    caller to its next lock boundary; a critical section is atomic. *)
Inductive caller : Type :=
| Start (now : Z) (lease : dict) (needed_scope : string) (consume : bool)
| Unused (now : Z) (lease : dict) (needed_scope : string) (consume : bool)
| Added (lease_id : value)
| Returned (r : result bool).

Definition advance (c : caller) (st : store) : caller * store :=
  match c with
  | Start now lease needed_scope consume =>
      let lease_id := dict_get lease "lease_id" VNone in
      if negb (truthy lease_id) then (Returned (Ok false), st) else
      match contains (_USED_LEASES st) lease_id with
      | Raise e => (Returned (Raise e), st)
      | Ok true => (Returned (Ok false), st)
      | Ok false => (Unused now lease needed_scope consume, st)
      end
  | Unused now lease needed_scope consume =>
      let lease_id := dict_get lease "lease_id" VNone in
      match int (dict_get lease "exp" (VInt 0)) with
      | Raise e => (Returned (Raise e), st)
      | Ok exp =>
          if now >? exp then (Returned (Ok false), st) else
          if ne_str (dict_get lease "scope" VNone) needed_scope
          then (Returned (Ok false), st) else
          if consume then
            if existsb (py_eq lease_id) (_USED_LEASES st) then (Returned (Ok false), st)
            else (Added lease_id, set_used (set_add (_USED_LEASES st) lease_id) st)
          else (Returned (Ok true), st)
      end
  | Added lease_id =>
      (Returned (Ok true), set_active (mark_used lease_id (_ACTIVE_LEASES st)) st)
  | Returned r => (Returned r, st)
  end.

(** The callers in flight and the stores they share; [schedule i] lets
    caller number [i] run to its next lock boundary. *)
Record system : Type := System {
  shared : store;
  callers : list caller;
}.

Definition schedule (sys : system) (i : nat) : system :=
  match callers sys !! i with
  | Some c =>
      let '(c', st') := advance c (shared sys) in
      System st' (<[i := c']> (callers sys))
  | None => sys
  end.

Definition interleave (sys : system) (order : list nat) : system :=
  foldl schedule sys order.

(** The callers that have returned [True]. *)
Definition returned_true (c : caller) : bool :=
  match c with
  | Returned (Ok true) => true
  | _ => false
  end.

(** A caller that validates, with [consume=True], a lease carrying the
    identifier [lid]. *)
Definition consumes (lid : string) (c : caller) : Prop :=
  match c with
  | Start _ lease _ consume | Unused _ lease _ consume =>
      lease !! "lease_id" = Some (VStr lid) /\ consume = true
  | Added v => v = VStr lid
  | Returned _ => True
  end.

(** A caller that has added its identifier to the used-set. *)
Definition won (c : caller) : bool :=
  match c with
  | Added _ | Returned (Ok true) => true
  | _ => false
  end.

Definition winners (l : list caller) : nat :=
  foldr (fun c n => (Nat.b2n (won c) + n)%nat) 0%nat l.

(** What every interleaving preserves: the callers are validators of
    [lid], and at most one of them has added [lid], which is then in the
    used-set. *)
Definition at_most_one (lid : string) (sys : system) : Prop :=
  Forall (consumes lid) (callers sys) /\
  (winners (callers sys) = 0%nat \/
   (winners (callers sys) = 1%nat /\ used_in (shared sys) lid = true)).

(** What [issue_capability_lease] leaves in [_ACTIVE_LEASES]: under each
    key a lease that carries the key as its [lease_id] and an integer
    [exp]. *)
Definition stored_by_issue (st : store) : Prop :=
  forall lid l, _ACTIVE_LEASES st !! lid = Some l ->
    l !! "lease_id" = Some (VStr lid) /\ exists exp, l !! "exp" = Some (VInt exp).

End tokens.

(** ** [src/authy_v4_open/config.py] *)
Module config.
Section config.
Variable environ : gmap string string.

(** [os.getenv(k, dflt)] *)
Definition getenv (k dflt : string) : string := default dflt (environ !! k).

Definition SQLITE_PATH : string := getenv "SQLITE_PATH" "/data/authy.db".
Definition METRICS_SECRET : string :=
  getenv "METRICS_SECRET" ("please_change_me_" +:+ "00000000000000000000000000000000").
Definition KEY_PATH : string := getenv "KEY_PATH" "keys/ed25519.key".

End config.
End config.

(** ** The files [crypto.ensure_keypair] touches *)
Module os.

Record file : Type := File { content : bytes; mode : Z }.

(** The regular files and the directories by path, and the process's
    umask.  A path stands for itself: the model is the file system for
    paths in normal form ([normal]), where two different strings name two
    different places.  Symbolic links, access rights and the limits of a
    file system (the length of a name, the free space) are not modelled. *)
Record filesystem : Type := Filesystem {
  files : gmap string file;
  dirs : gset string;
  umask : Z;
}.

(** [p.split("/")] *)
Fixpoint components (p : string) : list string :=
  match p with
  | EmptyString => [EmptyString]
  | String c p' =>
      if is_char "/" c then EmptyString :: components p'
      else match components p' with
           | x :: xs => String c x :: xs
           | [] => [String c EmptyString]
           end
  end.

(** A path in normal form: relative or absolute, its components separated
    by single slashes, none of them empty, [.] or [..], no NUL character,
    no slash at the end. *)
Definition normal (p : string) : bool :=
  let relative :=
    match p with
    | String c p' => if is_char "/" c then p' else p
    | EmptyString => p
    end in
  forallb (fun x => negb (String.eqb x "") && negb (String.eqb x ".")
                    && negb (String.eqb x ".."))
    (components relative)
  && forallb (fun c => negb (is_char Ascii.zero c)) (list_ascii_of_string p).

(** [os.path.dirname] *)
Definition dirname (p : string) : string :=
  let head := string_rev (lstrip (fun c => negb (is_char "/" c)) (string_rev p)) in
  if String.eqb (lstrip (is_char "/") head) "" then head
  else rstrip (is_char "/") head.

(** A path and the directories above it, the nearest first.  Every step
    of [dirname] that changes the path shortens it, so its length is fuel
    enough. *)
Fixpoint ancestors_from (fuel : nat) (p : string) : list string :=
  match fuel with
  | O => []
  | S fuel' =>
      if String.eqb p "" then []
      else p :: (if String.eqb (dirname p) p then []
                 else ancestors_from fuel' (dirname p))
  end.

Definition ancestors (p : string) : list string :=
  ancestors_from (String.length p) p.

(** [os.makedirs(d, exist_ok=True)]: the directory and those above it are
    made where they are missing; a regular file in the place of one of
    them is an error, and then nothing is made. *)
Definition makedirs (d : string) (fs : filesystem) : result unit * filesystem :=
  if String.eqb d "" then (raise OSError "No such file or directory: ''", fs)
  else if bool_decide (is_Some (files fs !! d)) then (raise OSError "File exists", fs)
  else if existsb (fun a => bool_decide (is_Some (files fs !! a))) (ancestors d)
  then (raise OSError "Not a directory", fs)
  else (Ok (), Filesystem (files fs) (list_to_set (ancestors d) ∪ dirs fs) (umask fs)).

(** [os.path.exists(p)] *)
Definition exists_ (p : string) (fs : filesystem) : bool :=
  bool_decide (is_Some (files fs !! p)) || bool_decide (p ∈ dirs fs).

(** [open(p, "wb").write(b)]: a new file gets the mode [0o666 & ~umask]; an
    existing one keeps its mode.  The directory of the file has to be
    there (the current directory, for a bare file name, is). *)
Definition write_file (p : string) (b : bytes) (fs : filesystem)
    : result unit * filesystem :=
  if bool_decide (p ∈ dirs fs) then (raise OSError "Is a directory", fs)
  else if negb (String.eqb (dirname p) "") && negb (bool_decide (dirname p ∈ dirs fs))
  then (raise OSError "No such file or directory", fs)
  else
    let m := match files fs !! p with
             | Some f => mode f
             | None => Z.land 438 (Z.lnot (umask fs))
             end in
    (Ok (), Filesystem (<[p := File b m]> (files fs)) (dirs fs) (umask fs)).

(** [open(p, "rb").read()] *)
Definition read_file (p : string) (fs : filesystem) : result bytes :=
  match files fs !! p with
  | Some f => Ok (content f)
  | None =>
      if bool_decide (p ∈ dirs fs) then raise OSError "Is a directory"
      else raise OSError "No such file or directory"
  end.

End os.

(** ** [src/authy_v4_open/crypto.py] *)
Module crypto.
Section crypto.
Context `{Primitives}.
Variable environ : gmap string string.

Definition translate (from to : ascii) (s : string) : string :=
  string_of_list_ascii
    (List.map (fun c => if is_char from c then to else c) (list_ascii_of_string s)).

(** [base64.urlsafe_b64encode(b)] as text *)
Definition urlsafe_b64encode (b : bytes) : string :=
  translate "/" "_" (translate "+" "-" (b64encode b)).

(** [base64.urlsafe_b64decode(s)] for a [str] *)
Definition urlsafe_b64decode (s : string) : result bytes :=
  if is_ascii s then b64decode (VStr (translate "_" "/" (translate "-" "+" s)))
  else raise ValueError "string argument should contain only ASCII characters".

Definition b64url (data : bytes) : string :=
  rstrip (is_char "=") (urlsafe_b64encode data).

Definition b64url_decode (s : string) : result bytes :=
  let pad := string_of_list_ascii
               (replicate (Z.to_nat ((- Z.of_nat (String.length s)) mod 4)) "="%char) in
  urlsafe_b64decode (s +:+ pad).

(** [seed] is the key [SigningKey.generate()] draws when it is called. *)
Definition ensure_keypair (seed : bytes) (fs : os.filesystem)
    : result (bytes * bytes) * os.filesystem :=
  let KEY_PATH := config.KEY_PATH environ in
  match os.makedirs (os.dirname KEY_PATH) fs with
  | (Raise e, fs1) => (Raise e, fs1)
  | (Ok _, fs1) =>
      if negb (os.exists_ KEY_PATH fs1) then
        let sk := seed in
        match os.write_file KEY_PATH sk fs1 with
        | (Raise e, fs2) => (Raise e, fs2)
        | (Ok _, fs2) => (Ok (sk, ed25519_verify_key sk), fs2)
        end
      else
        (raw ← os.read_file KEY_PATH fs1;
         sk ← SigningKey raw;
         Ok (sk, ed25519_verify_key sk), fs1)
  end.

Definition sign_compact (header payload : dict) (sk : bytes) : string :=
  let header_b := encode_utf8 (json_dumps (VDict header)) in
  let payload_b := encode_utf8 (json_dumps (VDict payload)) in
  let signing_input :=
    rstrip (is_char "=") (urlsafe_b64encode header_b) +:+ "." +:+
    rstrip (is_char "=") (urlsafe_b64encode payload_b) in
  let sig := ed25519_sign sk (encode_utf8 signing_input) in
  signing_input +:+ "." +:+ rstrip (is_char "=") (urlsafe_b64encode sig).

(** [s.split(".")] *)
Fixpoint split_dot (s : string) : list string :=
  match s with
  | EmptyString => [EmptyString]
  | String c s' =>
      if is_char "." c then EmptyString :: split_dot s'
      else match split_dot s' with
           | p :: ps => String c p :: ps
           | [] => [String c EmptyString]
           end
  end.

Definition verify_compact (token : string) (vk : bytes) : result (value * value) :=
  try_except
    (match split_dot token with
     | [p0; p1; p2] =>
         h_b ← b64url_decode p0;
         p_b ← b64url_decode p1;
         sig_b ← b64url_decode p2;
         signing_input ←
           (if is_ascii (p0 +:+ "." +:+ p1) then Ok (encode_utf8 (p0 +:+ "." +:+ p1))
            else raise ValueError "'ascii' codec can't encode character");
         verified ← vk_verify vk signing_input sig_b;
         header ← json_loads h_b;
         payload ← json_loads p_b;
         Ok (header, payload)
     | _ => raise ValueError "invalid token format"
     end)
    [BadSignatureError; ValueError]
    (fun e => raise ValueError ("verification failed: " +:+ exn_msg e)).

End crypto.
End crypto.

(** ** [src/authy_v4_open/storage.py] *)
Module storage.

(** A row of [revocations], without its key. *)
Record revocation : Type := Revocation {
  revoked_at : Z;
  reason : value;
  by_user : value;
}.

(** The table of the connection [DB] that [/verify] and [/revoke] read or
    write, by primary key.  ([/issue] writes the table [passports] only.) *)
Record database : Type := Database {
  revocations : gmap string revocation;
}.

Section storage.
Context `{Primitives}.
Variable environ : gmap string string.

Definition is_lower_hex (c : ascii) : bool :=
  let n := code c in ((48 <=? n) && (n <=? 57)) || ((97 <=? n) && (n <=? 102)).

Definition hmac_metrics (payload_dict : dict) : result string :=
  let METRICS_SECRET := config.METRICS_SECRET environ in
  let payload_bytes := encode_utf8 (json_dumps (VDict payload_dict)) in
  key ←
    (if forallb is_lower_hex (list_ascii_of_string (strip (is_char "x") (lower METRICS_SECRET)))
        && (32 <=? Z.of_nat (String.length (remove_char "x" METRICS_SECRET)))
     then fromhex METRICS_SECRET
     else Ok (encode_utf8 METRICS_SECRET));
  let tag := hex (hmac_sha256 key payload_bytes) in
  Ok tag.

(** [SELECT 1 FROM revocations WHERE jti=?] *)
Definition is_revoked (jti : value) (db : database) : result bool :=
  k ← sqlite_text jti;
  Ok (bool_decide (is_Some (revocations db !! k))).

(** [INSERT OR REPLACE INTO revocations ...]; [now] is [int(time.time())]. *)
Definition revoke_jti (now : Z) (jti : value) (reason by_user : value) (db : database)
    : result unit * database :=
  match sqlite_text jti with
  | Ok k => (Ok (), Database (<[k := Revocation now reason by_user]> (revocations db)))
  | Raise e => (Raise e, db)
  end.

End storage.







End storage.

(** ** [src/authy_v4_open/authy_server.py]: [/verify] and [/revoke] *)
Module authy_server.

(** The request and response models, with the field names of the source. *)
Module VerifyReq.
Record t : Type := { token : string }.
End VerifyReq.

(** The fields are the objects handed to the response model; its check of
    their types, which can only turn a response into an error, is left
    out. *)
Module VerifyResp.
Record t : Type := {
  valid : bool;
  sub : value;
  scope : value;
  org_id : value;
  exp : value;
  kid : value;
  jti : value;
  reason : value;
}.
End VerifyResp.

Module RevokeReq.
Record t : Type := {
  token : option string;
  jti : option string;
  reason : option string;
}.
End RevokeReq.

(** [VerifyResp(valid=False, reason=why)] *)
Definition invalid (why : string) : VerifyResp.t :=
  {| VerifyResp.valid := false; VerifyResp.sub := VNone; VerifyResp.scope := VNone;
     VerifyResp.org_id := VNone; VerifyResp.exp := VNone; VerifyResp.kid := VNone;
     VerifyResp.jti := VNone; VerifyResp.reason := VStr why |}.

Definition opt_str (o : option string) : value :=
  match o with Some s => VStr s | None => VNone end.

Section authy_server.
Context `{Primitives}.
(** The verify key of the pair [ensure_keypair] returned at start-up. *)
Variable vk : bytes.

(** [payload.get]: the decoded payload must be a [dict]. *)
Definition as_dict (v : value) : result dict :=
  match v with
  | VDict d => Ok d
  | _ => raise AttributeError "object has no attribute 'get'"
  end.

(** [now] is the reading of [int(time.time())]. *)
Definition verify (now : Z) (req : VerifyReq.t) (db : storage.database) : result VerifyResp.t :=
  match crypto.verify_compact (VerifyReq.token req) vk with
  | Raise e => Ok (invalid (exn_msg e))
  | Ok (header, payload) =>
      payload ← as_dict payload;
      expired ← lt_int (dict_get payload "exp" (VInt 0)) now;
      if expired : bool then Ok (invalid "expired") else
      let jti := dict_get payload "jti" VNone in
      if negb (truthy jti) then Ok (invalid "missing jti") else
      revoked ← storage.is_revoked jti db;
      if revoked : bool then Ok (invalid "revoked") else
      Ok {| VerifyResp.valid := true;
            VerifyResp.sub := dict_get payload "sub" VNone;
            VerifyResp.scope := dict_get payload "scope" VNone;
            VerifyResp.org_id := dict_get payload "org_id" VNone;
            VerifyResp.exp := dict_get payload "exp" VNone;
            VerifyResp.kid := dict_get payload "kid" VNone;
            VerifyResp.jti := jti;
            VerifyResp.reason := VNone |}
  end.

(** The response is [{"ok": True, "jti": jti}]: the result is its [jti]. *)
Definition revoke (now : Z) (req : RevokeReq.t) (db : storage.database)
    : result value * storage.database :=
  let jti := opt_str (RevokeReq.jti req) in
  match
    (if truthy (opt_str (RevokeReq.token req)) && negb (truthy jti) then
       try_except_all
         ('(header, payload) ← crypto.verify_compact (default "" (RevokeReq.token req)) vk;
          payload ← as_dict payload;
          Ok (dict_get payload "jti" VNone))
         (fun e => raise HTTPException ("invalid token: " +:+ exn_msg e))
     else Ok jti)
  with
  | Raise e => (Raise e, db)
  | Ok jti =>
      if negb (truthy jti) then (raise HTTPException "jti or token required", db)
      else
        match storage.revoke_jti now jti (opt_str (RevokeReq.reason req)) (VStr "api") db with
        | (Ok _, db') => (Ok jti, db')
        | (Raise e, db') => (Raise e, db')
        end
  end.

End authy_server.

(** A request to the service and the database it leaves behind; [run] is
    any sequence of requests. *)
Inductive request : Type :=
| Verify (now : Z) (req : VerifyReq.t)
| Revoke (now : Z) (req : RevokeReq.t).

Definition step `{Primitives} (vk : bytes) (db : storage.database) (r : request)
    : storage.database :=
  match r with
  | Verify _ _ => db
  | Revoke now req => (revoke vk now req db).2
  end.

Definition run `{Primitives} (vk : bytes) (db : storage.database) (rs : list request)
    : storage.database :=
  foldl (step vk) db rs.

(** *** [/issue] *)

(** The request and response models of [/issue], as they are after
    validation. *)
Module IssueReq.
Record t : Type := {
  sub : string;
  scope : list string;
  ttl : option Z;
  nonce : string;
  org_id : option string;
  raw : option string;
}.
End IssueReq.

Module IssueResp.
Record t : Type := {
  token : string;
  kid : Z;
  jti : string;
  exp : Z;
}.
End IssueResp.


Section issue.
Context `{Primitives}.
Variable environ : gmap string string.
(** [hashlib.sha256(b).digest()] *)
Variable sha256 : bytes -> bytes.
(** The value [config.TTL_DEFAULT] got when the module was loaded. *)
Variable TTL_DEFAULT : Z.
(** The signing key of the pair [ensure_keypair] returned at start-up. *)
Variable sk : bytes.


End issue.

End authy_server.

(** ** [src/auth0_utils.py] *)
Module auth0_utils.

Inductive level : Set := DEBUG | INFO | WARNING | ERROR.

(** [JWKS_CACHE] and what [logger] has emitted, oldest first.  [ts] is 0 or
    a reading of [time.time()], a binary64 number either way. *)
Record state : Type := State {
  JWKS_CACHE_keys : value;
  JWKS_CACHE_ts : spec_float;
  JWKS_CACHE_ttl : Z;
  log : list (level * string);
}.

(** The cache without the log. *)
Definition cache_of (st : state) : value * spec_float * Z :=
  (JWKS_CACHE_keys st, JWKS_CACHE_ts st, JWKS_CACHE_ttl st).

Definition initial : state := State VNone (S754_zero false) 300 [].

Definition logged (l : level) (msg : string) (st : state) : state :=
  State (JWKS_CACHE_keys st) (JWKS_CACHE_ts st) (JWKS_CACHE_ttl st) (log st ++ [(l, msg)]).

(** [JWKS_CACHE["keys"] and (now - JWKS_CACHE["ts"] < JWKS_CACHE["ttl"])] *)
Definition fresh (now : spec_float) (st : state) : bool :=
  truthy (JWKS_CACHE_keys st) &&
  match float_compare_Z (SFsub 53 1024 now (JWKS_CACHE_ts st)) (JWKS_CACHE_ttl st) with
  | Some Lt => true
  | _ => false
  end.

(** ["keys" not in jwks or not isinstance(jwks["keys"], list)], which can
    itself raise [TypeError] on an object that is not a [dict]. *)
Definition invalid_structure (jwks : value) : result bool :=
  match jwks with
  | VDict d =>
      match d !! "keys" with
      | Some (VList _) => Ok false
      | _ => Ok true
      end
  | VList l | VTuple l =>
      if existsb (py_eq (VStr "keys")) l
      then raise TypeError "indices must be integers or slices, not str"
      else Ok true
  | VStr s =>
      match String.index 0 "keys" s with
      | Some _ => raise TypeError "string indices must be integers, not 'str'"
      | None => Ok true
      end
  | VNone | VBool _ | VInt _ | VFloat _ =>
      raise TypeError "argument of this type is not iterable"
  end.

(** The response is a JSON object with a [keys] array. *)
Definition has_keys_array (jwks : value) : bool :=
  match jwks with
  | VDict d => match d !! "keys" with Some (VList _) => true | _ => false end
  | _ => false
  end.

Definition keys_count (jwks : value) : Z :=
  match jwks with
  | VDict d => match d !! "keys" with Some (VList l) => Z.of_nat (length l) | _ => 0 end
  | _ => 0
  end.

Section auth0_utils.
Variable environ : gmap string string.

Definition AUTH0_DOMAIN : string := default "" (environ !! "AUTH0_DOMAIN").

(** [now] is the reading of [time.time()]; [response] is what
    [httpx.get(url, timeout=10.0)], [r.raise_for_status()] and [r.json()]
    come to when they are run: the decoded body, or the exception one of
    them raises ([HTTPError] for a transport or status error). *)
Definition _jwks (now : spec_float) (response : result value) (st : state)
    : result value * state :=
  if String.eqb AUTH0_DOMAIN "" then
    (raise ValueError "AUTH0_DOMAIN environment variable not set", st)
  else if fresh now st then (Ok (JWKS_CACHE_keys st), st)
  else if fresh now st then (Ok (JWKS_CACHE_keys st), st)
  else
    let url := "https://" +:+ AUTH0_DOMAIN +:+ "/.well-known/jwks.json" in
    let st := logged DEBUG ("Fetching JWKS from " +:+ url) st in
    let attempt : result value :=
      jwks ← response;
      bad ← invalid_structure jwks;
      if bad : bool then raise ValueError "Invalid JWKS structure" else Ok jwks in
    match attempt with
    | Ok jwks =>
        let st := State jwks now (JWKS_CACHE_ttl st) (log st) in
        let st := logged INFO ("JWKS refreshed successfully ("
                               +:+ pretty (keys_count jwks) +:+ " keys)") st in
        (Ok jwks, st)
    | Raise e =>
        if bool_decide (exn_cls e = HTTPError) then
          let st := logged ERROR ("Failed to fetch JWKS: " +:+ exn_msg e) st in
          if truthy (JWKS_CACHE_keys st) then
            let st := logged WARNING "Using stale JWKS cache as fallback" st in
            (Ok (JWKS_CACHE_keys st), st)
          else (Raise e, st)
        else
          let st := logged ERROR ("Unexpected error fetching JWKS: " +:+ exn_msg e) st in
          (Raise e, st)
    end.

Definition clear_jwks_cache (st : state) : state :=
  logged INFO "JWKS cache cleared"
    (State VNone (S754_zero false) (JWKS_CACHE_ttl st) (log st)).

(** [now] is the reading of [time.time()]. *)
Definition get_jwks_cache_age (now : spec_float) (st : state) : value :=
  if negb (truthy (JWKS_CACHE_keys st)) then VInt (-1)
  else VFloat (SFsub 53 1024 now (JWKS_CACHE_ts st)).

End auth0_utils.

(** [s in scopes] for the set of the scopes granted. *)
Definition granted (scopes : list string) (s : string) : bool :=
  existsb (String.eqb s) scopes.

Definition require_scopes (claims : dict) (needed : list string) (st : state)
    : result bool * state :=
  match needed with
  | [] => (Ok true, st)
  | _ =>
      let scope_str := or_else (dict_get claims "scope" VNone) (VStr "") in
      match str_split scope_str with
      | Raise e => (Raise e, st)
      | Ok scopes =>
          let has_all := forallb (granted scopes) needed in
          if negb has_all then
            let missing := List.filter (fun s => negb (granted scopes s)) needed in
            (Ok has_all,
             logged DEBUG ("Missing required scopes: " +:+ repr_list missing) st)
          else (Ok has_all, st)
      end
  end.

Definition get_user_scopes (claims : dict) : result (list string) :=
  let scope_str := or_else (dict_get claims "scope" VNone) (VStr "") in
  str_split scope_str.

(** *** [verify_jwt] *)

(** An exception as the handlers of [verify_jwt] see it: whether it is a
    [jose.JWTError], the name of its class, and its text. *)
Record failure : Type := Failure {
  is_JWTError : bool;
  type_name : string;
  text : string;
}.

(** An exception of a built-in class raised in the body. *)
Definition builtin (name text : string) : failure := Failure false name text.

(** [next((k for k in keys if k.get("kid") == kid), None)] on the items
    of [keys]: an item before the match that is not a [dict] has no
    [get]. *)
Fixpoint find_key (kid : value) (items : list value) : failure + option dict :=
  match items with
  | [] => inr None
  | VDict k :: rest =>
      if value_eq (dict_get k "kid" VNone) kid then inr (Some k) else find_key kid rest
  | _ :: _ => inl (builtin "AttributeError" "object has no attribute 'get'")
  end.

Section verify_jwt.
Variable environ : gmap string string.
(** [jose.jwt.get_unverified_header(token)] *)
Variable get_unverified_header : string -> failure + dict.
(** [jose.jwt.decode(token, key, algorithms=["RS256"], audience=audience,
    issuer=issuer, options=...)] with the options of the call, which are
    constants *)
Variable decode : string -> dict -> string -> string -> failure + dict.
(** [str(v)], as an f-string formats an object *)
Variable str_of : value -> string.
(** [type(e).__name__] of an exception [_jwks] raised *)
Variable name_of : exn -> string.

Definition AUTH0_AUDIENCE : string := default "" (environ !! "AUTH0_AUDIENCE").

(** The body of the [try]: the claims, or the exception that reaches the
    handlers, and the state [_jwks] left.  [now] and [response] are the
    inputs of [_jwks]. *)
Definition verify_jwt_body (now : spec_float) (response : result value) (token : string)
    (st : state) : (failure + dict) * state :=
  match get_unverified_header token with
  | inl f => (inl f, st)
  | inr unverified =>
      let kid := dict_get unverified "kid" VNone in
      let alg := dict_get unverified "alg" VNone in
      if negb (truthy kid) then
        (inl (builtin "ValueError" "Token missing 'kid' in header"), st)
      else if ne_str alg "RS256" then
        (inl (builtin "ValueError"
                ("Unsupported algorithm: " +:+ str_of alg +:+ ". Only RS256 is supported")),
         st)
      else
        match _jwks environ now response st with
        | (Raise e, st) => (inl (builtin (name_of e) (exn_msg e)), st)
        | (Ok (VDict jwks), st) =>
            let keys := dict_get jwks "keys" (VList []) in
            match iterate keys with
            | Raise e => (inl (builtin "TypeError" (exn_msg e)), st)
            | Ok items =>
                match find_key kid items with
                | inl f => (inl f, st)
                | inr key =>
                    match key with
                    | Some k =>
                        if negb (truthy (VDict k)) then
                          (inl (builtin "ValueError"
                                  ("No matching JWKS key found for kid: " +:+ str_of kid)),
                           st)
                        else if truthy (dict_get k "alg" VNone)
                                && ne_str (dict_get k "alg" VNone) "RS256" then
                          (inl (builtin "ValueError"
                                  ("JWKS key algorithm mismatch: "
                                   +:+ str_of (dict_get k "alg" VNone))),
                           st)
                        else
                          let iss := "https://" +:+ AUTH0_DOMAIN environ +:+ "/" in
                          (decode token k AUTH0_AUDIENCE iss, st)
                    | None =>
                        (inl (builtin "ValueError"
                                ("No matching JWKS key found for kid: " +:+ str_of kid)),
                         st)
                    end
                end
            end
        | (Ok _, st) => (inl (builtin "AttributeError" "object has no attribute 'get'"), st)
        end
  end.

Definition verify_jwt (now : spec_float) (response : result value) (token : string)
    (st : state) : result dict * state :=
  if String.eqb token "" then (raise ValueError "Empty token", st)
  else if String.eqb (AUTH0_DOMAIN environ) "" || String.eqb AUTH0_AUDIENCE "" then
    (raise ValueError "AUTH0_DOMAIN and AUTH0_AUDIENCE must be configured", st)
  else
    match verify_jwt_body now response token st with
    | (inr claims, st) =>
        (Ok claims,
         logged DEBUG ("JWT verified successfully for subject: "
                       +:+ str_of (dict_get claims "sub" VNone)) st)
    | (inl f, st) =>
        if is_JWTError f then
          (raise ValueError ("Invalid JWT: " +:+ type_name f),
           logged WARNING ("JWT verification failed: " +:+ type_name f +:+ ": " +:+ text f) st)
        else
          (raise ValueError "Token verification failed",
           logged ERROR ("Unexpected error verifying JWT: " +:+ type_name f +:+ ": "
                         +:+ text f) st)
    end.

End verify_jwt.

(** A call that touches the cache, with the clock reading and the answer
    of the network it meets, and the state it leaves behind; [run] is any
    sequence of such calls. *)
Inductive call : Type :=
| Jwks (now : spec_float) (response : result value)
| Clear.

Definition step (environ : gmap string string) (st : state) (c : call) : state :=
  match c with
  | Jwks now response => (_jwks environ now response st).2
  | Clear => clear_jwks_cache st
  end.

Definition run (environ : gmap string string) (st : state) (cs : list call) : state :=
  foldl (step environ) st cs.

End auth0_utils.
(** ** [src/examples/mcp_integration.py]: authentication and scopes *)
Module mcp_integration.

(** What leaves a function of this module instead of a result: a FastAPI
    [HTTPException] with its status code and detail, an [IndexError], or an
    exception of a called function that nothing caught. *)
Inductive raised : Type :=
| HTTPException (status_code : Z) (detail : string)
| IndexError (text : string)
| Propagated (e : exn).

Section mcp_integration.
Variable environ : gmap string string.
Variable get_unverified_header : string -> auth0_utils.failure + dict.
Variable decode : string -> dict -> string -> string -> auth0_utils.failure + dict.
Variable str_of : value -> string.
Variable name_of : exn -> string.

(** [authorization] is the [Authorization] header, if the request has one;
    [now] and [response] are the inputs of [_jwks]. *)
Definition get_authenticated_user (now : spec_float) (response : result value)
    (authorization : option string) (st : auth0_utils.state)
    : (raised + dict) * auth0_utils.state :=
  match authorization with
  | None => (inl (HTTPException 401 "Missing Authorization header"), st)
  | Some authorization =>
      if String.eqb authorization "" then
        (inl (HTTPException 401 "Missing Authorization header"), st)
      else if negb (startswith (lower authorization) "bearer ") then
        (inl (HTTPException 401
                "Invalid Authorization header format. Expected: Bearer <token>"), st)
      else
        match split_once " " authorization with
        | _ :: token :: _ =>
            match
              auth0_utils.verify_jwt environ get_unverified_header decode str_of name_of
                now response token st
            with
            | (Ok claims, st) => (inr claims, st)
            | (Raise e, st) =>
                if bool_decide (exn_cls e = ValueError) then
                  (inl (HTTPException 401 "Invalid or expired authentication token"), st)
                else (inl (Propagated e), st)
            end
        | _ => (inl (IndexError "list index out of range"), st)
        end
  end.

End mcp_integration.

(** [scope_map.get(operation, "db:read")] *)
Definition scope_map (operation : string) : string :=
  if String.eqb operation "read" then "db:read"
  else if String.eqb operation "write" then "db:write"
  else if String.eqb operation "admin" then "db:admin"
  else "db:read".

Definition require_db_scope (claims : dict) (operation : string) (st : auth0_utils.state)
    : (raised + unit) * auth0_utils.state :=
  let needed_scope := scope_map operation in
  match auth0_utils.require_scopes claims [needed_scope] st with
  | (Raise e, st) => (inl (Propagated e), st)
  | (Ok ok, st) =>
      if negb ok then
        (inl (HTTPException 403 ("Missing required scope: " +:+ needed_scope)), st)
      else (inr (), st)
  end.

End mcp_integration.


(** ** A small instance of the primitives

    Used to run the model on concrete inputs.  It is not cryptography: the
    tag of a message is the message and the key cut to 32 bytes, a signature
    is the key and the message cut to 64 bytes, base64 text is hexadecimal
    text (padding characters are skipped when decoding), and [json.loads]
    knows the documents of [known_documents] only. *)
Module toy.

Definition cut (n : nat) (b : bytes) : bytes := take n (b ++ replicate n x00).

Definition hmac (key msg : bytes) : bytes := cut 32 (msg ++ key).
Definition verify_key (seed : bytes) : bytes := seed.
Definition sign (seed msg : bytes) : bytes := cut 64 (seed ++ msg).
Definition verify (vk msg sig : bytes) : bool := bool_decide (sig = cut 64 (vk ++ msg)).
Definition float_repr (f : spec_float) : string := "1.5".

Definition loads_from (docs : list (string * value)) (b : bytes) : result value :=
  match List.find (fun d => bool_decide (encode_utf8 d.1 = b)) docs with
  | Some d => Ok d.2
  | None => raise ValueError "Expecting value"
  end.

(** The payload of a token with [exp = 100] and [jti = "J"], and a header. *)
Definition known_documents : list (string * value) :=
  [ ("{}", VDict ∅);
    ("{" +:+ dquote +:+ "exp" +:+ dquote +:+ ":100,"
         +:+ dquote +:+ "jti" +:+ dquote +:+ ":" +:+ dquote +:+ "J" +:+ dquote +:+ "}",
     VDict {[ "exp" := VInt 100; "jti" := VStr "J" ]}) ].

Definition unhex (s : string) : option bytes :=
  match fromhex_go 0 (list_ascii_of_string (remove_char "=" s)) with
  | inr b => Some b
  | inl _ => None
  end.

Definition text_of (v : value) : result string :=
  match v with
  | VStr s => Ok s
  | VInt z => Ok (pretty z)
  | VBool b => Ok (pretty (Z.b2z b))
  | _ => raise InterfaceError "Error binding parameter 0 - probably unsupported type"
  end.

#[export] Instance primitives : Primitives := {|
  Py.float_repr := float_repr;
  hmac_sha256 := hmac;
  ed25519_verify_key := verify_key;
  ed25519_sign := sign;
  ed25519_verify := verify;
  b64encode := hex;
  a2b_base64 := unhex;
  json_loads := loads_from known_documents;
  sqlite_text := text_of;
|}.

(** A second instance, for the code that cuts and restores the padding of
    base64 text: the text is the hexadecimal text filled up with [=] to a
    multiple of four characters, and [json.loads] knows the documents it is
    given. *)
Definition b64pad (b : bytes) : string :=
  hex b +:+ (if Nat.even (length b) then "" else "==").

Definition padded (docs : list (string * value)) : Primitives := {|
  Py.float_repr := float_repr;
  hmac_sha256 := hmac;
  ed25519_verify_key := verify_key;
  ed25519_sign := sign;
  ed25519_verify := verify;
  b64encode := b64pad;
  a2b_base64 := unhex;
  json_loads := loads_from docs;
  sqlite_text := text_of;
|}.


End toy.

(** ** Inputs of the worked examples *)
Module examples.

Definition seed : bytes := replicate 32 x01.
Definition nonce : string := "00112233445566778899aabbccddeeff".
Definition metrics : dict := {[ "ver" := VInt 1; "status" := VStr "ok" ]}.


(** The development environment: nothing is configured. *)
Definition development : gmap string string := ∅.

(** A production environment without keys. *)
Definition production : gmap string string := {[ "ENV" := "production" ]}.

(** Scenario 3 of the specification: a lease for [tool:x], 30 seconds. *)
Definition lease_id : string := "0123456789abcdef0123456789abcdef".
Definition lease : dict :=
  (tokens.issue_capability_lease lease_id 1000 1000 "u" "a" "tool:x" 30 tokens.empty).1.
Definition store_after_issue : tokens.store :=
  (tokens.issue_capability_lease lease_id 1000 1000 "u" "a" "tool:x" 30 tokens.empty).2.

(** A copy of the lease that carries its identifier and nothing else. *)
Definition bare_lease : dict := {[ "lease_id" := VStr lease_id ]}.

(** Scenario 7 of the specification: a token with [jti = "J"] that expires
    at 100, signed with [seed]; a revocation of ["J"] at time 50. *)
Definition token_payload : dict := {[ "exp" := VInt 100; "jti" := VStr "J" ]}.
Definition token : string :=
  crypto.sign_compact (H := toy.primitives) ∅ token_payload seed.
Definition revoke_J : authy_server.RevokeReq.t :=
  {| authy_server.RevokeReq.token := None;
     authy_server.RevokeReq.jti := Some "J";
     authy_server.RevokeReq.reason := None |}.
Definition verify_token : authy_server.VerifyReq.t :=
  {| authy_server.VerifyReq.token := token |}.
Definition verify_junk : authy_server.VerifyReq.t :=
  {| authy_server.VerifyReq.token := "junk" |}.
Definition no_revocations : storage.database := storage.Database ∅.

(** An empty file system with the usual umask 022. *)
Definition empty_disk : os.filesystem := os.Filesystem ∅ ∅ 18.

(** Scenario 6 of the specification: a cache warmed at time 0 with one
    key, looked up at time 1024 = 2^10, after its 300 seconds. *)
Definition auth0 : gmap string string := {[ "AUTH0_DOMAIN" := "tenant.example" ]}.
Definition jwks : value :=
  VDict {[ "keys" := VList [VDict {[ "kid" := VStr "k1"; "kty" := VStr "RSA" ]}] ]}.
Definition warm : auth0_utils.state :=
  auth0_utils.State jwks (S754_zero false) 300 [].
Definition t1024 : spec_float := S754_finite false 4503599627370496 (-42).
Definition outage : result value := Raise (Exn HTTPError "All connection attempts failed").

Definition issue_jti : string := "9f1c2d3e4b5a69788796a5b4c3d2e1f0".
Definition issue_mtag : string :=
  match
    storage.hmac_metrics (H := toy.primitives) ∅
      {[ "sub" := VStr "alice"; "scope" := VList [VStr "demo:read"]; "org_id" := VNone;
         "raw" := VStr ""; "nonce" := VStr "n-1"; "iat" := VInt 1000 ]}
  with
  | Ok tag => tag
  | Raise _ => ""
  end.
Definition issue_header : dict :=
  {[ "alg" := VStr "Ed25519"; "kid" := VInt 1; "typ" := VStr "ISMJ" ]}.
Definition issue_payload : dict :=
  {[ "mtag" := VStr issue_mtag;
     "iss" := VStr "did:ismx:public";
     "sub" := VStr "alice";
     "scope" := VList [VStr "demo:read"];
     "org_id" := VNone;
     "iat" := VInt 1000;
     "exp" := VInt 1060;
     "jti" := VStr issue_jti;
     "nonce" := VStr "n-1";
     "kid" := VInt 1 ]}.
Definition issue_docs : list (string * value) :=
  [ (json_dumps (H := toy.primitives) (VDict issue_header), VDict issue_header);
    (json_dumps (H := toy.primitives) (VDict issue_payload), VDict issue_payload) ].
Definition issued_token : string :=
  crypto.sign_compact (H := toy.padded issue_docs) issue_header issue_payload seed.

(** A passport issued in development at time 1000 for 60 seconds. *)
Definition issued_passport : dict :=
  match
    passport.issue_passport (H := toy.primitives) development seed nonce 1000 1000
      "a1" "s1" metrics 60
  with
  | Ok p => p
  | Raise _ => ∅
  end.

(** A production environment with both keys configured. *)
Definition configured : gmap string string :=
  {[ "ENV" := "production";
     "ED25519_SK_B64" := b64encode (Primitives := toy.primitives) seed;
     "ED25519_VK_B64" := b64encode (Primitives := toy.primitives) seed ]}.

(** Stand-ins for the JOSE library and for [str()] and [type().__name__]:
    a header that names the key [k1] and RS256, a decoder that accepts, a
    header reader that fails; and an Auth0 configuration. *)
Definition auth0_api : gmap string string :=
  {[ "AUTH0_DOMAIN" := "tenant.example"; "AUTH0_AUDIENCE" := "api" ]}.
Definition header_k1 (token : string) : auth0_utils.failure + dict :=
  inr {[ "kid" := VStr "k1"; "alg" := VStr "RS256" ]}.
Definition claims_u1 : dict := {[ "sub" := VStr "u1"; "scope" := VStr "db:read db:write" ]}.
Definition decode_ok (token : string) (key : dict) (audience issuer : string)
    : auth0_utils.failure + dict :=
  inr claims_u1.
Definition str_of (v : value) : string :=
  match v with VStr s => s | _ => "?" end.
Definition name_of (e : exn) : string := "Exception".
Definition t0 : spec_float := S754_zero false.

End examples.

(** * Properties *)

(** ** The run time *)
Section runtime_facts.

Lemma bind_Ok {A B} (a : A) (k : A -> result B) : (Ok a ≫= k) = k a.
Proof. reflexivity. Qed.

Lemma bind_Raise {A B} (e : exn) (k : A -> result B) : (Raise e ≫= k) = Raise e.
Proof. reflexivity. Qed.

Lemma dict_get_Some (d : dict) (k : string) (dflt v : value) :
  d !! k = Some v -> dict_get d k dflt = v.
Proof. unfold dict_get. now intros ->. Qed.

Lemma dict_get_None (d : dict) (k : string) (dflt : value) :
  d !! k = None -> dict_get d k dflt = dflt.
Proof. unfold dict_get. now intros ->. Qed.

Lemma getitem_Some (d : dict) (k : string) (v : value) :
  d !! k = Some v -> getitem d k = Ok v.
Proof. unfold getitem. now intros ->. Qed.

Lemma list_ascii_roundtrip (l : list ascii) :
  list_ascii_of_string (string_of_list_ascii l) = l.
Proof. induction l as [|c l IH]; simpl; [reflexivity | now rewrite IH]. Qed.

Lemma hex_byte_ascii (x : byte) :
  (code (hex_digit (Z_of_byte x / 16)) <? 128) = true /\
  (code (hex_digit (Z_of_byte x mod 16)) <? 128) = true.
Proof. destruct x; vm_compute; split; reflexivity. Qed.

(** A hexadecimal digest is an ASCII string. *)
Lemma hex_is_ascii (b : bytes) : is_ascii (hex b) = true.
Proof.
  unfold is_ascii, hex. rewrite list_ascii_roundtrip.
  induction b as [|x b IH]; [reflexivity|].
  cbn [flat_map app forallb].
  destruct (hex_byte_ascii x) as [-> ->]. exact IH.
Qed.

Lemma compare_digest_hex (b b' : bytes) :
  compare_digest (VStr (hex b)) (VStr (hex b')) = Ok (String.eqb (hex b) (hex b')).
Proof. unfold compare_digest. now rewrite !hex_is_ascii. Qed.

Lemma string_eqb_decide (s t : string) : String.eqb s t = bool_decide (s = t).
Proof.
  destruct (String.eqb_spec s t) as [->|Hne].
  - now rewrite bool_decide_eq_true_2.
  - now rewrite bool_decide_eq_false_2.
Qed.

Lemma existsb_set_add (s : list value) (v w : value) :
  existsb (py_eq w) s = true -> existsb (py_eq w) (set_add s v) = true.
Proof.
  unfold set_add. destruct (existsb (py_eq v) s); [easy|].
  intros Hw. cbn. rewrite Hw. apply orb_true_r.
Qed.

Lemma py_eq_str_refl (s : string) : py_eq (VStr s) (VStr s) = true.
Proof. cbn. apply String.eqb_refl. Qed.

Lemma existsb_set_add_same (s : list value) (lid : string) :
  existsb (py_eq (VStr lid)) (set_add s (VStr lid)) = true.
Proof.
  unfold set_add. destruct (existsb (py_eq (VStr lid)) s) eqn:E; [exact E|].
  cbn [existsb]. now rewrite py_eq_str_refl.
Qed.

End runtime_facts.

(** Case analysis on the next call of a monadic sequence. *)
Ltac run_bind :=
  rewrite ?bind_Ok, ?bind_Raise.
Ltac case_bind r x e E :=
  destruct r as [x|e] eqn:E; run_bind.

(** ** The small instance satisfies the laws *)
Section toy_facts.

Lemma toy_cut_length (n : nat) (b : bytes) : length (toy.cut n b) = n.
Proof.
  unfold toy.cut. rewrite length_take, length_app, length_replicate. lia.
Qed.

Lemma toy_hex_byte (x : byte) :
  let h1 := hex_digit (Z_of_byte x / 16) in
  let h2 := hex_digit (Z_of_byte x mod 16) in
  is_char "=" h1 = false /\ is_char "=" h2 = false /\
  is_hex_space h1 = false /\
  exists hi lo, hex_value h1 = Some hi /\ hex_value h2 = Some lo /\
                byte_of_Z (16 * hi + lo) = x.
Proof.
  destruct x; vm_compute; repeat split; eexists _, _; repeat split.
Qed.

Lemma toy_hex_roundtrip (b : bytes) : toy.unhex (hex b) = Some b.
Proof.
  unfold toy.unhex, remove_char, hex. rewrite !list_ascii_roundtrip.
  generalize 0%nat as pos.
  induction b as [|x b IH]; intros pos; [reflexivity|].
  cbn [flat_map app List.filter].
  destruct (toy_hex_byte x) as (E1 & E2 & Hsp & hi & lo & Hhi & Hlo & Hx).
  cbv zeta in E1, E2, Hsp, Hhi, Hlo.
  rewrite E1, E2. cbn [negb fromhex_go].
  rewrite Hsp, Hhi, Hlo. specialize (IH (S (S pos))).
  destruct (fromhex_go _ _) as [bad|rest]; [discriminate|].
  injection IH as ->. now rewrite Hx.
Qed.

Lemma toy_laws : PrimitivesLaws toy.primitives.
Proof.
  split; cbn.
  - intros seed Hlen. exact Hlen.
  - intros seed msg _. apply toy_cut_length.
  - intros seed msg _. unfold toy.verify, toy.sign, toy.verify_key.
    now rewrite bool_decide_eq_true_2.
  - apply hex_is_ascii.
  - apply toy_hex_roundtrip.
  - reflexivity.
Qed.

End toy_facts.

(** ** Passports *)
Section passport_facts.
Context `{P : Primitives}.
Variable environ : gmap string string.

Lemma SigningKey_ok (seed sk : bytes) :
  SigningKey seed = Ok sk -> sk = seed /\ length seed = 32%nat.
Proof.
  unfold SigningKey. destruct (Nat.eqb_spec (length seed) 32); [|discriminate].
  intros [= <-]. split; [reflexivity | assumption].
Qed.

Lemma VerifyKey_ok (key vk : bytes) :
  VerifyKey key = Ok vk -> vk = key /\ length key = 32%nat.
Proof.
  unfold VerifyKey. destruct (Nat.eqb_spec (length key) 32); [|discriminate].
  intros [= <-]. split; [reflexivity | assumption].
Qed.

Lemma VerifyKey_32 (key : bytes) : length key = 32%nat -> VerifyKey key = Ok key.
Proof. intros E. unfold VerifyKey. now rewrite E. Qed.

(** The keys [_load_keys] returns have the sizes of Ed25519 keys. *)
Lemma load_keys_lengths `{!PrimitivesLaws P} (seed sk vk : bytes) :
  length seed = 32%nat ->
  passport._load_keys environ seed = Ok (sk, vk) ->
  length sk = 32%nat /\ length vk = 32%nat.
Proof.
  intros Hseed. unfold passport._load_keys. cbv zeta.
  destruct (_ || _).
  - destruct (String.eqb _ _); [|discriminate].
    intros [= <- <-]. split; [assumption | now apply verify_key_length].
  - unfold try_except_all.
    case_bind (b64decode (VStr (default "" (environ !! "ED25519_SK_B64")))) skb e E1;
      [|discriminate].
    case_bind (SigningKey skb) sk' e E2; [|discriminate].
    case_bind (b64decode (VStr (default "" (environ !! "ED25519_VK_B64")))) vkb e E3;
      [|discriminate].
    case_bind (VerifyKey vkb) vk' e E4; [|discriminate].
    intros [= <- <-].
    apply SigningKey_ok in E2 as [-> ?]. apply VerifyKey_ok in E4 as [-> ?].
    now split.
Qed.

Lemma b64decode_encode `{!PrimitivesLaws P} (b : bytes) :
  b64decode (VStr (b64encode b)) = Ok b.
Proof. unfold b64decode. now rewrite b64encode_ascii, b64_roundtrip. Qed.

Lemma compare_digest_commit (m m' : dict) :
  compare_digest (VStr (passport.hmac_commit environ m'))
                 (VStr (passport.hmac_commit environ m)) =
  Ok (String.eqb (passport.hmac_commit environ m') (passport.hmac_commit environ m)).
Proof. unfold passport.hmac_commit. cbv zeta. apply compare_digest_hex. Qed.

(** The fields of an issued passport. *)
Lemma issued_fields (seed : bytes) (nonce : string) (t_exp t_issued : Z)
    (a s : string) (m : dict) (ttl : Z) (p : dict) :
  passport.issue_passport environ seed nonce t_exp t_issued a s m ttl = Ok p ->
  exists sk vk,
    passport._load_keys environ seed = Ok (sk, vk) /\
    let commitment := passport.hmac_commit environ m in
    let msg := passport.pack_message (VStr a) (VStr s) (VStr commitment) (VInt ttl) (VStr nonce) in
    p !! "agent_id" = Some (VStr a) /\
    p !! "session_id" = Some (VStr s) /\
    p !! "commitment" = Some (VStr commitment) /\
    p !! "nonce" = Some (VStr nonce) /\
    p !! "sig_b64" = Some (VStr (b64encode (ed25519_sign sk msg))) /\
    p !! "vk_b64" = Some (VStr (b64encode vk)) /\
    p !! "exp" = Some (VInt (t_exp + ttl)) /\
    p !! "ttl_s_original" = Some (VInt ttl) /\
    p !! "issued_at" = Some (VInt t_issued).
Proof.
  unfold passport.issue_passport.
  case_bind (passport._load_keys environ seed) k e E; [|discriminate].
  destruct k as [sk vk]. cbv zeta. intros [= <-].
  exists sk, vk. split; [reflexivity|].
  repeat split; by simplify_map_eq.
Qed.

(** What [verify_passport] computes on an issued passport. *)
Lemma verify_issued `{!PrimitivesLaws P} (seed : bytes) (nonce : string) (t_exp t_issued : Z)
    (agent_id session_id : string) (m : dict) (ttl_s : Z) (p : dict)
    (now : Z) (a s : string) (m' : dict) :
  length seed = 32%nat ->
  passport.issue_passport environ seed nonce t_exp t_issued agent_id session_id m ttl_s = Ok p ->
  exists sk vk,
    passport._load_keys environ seed = Ok (sk, vk) /\
    let commitment := passport.hmac_commit environ m in
    let msg := passport.pack_message (VStr agent_id) (VStr session_id) (VStr commitment)
                 (VInt ttl_s) (VStr nonce) in
    passport.verify_passport environ now p a s m' =
      Ok (negb (now >? t_exp + ttl_s)
          && String.eqb (passport.hmac_commit environ m') commitment
          && String.eqb agent_id a && String.eqb session_id s
          && ed25519_verify vk msg (ed25519_sign sk msg)).
Proof.
  intros Hseed Hissue.
  destruct (issued_fields _ _ _ _ _ _ _ _ _ Hissue)
    as (sk & vk & Hkeys & Ha & Hs & Hc & Hn & Hsig & Hvk & Hexp & Httl & _).
  destruct (load_keys_lengths _ _ _ Hseed Hkeys) as [Hsk Hvklen].
  exists sk, vk. split; [exact Hkeys|]. cbv zeta.
  unfold passport.verify_passport.
  rewrite (dict_get_Some _ _ _ _ Hexp), (dict_get_Some _ _ _ _ Hc),
    (dict_get_Some _ _ _ _ Ha), (dict_get_Some _ _ _ _ Hs), (dict_get_Some _ _ _ _ Httl),
    (getitem_Some _ _ _ Hc), (getitem_Some _ _ _ Hn), (getitem_Some _ _ _ Hvk),
    (getitem_Some _ _ _ Hsig).
  cbn [int]. run_bind.
  destruct (now >? t_exp + ttl_s); [reflexivity|]. cbn [negb andb].
  rewrite compare_digest_commit. run_bind.
  destruct (String.eqb (passport.hmac_commit environ m') _); [|reflexivity].
  cbn [negb andb ne_str].
  destruct (String.eqb agent_id a) eqn:Ea; [|reflexivity].
  destruct (String.eqb session_id s) eqn:Es; [|reflexivity].
  apply String.eqb_eq in Ea, Es. subst a s.
  cbn [negb andb]. run_bind.
  rewrite b64decode_encode. run_bind. rewrite (VerifyKey_32 _ Hvklen). run_bind.
  rewrite b64decode_encode. run_bind.
  unfold vk_verify. rewrite (sign_length _ _ Hsk), Nat.eqb_refl.
  destruct (ed25519_verify _ _ _); reflexivity.
Qed.

End passport_facts.

(** C1, as amended.  For a passport [p] issued at the clock reading [t]
    with metrics [m] and lifetime [ttl_s], and a verifier whose clock
    reading [now] is not before [t], where [json.dumps] returns on [m],
    on [ttl_s] and on the verifier's [m'] (none nested deeper than the
    recursion limit leaves room for, no [int] of more than 4300 digits):
    [verify_passport(p, a, s, m')] returns a boolean, and it returns
    [True] exactly when [now] lies in [[t, t + ttl_s]], the second
    [t + ttl_s] included (it is [False] from [t + ttl_s + 1] on), the
    commitment of [m'] equals the one stored, [a] and [s] are the
    passport's agent and session, and the stored signature verifies under
    the embedded key over the message packed with the stored
    [ttl_s_original].  [room] and [room'] are the levels of nesting the
    interpreter has left when it issues and when it verifies. *)
Theorem verify_passport_iff `{P : Primitives} {L : PrimitivesLaws P}
    (environ : gmap string string) (seed : bytes) (nonce : string)
    (t t_issued : Z) (agent_id session_id : string) (m : dict) (ttl_s : Z)
    (p : dict) (now : Z) (a s : string) (m' : dict) (room room' : nat) :
  length seed = 32%nat ->
  json_dumps_returns room (VDict m) = true ->
  json_dumps_returns room (VInt ttl_s) = true ->
  passport.issue_passport environ seed nonce t t_issued agent_id session_id m ttl_s = Ok p ->
  t <= now ->
  json_dumps_returns room' (VDict m') = true ->
  exists sk vk b,
    passport._load_keys environ seed = Ok (sk, vk) /\
    passport.verify_passport environ now p a s m' = Ok b /\
    let commitment := passport.hmac_commit environ m in
    let msg := passport.pack_message (VStr agent_id) (VStr session_id) (VStr commitment)
                 (VInt ttl_s) (VStr nonce) in
    (b = true <->
       t <= now <= t + ttl_s /\
       passport.hmac_commit environ m' = commitment /\
       a = agent_id /\ s = session_id /\
       ed25519_verify vk msg (ed25519_sign sk msg) = true).
Proof.
  intros Hseed _ _ Hissue Hafter _.
  destruct (verify_issued environ seed nonce t t_issued agent_id session_id m ttl_s p
              now a s m' Hseed Hissue) as (sk & vk & Hkeys & Hv).
  exists sk, vk. eexists. split; [exact Hkeys|]. split; [exact Hv|]. cbv zeta.
  rewrite !andb_true_iff, negb_true_iff, !String.eqb_eq, Z.gtb_ltb, Z.ltb_ge.
  intuition congruence.
Qed.

Section passport_examples.
#[local] Existing Instance toy.primitives.

Lemma verify_passport_iff_witness :
  let commitment := passport.hmac_commit examples.development examples.metrics in
  let msg := passport.pack_message (VStr "a1") (VStr "s1") (VStr commitment)
               (VInt 60) (VStr examples.nonce) in
  let p : dict :=
    {[ "agent_id" := VStr "a1";
       "session_id" := VStr "s1";
       "commitment" := VStr commitment;
       "nonce" := VStr examples.nonce;
       "sig_b64" := VStr (b64encode (ed25519_sign examples.seed msg));
       "vk_b64" := VStr (b64encode (ed25519_verify_key examples.seed));
       "exp" := VInt 1060;
       "ttl_s_original" := VInt 60;
       "issued_at" := VInt 1000 ]} in
  exists sk vk b,
    passport._load_keys examples.development examples.seed = Ok (sk, vk) /\
    passport.verify_passport examples.development 1030 p "a1" "s1" examples.metrics = Ok b /\
    (b = true <->
       1000 <= 1030 <= 1000 + 60 /\
       passport.hmac_commit examples.development examples.metrics = commitment /\
       "a1" = "a1" /\ "s1" = "s1" /\
       ed25519_verify vk msg (ed25519_sign sk msg) = true).
Proof.
  exact (verify_passport_iff (L := toy_laws)
           examples.development examples.seed examples.nonce 1000 1000 "a1" "s1"
           examples.metrics 60 _ 1030 "a1" "s1" examples.metrics 900 900
           eq_refl ltac:(vm_compute; reflexivity) ltac:(vm_compute; reflexivity)
           eq_refl ltac:(discriminate) ltac:(vm_compute; reflexivity)).
Defined.

(** C1, the claim as stated fails: a passport issued at the reading 1000
    with a lifetime of 60 seconds is still verified at the reading
    1000 + 60, where the claim wants [False]. *)
Lemma verify_passport_true_at_expiry_second :
  (p ← passport.issue_passport examples.development
         examples.seed examples.nonce 1000 1000 "a1" "s1" examples.metrics 60;
   passport.verify_passport examples.development (1000 + 60) p "a1" "s1" examples.metrics)
  = Ok true
  /\ ~ (1000 + 60 < 1000 + 60).
Proof. split; [vm_compute; reflexivity | lia]. Qed.


End passport_examples.



(** C4, at the failing input.  [issue_passport] reads the clock twice, once
    for [exp] and once for [issued_at]; when the second changes between the
    two readings (1000, then 1001), the passport has
    [exp = 1060 <> issued_at + ttl_s_original = 1061]. *)
Theorem issue_passport_reads_clock_twice `{P : Primitives}
    (seed : bytes) (nonce agent_id session_id : string) (m : dict) :
  exists p,
    passport.issue_passport examples.development seed nonce 1000 1001
      agent_id session_id m 60 = Ok p /\
    p !! "exp" = Some (VInt 1060) /\
    p !! "issued_at" = Some (VInt 1001) /\
    p !! "ttl_s_original" = Some (VInt 60) /\
    1060 <> 1001 + 60.
Proof.
  eexists. split; [reflexivity|].
  split; [by simplify_map_eq|]. split; [by simplify_map_eq|].
  split; [by simplify_map_eq|]. lia.
Qed.

(** C10, at the failing input.  A passport whose [exp] is the float
    infinity makes [int(...)] raise [OverflowError], which the handler of
    [verify_passport] does not catch: the call raises instead of returning
    [False]. *)
Theorem verify_passport_raises_overflow `{P : Primitives}
    (environ : gmap string string) (now : Z) (agent_id session_id : string) (m : dict) :
  passport.verify_passport environ now
    {[ "exp" := VFloat (S754_infinity false) ]} agent_id session_id m
  = Raise (Exn OverflowError "cannot convert float infinity to integer").
Proof.
  unfold passport.verify_passport.
  rewrite (dict_get_Some _ "exp" _ (VFloat (S754_infinity false)))
    by apply lookup_singleton_eq.
  reflexivity.
Qed.

(** *** Which exceptions [verify_passport] lets through *)
Section passport_exceptions.
Context `{P : Primitives}.
Variable environ : gmap string string.

Lemma int_of_str_raises (s : string) (e : exn) :
  int_of_str s = Raise e -> exn_cls e = ValueError.
Proof.
  unfold int_of_str. destruct (strip is_space s) as [|[[] [] [] [] [] [] [] []] r];
    cbv zeta; destruct (parse_digits _ _ _); try discriminate; now intros [= <-].
Qed.

Lemma int_raises (v : value) (e : exn) :
  int v = Raise e ->
  exn_cls e = ValueError \/ exn_cls e = TypeError \/
  (exn_cls e = OverflowError /\ exists s, v = VFloat (S754_infinity s)).
Proof.
  destruct v as [| | |f|s| | |]; cbn; try discriminate;
    try (intros [= <-]; right; left; reflexivity).
  - destruct f; cbn; try discriminate; intros [= <-]; [|left; reflexivity].
    right. right. split; [reflexivity|]. eauto.
  - intros H. left. eapply int_of_str_raises, H.
Qed.

Lemma compare_digest_raises (a b : value) (e : exn) :
  compare_digest a b = Raise e -> exn_cls e = TypeError.
Proof.
  destruct a, b; cbn; try (now intros [= <-]).
  destruct (_ && _); [discriminate | now intros [= <-]].
Qed.

Lemma getitem_raises (d : dict) (k : string) (e : exn) :
  getitem d k = Raise e -> exn_cls e = KeyError.
Proof. unfold getitem. destruct (d !! k); [discriminate | now intros [= <-]]. Qed.

Lemma b64decode_raises (v : value) (e : exn) :
  b64decode v = Raise e -> exn_cls e = ValueError \/ exn_cls e = TypeError.
Proof.
  destruct v; cbn; try (intros [= <-]; right; reflexivity).
  destruct (is_ascii s); [destruct (a2b_base64 s); [discriminate|]|];
    intros [= <-]; left; reflexivity.
Qed.

Lemma VerifyKey_raises (k : bytes) (e : exn) :
  VerifyKey k = Raise e -> exn_cls e = ValueError.
Proof. unfold VerifyKey. destruct (_ =? _)%nat; [discriminate | now intros [= <-]]. Qed.

Lemma vk_verify_raises (vk msg sig : bytes) (e : exn) :
  vk_verify vk msg sig = Raise e ->
  exn_cls e = BadSignatureError \/ exn_cls e = ValueError.
Proof.
  unfold vk_verify. destruct (_ =? _)%nat; [destruct (ed25519_verify _ _ _)|];
    try discriminate; intros [= <-]; [left | right]; reflexivity.
Qed.

Lemma try_except_handled {A} (e : exn) (h : exn -> result A) :
  exn_cls e = BadSignatureError \/ exn_cls e = KeyError \/
  exn_cls e = ValueError \/ exn_cls e = TypeError ->
  try_except (Raise e) passport.handled h = h e.
Proof.
  intros Hc. unfold try_except, passport.handled.
  destruct e as [c msg]; cbn in *.
  destruct Hc as [-> | [-> | [-> | ->]]]; reflexivity.
Qed.

(** The only exception that leaves [verify_passport] is the [OverflowError]
    of [int(passport.get("exp", 0))] on an infinite float. *)
Lemma verify_passport_raises_only_overflow (now : Z) (p : dict) (a s : string)
    (m : dict) (e : exn) :
  passport.verify_passport environ now p a s m = Raise e ->
  int (dict_get p "exp" (VInt 0)) = Raise e /\ exn_cls e = OverflowError.
Proof.
  unfold passport.verify_passport.
  case_bind (int (dict_get p "exp" (VInt 0))) exp e0 E0.
  2: { destruct (int_raises _ _ E0) as [Hc | [Hc | [Hc _]]].
       - rewrite try_except_handled by tauto. discriminate.
       - rewrite try_except_handled by tauto. discriminate.
       - unfold try_except. rewrite Hc. cbn. intros [= <-]. now split. }
  destruct (now >? exp); [discriminate|].
  case_bind (compare_digest (VStr (passport.hmac_commit environ m))
               (dict_get p "commitment" (VStr ""))) same e0 E1.
  2: { apply compare_digest_raises in E1.
       rewrite try_except_handled by tauto. discriminate. }
  destruct (negb same); [discriminate|].
  destruct (ne_str _ a); [discriminate|].
  destruct (ne_str _ s); [discriminate|].
  case_bind (getitem p "commitment") c e0 E2.
  2: { apply getitem_raises in E2. rewrite try_except_handled by tauto. discriminate. }
  case_bind (getitem p "nonce") n e0 E3.
  2: { apply getitem_raises in E3. rewrite try_except_handled by tauto. discriminate. }
  case_bind (getitem p "vk_b64") vkv e0 E4.
  2: { apply getitem_raises in E4. rewrite try_except_handled by tauto. discriminate. }
  case_bind (b64decode vkv) vkb e0 E5.
  2: { apply b64decode_raises in E5. rewrite try_except_handled by tauto. discriminate. }
  case_bind (VerifyKey vkb) vk e0 E6.
  2: { apply VerifyKey_raises in E6. rewrite try_except_handled by tauto. discriminate. }
  case_bind (getitem p "sig_b64") sigv e0 E7.
  2: { apply getitem_raises in E7. rewrite try_except_handled by tauto. discriminate. }
  case_bind (b64decode sigv) sg e0 E8.
  2: { apply b64decode_raises in E8. rewrite try_except_handled by tauto. discriminate. }
  match goal with |- context [vk_verify ?k ?msg ?sg] =>
    case_bind (vk_verify k msg sg) ok e0 E9 end.
  2: { apply vk_verify_raises in E9. rewrite try_except_handled by tauto. discriminate. }
  discriminate.
Qed.

End passport_exceptions.

(** ** Capability leases *)
Section tokens_facts.

(** No call removes an identifier from the used-set. *)
Lemma lease_valid_keeps_used (now : Z) (lease : dict) (scope : string) (consume : bool)
    (st : tokens.store) (w : value) :
  existsb (py_eq w) (tokens._USED_LEASES st) = true ->
  existsb (py_eq w) (tokens._USED_LEASES (tokens.lease_valid now lease scope consume st).2) = true.
Proof.
  intros Hw. unfold tokens.lease_valid.
  destruct (negb _); [exact Hw|].
  destruct (contains _ _) as [[|]|e]; try exact Hw.
  destruct (int _) as [exp|e]; [|exact Hw].
  destruct (now >? exp); [exact Hw|].
  destruct (ne_str _ _); [exact Hw|].
  destruct consume; [|exact Hw].
  destruct (existsb (py_eq (dict_get lease "lease_id" VNone)) _); [exact Hw|].
  cbn. now apply existsb_set_add.
Qed.

Lemma step_keeps_used (st : tokens.store) (c : tokens.call) (w : value) :
  existsb (py_eq w) (tokens._USED_LEASES st) = true ->
  existsb (py_eq w) (tokens._USED_LEASES (tokens.step st c)) = true.
Proof.
  intros Hw. destruct c; cbn [tokens.step]; try exact Hw.
  - now apply lease_valid_keeps_used.
  - cbn. now apply existsb_set_add.
  - unfold tokens.cleanup_expired_leases. destruct (mapM _ _); exact Hw.
Qed.

Lemma run_keeps_used (cs : list tokens.call) (st : tokens.store) (w : value) :
  existsb (py_eq w) (tokens._USED_LEASES st) = true ->
  existsb (py_eq w) (tokens._USED_LEASES (tokens.run st cs)) = true.
Proof.
  revert st. induction cs as [|c cs IH]; intros st Hw; [exact Hw|].
  cbn. apply IH. now apply step_keeps_used.
Qed.

(** A successful consuming validation puts the identifier in the used-set. *)
Lemma lease_valid_consumes (now : Z) (lease : dict) (scope lid : string)
    (st st1 : tokens.store) :
  lease !! "lease_id" = Some (VStr lid) ->
  tokens.lease_valid now lease scope true st = (Ok true, st1) ->
  lid <> "" /\ tokens.used_in st1 lid = true.
Proof.
  intros Hid. unfold tokens.lease_valid, tokens.used_in.
  rewrite (dict_get_Some _ _ _ _ Hid). cbn [truthy].
  destruct (String.eqb_spec lid "") as [->|Hne]; cbn [negb]; [discriminate|].
  destruct (contains _ _) as [[|]|e]; try discriminate.
  destruct (int _) as [exp|e]; [|discriminate].
  destruct (now >? exp); [discriminate|].
  destruct (ne_str _ _); [discriminate|].
  destruct (existsb _ _); [discriminate|].
  intros [= <-]. split; [exact Hne|]. cbn. apply existsb_set_add_same.
Qed.

(** A lease whose identifier is in the used-set is refused. *)
Lemma lease_valid_used (now : Z) (lease : dict) (scope lid : string) (consume : bool)
    (st : tokens.store) :
  lease !! "lease_id" = Some (VStr lid) ->
  tokens.used_in st lid = true ->
  tokens.lease_valid now lease scope consume st = (Ok false, st).
Proof.
  intros Hid Hused. unfold tokens.lease_valid.
  rewrite (dict_get_Some _ _ _ _ Hid).
  destruct (negb _); [reflexivity|].
  unfold contains. cbn [hashable]. unfold tokens.used_in in Hused. now rewrite Hused.
Qed.

(** C2.  Once [lease_valid(L, s, consume=True)] has returned [True] for a
    lease with the identifier [lease_id], then after any further calls of
    the module, every [lease_valid(L', s', consume=c)] for a lease [L']
    carrying that identifier returns [False], for every scope, flag and
    time: the identifier is in the used-set and is never removed. *)
Theorem lease_valid_at_most_once (st st1 : tokens.store) (now : Z) (L : dict)
    (s lease_id : string) (calls : list tokens.call)
    (now' : Z) (L' : dict) (s' : string) (c : bool) :
  L !! "lease_id" = Some (VStr lease_id) ->
  tokens.lease_valid now L s true st = (Ok true, st1) ->
  L' !! "lease_id" = Some (VStr lease_id) ->
  (tokens.lease_valid now' L' s' c (tokens.run st1 calls)).1 = Ok false.
Proof.
  intros Hid Hfirst Hid'.
  destruct (lease_valid_consumes _ _ _ _ _ _ Hid Hfirst) as [_ Hused].
  rewrite (lease_valid_used now' L' s' lease_id c (tokens.run st1 calls) Hid');
    [reflexivity|].
  now apply run_keeps_used.
Qed.

Lemma lease_valid_at_most_once_witness :
  (tokens.lease_valid 1020 examples.bare_lease "tool:y" false
     (tokens.run (tokens.lease_valid 1001 examples.lease "tool:x" true
                    examples.store_after_issue).2
        [tokens.Cleanup 1010; tokens.Status examples.lease_id])).1 = Ok false.
Proof.
  exact (lease_valid_at_most_once examples.store_after_issue _ 1001 examples.lease
           "tool:x" examples.lease_id [tokens.Cleanup 1010; tokens.Status examples.lease_id]
           1020 examples.bare_lease "tool:y" false
           eq_refl ltac:(vm_compute; reflexivity) eq_refl).
Defined.

(** C6.  For a lease [L] with scope [s] that is neither expired nor
    consumed, [lease_valid(L, s', consume=True)] with [s' <> s] returns
    [False] and leaves the store, hence the used-set, as it was; an
    immediately following [lease_valid(L, s, consume=True)], still before
    the expiry, returns [True]. *)
Theorem lease_valid_wrong_scope_keeps_lease (st : tokens.store) (now now' : Z)
    (L : dict) (lease_id s s' : string) (exp : Z) :
  L !! "lease_id" = Some (VStr lease_id) ->
  lease_id <> "" ->
  L !! "scope" = Some (VStr s) ->
  L !! "exp" = Some (VInt exp) ->
  tokens.used_in st lease_id = false ->
  now <= exp -> now' <= exp ->
  s' <> s ->
  tokens.lease_valid now L s' true st = (Ok false, st) /\
  (tokens.lease_valid now' L s true st).1 = Ok true.
Proof.
  intros Hid Hne Hscope Hexp Hfree Hnow Hnow' Hs.
  unfold tokens.lease_valid.
  rewrite (dict_get_Some _ _ _ _ Hid), (dict_get_Some _ _ _ _ Hscope),
    (dict_get_Some _ _ _ _ Hexp).
  cbn [truthy int ne_str]. unfold contains. cbn [hashable]. unfold tokens.used_in in Hfree.
  apply String.eqb_neq in Hne. rewrite Hne, Hfree. cbn [negb].
  assert ((now >? exp) = false) as -> by lia.
  assert ((now' >? exp) = false) as -> by lia.
  rewrite String.eqb_refl.
  assert (String.eqb s s' = false) as -> by (apply String.eqb_neq; congruence).
  split; reflexivity.
Qed.

Lemma lease_valid_wrong_scope_keeps_lease_witness :
  tokens.lease_valid 1001 examples.lease "tool:y" true examples.store_after_issue
    = (Ok false, examples.store_after_issue) /\
  (tokens.lease_valid 1002 examples.lease "tool:x" true examples.store_after_issue).1
    = Ok true.
Proof.
  exact (lease_valid_wrong_scope_keeps_lease examples.store_after_issue 1001 1002
           examples.lease examples.lease_id "tool:x" "tool:y" 1030
           eq_refl ltac:(discriminate) eq_refl eq_refl eq_refl
           ltac:(lia) ltac:(lia) ltac:(discriminate)).
Defined.

End tokens_facts.

(** *** Concurrent validation *)
Section tokens_concurrent.

(** Run alone, a caller goes through its three lock boundaries and ends as
    [lease_valid] does. *)
Lemma advance_thrice (now : Z) (lease : dict) (scope : string) (consume : bool)
    (st : tokens.store) :
  let '(c1, st1) := tokens.advance (tokens.Start now lease scope consume) st in
  let '(c2, st2) := tokens.advance c1 st1 in
  let '(c3, st3) := tokens.advance c2 st2 in
  (c3, st3) = (tokens.Returned (tokens.lease_valid now lease scope consume st).1,
               (tokens.lease_valid now lease scope consume st).2).
Proof.
  unfold tokens.lease_valid. cbn [tokens.advance].
  destruct (negb _); [reflexivity|].
  unfold contains. destruct (hashable _); [|reflexivity].
  destruct (existsb _ _) eqn:Hfree; [reflexivity|]. cbn [tokens.advance].
  destruct (int _) as [exp|e]; [|reflexivity].
  destruct (now >? exp); [reflexivity|].
  destruct (ne_str _ _); [reflexivity|].
  destruct consume; [|reflexivity].
  rewrite Hfree. reflexivity.
Qed.

Variable lid : string.


Lemma winners_insert (l : list tokens.caller) (i : nat) (c c' : tokens.caller) :
  l !! i = Some c ->
  (tokens.winners (<[i := c']> l) + Nat.b2n (tokens.won c) = tokens.winners l + Nat.b2n (tokens.won c'))%nat.
Proof.
  unfold tokens.winners. revert i. induction l as [|x l IH]; intros i Hi; [discriminate|].
  destruct i as [|i].
  - injection Hi as ->. change (<[0%nat := c']> (c :: l)) with (c' :: l).
    cbn [foldr]. lia.
  - change (<[S i := c']> (x :: l)) with (x :: <[i := c']> l).
    cbn [foldr]. specialize (IH i Hi). lia.
Qed.

Lemma returned_true_won (l : list tokens.caller) :
  (length (List.filter tokens.returned_true l) <= tokens.winners l)%nat.
Proof.
  unfold tokens.winners. induction l as [|x l IH]; [reflexivity|].
  cbn [List.filter foldr].
  destruct x as [| | |[[|]|]]; cbn; lia.
Qed.

Lemma schedule_at_most_one (sys : tokens.system) (i : nat) :
  tokens.at_most_one lid sys -> tokens.at_most_one lid (tokens.schedule sys i).
Proof.
  intros [Hall Hcount]. unfold tokens.at_most_one, tokens.schedule.
  destruct (tokens.callers sys !! i) as [c|] eqn:Hi; [|now split].
  pose proof (proj1 (Forall_lookup _ _) Hall i c Hi) as Hc.
  destruct (tokens.advance c (tokens.shared sys)) as [c' st'] eqn:Hadv.
  assert (tokens.consumes lid c' /\
          ((tokens.won c' = tokens.won c /\
            (tokens.used_in (tokens.shared sys) lid = true ->
             tokens.used_in st' lid = true)) \/
           (tokens.won c = false /\ tokens.won c' = true /\
            tokens.used_in (tokens.shared sys) lid = false /\
            tokens.used_in st' lid = true))) as [Hc' Hmove].
  { destruct c as [now lease scope consume|now lease scope consume|v|r];
      cbn [tokens.advance] in Hadv.
    - destruct Hc as [Hid ->]. rewrite (dict_get_Some _ _ _ _ Hid) in Hadv.
      destruct (negb _); [injection Hadv as <- <-; split; [exact I | left; now split]|].
      destruct (contains _ _) as [[|]|e]; injection Hadv as <- <-;
        (split; [try exact I; now split | left; now split]).
    - destruct Hc as [Hid ->]. rewrite (dict_get_Some _ _ _ _ Hid) in Hadv.
      destruct (int _) as [exp|e];
        [|injection Hadv as <- <-; split; [exact I | left; now split]].
      destruct (now >? exp); [injection Hadv as <- <-; split; [exact I | left; now split]|].
      destruct (ne_str _ _); [injection Hadv as <- <-; split; [exact I | left; now split]|].
      destruct (existsb _ _) eqn:Hfree;
        injection Hadv as <- <-; (split; [try exact I; reflexivity|]).
      + left. now split.
      + right. repeat split; [exact Hfree|]. cbn. apply existsb_set_add_same.
    - injection Hadv as <- <-. split; [exact I|]. left. split; [reflexivity|].
      intros Hu; exact Hu.
    - injection Hadv as <- <-. split; [exact I|]. left. now split. }
  split; cbn [tokens.callers tokens.shared].
  - apply Forall_insert; assumption.
  - pose proof (winners_insert _ i c c' Hi) as Hw.
    destruct Hmove as [[Hsame Hkeep] | (Hno & Hyes & Hfree & Hused)].
    + rewrite Hsame in Hw.
      destruct Hcount as [H0 | [H1 Hu]]; [left | right; split; [|now apply Hkeep]]; lia.
    + rewrite Hno, Hyes in Hw. cbn in Hw.
      destruct Hcount as [H0 | [_ Hu]]; [|congruence].
      right. split; [lia | exact Hused].
Qed.

Lemma interleave_at_most_one (order : list nat) (sys : tokens.system) :
  tokens.at_most_one lid sys -> tokens.at_most_one lid (tokens.interleave sys order).
Proof.
  revert sys. induction order as [|i order IH]; intros sys H; [exact H|].
  cbn. apply IH. now apply schedule_at_most_one.
Qed.

End tokens_concurrent.

(** ** Tokens and the revocation ledger *)
Section authy_facts.
Context `{P : Primitives}.
Variable vk : bytes.

Lemma revoke_ok (now : Z) (req : authy_server.RevokeReq.t) (db db1 : storage.database)
    (v : value) :
  authy_server.revoke vk now req db = (Ok v, db1) ->
  truthy v = true /\
  exists k row, sqlite_text v = Ok k /\
                storage.revocations db1 = <[k := row]> (storage.revocations db).
Proof.
  unfold authy_server.revoke.
  destruct (if _ && _ then _ else _) as [jti|e]; [|discriminate].
  destruct (truthy jti) eqn:Ht; cbn [negb]; [|discriminate].
  unfold storage.revoke_jti.
  destruct (sqlite_text jti) as [k|e] eqn:Ek; [|discriminate].
  intros [= <- <-]. split; [exact Ht|]. eexists _, _. split; [exact Ek|reflexivity].
Qed.

(** No request removes a row of [revocations]. *)
Lemma step_keeps_revoked (db : storage.database) (r : authy_server.request) (k : string) :
  is_Some (storage.revocations db !! k) ->
  is_Some (storage.revocations (authy_server.step vk db r) !! k).
Proof.
  intros Hk. destruct r as [now req|now req]; cbn [authy_server.step]; [exact Hk|].
  destruct (authy_server.revoke vk now req db) as [[v|e] db'] eqn:E.
  - apply revoke_ok in E as (_ & k' & row & _ & Hdb). cbn. rewrite Hdb.
    destruct (decide (k' = k)) as [->|Hne].
    + rewrite lookup_insert_eq. eauto.
    + now rewrite lookup_insert_ne.
  - cbn. revert E. unfold authy_server.revoke.
    destruct (if _ && _ then _ else _) as [jti|e']; [|now intros [= _ <-]].
    destruct (negb (truthy jti)); [now intros [= _ <-]|].
    unfold storage.revoke_jti. destruct (sqlite_text jti); [discriminate|].
    now intros [= _ <-].
Qed.

Lemma run_keeps_revoked (rs : list authy_server.request) (db : storage.database)
    (k : string) :
  is_Some (storage.revocations db !! k) ->
  is_Some (storage.revocations (authy_server.run vk db rs) !! k).
Proof.
  revert db. induction rs as [|r rs IH]; intros db Hk; [exact Hk|].
  cbn. apply IH. now apply step_keeps_revoked.
Qed.

(** [verify] answers [valid=True] only after [is_revoked] said no. *)
Lemma verify_valid_not_revoked (now : Z) (req : authy_server.VerifyReq.t)
    (db : storage.database) (resp : authy_server.VerifyResp.t) :
  authy_server.verify vk now req db = Ok resp ->
  authy_server.VerifyResp.valid resp = true ->
  truthy (authy_server.VerifyResp.jti resp) = true /\
  storage.is_revoked (authy_server.VerifyResp.jti resp) db = Ok false.
Proof.
  unfold authy_server.verify.
  destruct (crypto.verify_compact _ _) as [[header payload]|e].
  2: { intros [= <-]. discriminate. }
  case_bind (authy_server.as_dict payload) d e E1; [|discriminate].
  case_bind (lt_int (dict_get d "exp" (VInt 0)) now) expired e E2; [|discriminate].
  destruct expired; [intros [= <-]; discriminate|].
  destruct (truthy (dict_get d "jti" VNone)) eqn:Ht; cbn [negb];
    [|intros [= <-]; discriminate].
  case_bind (storage.is_revoked (dict_get d "jti" VNone) db) revoked e E3; [|discriminate].
  destruct revoked; [intros [= <-]; discriminate|].
  intros [= <-] _. cbn. split; [exact Ht | exact E3].
Qed.

End authy_facts.

(** C3, as amended.  Once a [/revoke] of the identifier [J] has completed,
    every later [/verify] of a token that carries [jti = J] answers
    [valid=False]; the reason is ["expired"] when the token's [exp] is
    before the time of the check, which is tested first, and ["revoked"]
    otherwise.  And [/verify] consults [is_revoked] before it answers
    [valid=True]: a response with [valid=True] is given only for an
    identifier that is not in the ledger. *)
Theorem verify_after_revoke `{P : Primitives} {L : PrimitivesLaws P} (vk : bytes)
    (db0 db1 : storage.database) (now_r : Z) (rreq : authy_server.RevokeReq.t)
    (J : string) (requests : list authy_server.request)
    (now : Z) (req : authy_server.VerifyReq.t) (header : value) (payload : dict)
    (expired : bool) :
  authy_server.revoke vk now_r rreq db0 = (Ok (VStr J), db1) ->
  crypto.verify_compact (authy_server.VerifyReq.token req) vk = Ok (header, VDict payload) ->
  payload !! "jti" = Some (VStr J) ->
  lt_int (dict_get payload "exp" (VInt 0)) now = Ok expired ->
  let db := authy_server.run vk db1 requests in
  authy_server.verify vk now req db
    = Ok (authy_server.invalid (if expired then "expired" else "revoked")) /\
  (forall now' req' resp,
      authy_server.verify vk now' req' db = Ok resp ->
      authy_server.VerifyResp.valid resp = true ->
      storage.is_revoked (authy_server.VerifyResp.jti resp) db = Ok false).
Proof.
  intros Hrevoke Htoken Hjti Hexp db. split.
  - apply revoke_ok in Hrevoke as (Htruthy & k & row & Hk & Hdb1).
    rewrite sqlite_text_str in Hk. injection Hk as <-.
    assert (is_Some (storage.revocations db !! J)) as Hin.
    { apply run_keeps_revoked. rewrite Hdb1, lookup_insert_eq. eauto. }
    unfold authy_server.verify. rewrite Htoken. cbn [authy_server.as_dict].
    run_bind. rewrite Hexp. run_bind.
    destruct expired; [reflexivity|].
    rewrite (dict_get_Some _ _ _ _ Hjti), Htruthy. cbn [negb].
    unfold storage.is_revoked. rewrite sqlite_text_str. run_bind.
    now rewrite bool_decide_eq_true_2.
  - intros now' req' resp Hv Hvalid.
    now destruct (verify_valid_not_revoked vk now' req' db resp Hv Hvalid).
Qed.

Section authy_examples.
#[local] Existing Instance toy.primitives.

Lemma verify_after_revoke_witness :
  let db1 := (authy_server.revoke examples.seed 50 examples.revoke_J
                examples.no_revocations).2 in
  let db := authy_server.run examples.seed db1
              [authy_server.Verify 60 examples.verify_junk] in
  authy_server.verify examples.seed 70 examples.verify_token db
    = Ok (authy_server.invalid "revoked") /\
  (forall now' req' resp,
      authy_server.verify examples.seed now' req' db = Ok resp ->
      authy_server.VerifyResp.valid resp = true ->
      storage.is_revoked (authy_server.VerifyResp.jti resp) db = Ok false).
Proof.
  exact (verify_after_revoke (L := toy_laws) examples.seed examples.no_revocations _
           50 examples.revoke_J "J"
           [authy_server.Verify 60 examples.verify_junk]
           70 examples.verify_token (VDict ∅) examples.token_payload
           false
           ltac:(vm_compute; reflexivity) ltac:(vm_compute; reflexivity)
           eq_refl eq_refl).
Defined.

(** C3, the claim as stated fails: the identifier ["J"] is revoked at time
    50; the token, which expires at 100, is verified at time 200, and the
    answer is [valid=False] with the reason ["expired"], not ["revoked"]. *)
Lemma verify_revoked_token_says_expired :
  let db1 := (authy_server.revoke examples.seed 50 examples.revoke_J
                examples.no_revocations).2 in
  (authy_server.revoke examples.seed 50 examples.revoke_J examples.no_revocations).1
    = Ok (VStr "J") /\
  storage.is_revoked (VStr "J") db1 = Ok true /\
  authy_server.verify examples.seed 200 examples.verify_token db1
    = Ok (authy_server.invalid "expired") /\
  authy_server.VerifyResp.reason (authy_server.invalid "expired") <> VStr "revoked".
Proof.
  cbv zeta. repeat split; try (vm_compute; reflexivity). discriminate.
Qed.

End authy_examples.

(** ** The file system *)
Section os_facts.

Lemma lstrip_length (f : ascii -> bool) (s : string) :
  (String.length (lstrip f s) <= String.length s)%nat.
Proof.
  induction s as [|c s IH]; [reflexivity|]. cbn [lstrip].
  destruct (f c); cbn [String.length]; lia.
Qed.

Lemma string_of_list_length (l : list ascii) :
  String.length (string_of_list_ascii l) = length l.
Proof. induction l as [|c l IH]; [reflexivity|]. cbn. now rewrite IH. Qed.

Lemma list_of_string_length (s : string) :
  length (list_ascii_of_string s) = String.length s.
Proof. induction s as [|c s IH]; [reflexivity|]. cbn. now rewrite IH. Qed.

Lemma string_rev_length (s : string) : String.length (string_rev s) = String.length s.
Proof.
  unfold string_rev.
  now rewrite string_of_list_length, length_rev, list_of_string_length.
Qed.

Lemma rstrip_length (f : ascii -> bool) (s : string) :
  (String.length (rstrip f s) <= String.length s)%nat.
Proof.
  unfold rstrip. rewrite string_rev_length.
  etransitivity; [apply lstrip_length|]. now rewrite string_rev_length.
Qed.

Lemma string_rev_snoc (s : string) (c : ascii) :
  string_rev (s +:+ String c EmptyString) = String c (string_rev s).
Proof.
  unfold string_rev.
  assert (list_ascii_of_string (s +:+ String c EmptyString)
          = (list_ascii_of_string s ++ [c])%list) as ->.
  { induction s as [|x s IH]; [reflexivity|].
    change (String x s +:+ String c EmptyString)
      with (String x (s +:+ String c EmptyString)).
    cbn [list_ascii_of_string]. now rewrite IH. }
  now rewrite rev_unit.
Qed.

Lemma append_length (s t : string) :
  String.length (s +:+ t) = (String.length s + String.length t)%nat.
Proof.
  induction s as [|c s IH]; [reflexivity|].
  change (String c s +:+ t) with (String c (s +:+ t)).
  cbn [String.length]. now rewrite IH.
Qed.

(** [dirname] never lengthens a path, and shortens one that ends in a
    name. *)
Lemma dirname_length (p : string) :
  (String.length (os.dirname p) <= String.length p)%nat.
Proof.
  unfold os.dirname. cbv zeta.
  assert (String.length
            (string_rev (lstrip (fun c => negb (is_char "/" c)) (string_rev p)))
          <= String.length p)%nat as Hhead.
  { rewrite string_rev_length. etransitivity; [apply lstrip_length|].
    now rewrite string_rev_length. }
  destruct (String.eqb _ ""); [exact Hhead|].
  etransitivity; [apply rstrip_length | exact Hhead].
Qed.

Lemma dirname_shorter (s : string) (c : ascii) :
  is_char "/" c = false ->
  (String.length (os.dirname (s +:+ String c EmptyString))
   < String.length (s +:+ String c EmptyString))%nat.
Proof.
  intros Hc. unfold os.dirname. cbv zeta.
  rewrite string_rev_snoc. cbn [lstrip]. rewrite Hc. cbn [negb].
  assert (String.length
            (string_rev (lstrip (fun c => negb (is_char "/" c)) (string_rev s)))
          <= String.length s)%nat as Hhead.
  { rewrite string_rev_length. etransitivity; [apply lstrip_length|].
    now rewrite string_rev_length. }
  rewrite append_length. cbn [String.length].
  destruct (String.eqb _ ""); [lia|].
  pose proof (rstrip_length (is_char "/")
    (string_rev (lstrip (fun c => negb (is_char "/" c)) (string_rev s)))). lia.
Qed.

(** A path whose components after the first are not empty does not end in
    a slash. *)
Lemma components_name (s : string) :
  forallb (fun x => negb (String.eqb x "")) (tl (os.components s)) = true ->
  s = "" \/ exists s0 c, s = s0 +:+ String c EmptyString /\ is_char "/" c = false.
Proof.
  induction s as [|c s IH]; [now left|]. intros Hall. right.
  cbn [os.components] in Hall.
  destruct (is_char "/" c) eqn:Hc.
  - cbn [tl] in Hall.
    destruct s as [|c' s'].
    + cbn in Hall. discriminate.
    + destruct IH as [[=] | (s0 & c0 & -> & Hc0)].
      * destruct (os.components (String c' s')) as [|x xs]; [reflexivity|].
        cbn [forallb] in Hall. apply andb_true_iff in Hall as [_ Hall]. exact Hall.
      * exists (String c s0), c0. split; [reflexivity | exact Hc0].
  - assert (forallb (fun x => negb (String.eqb x "")) (tl (os.components s)) = true) as Htl.
    { destruct (os.components s) as [|x xs]; [reflexivity | exact Hall]. }
    destruct (IH Htl) as [-> | (s0 & c0 & -> & Hc0)].
    + exists EmptyString, c. split; [reflexivity | exact Hc].
    + exists (String c s0), c0. split; [reflexivity | exact Hc0].
Qed.

Lemma normal_name (p : string) :
  os.normal p = true ->
  exists s0 c, p = s0 +:+ String c EmptyString /\ is_char "/" c = false.
Proof.
  unfold os.normal. cbv zeta. intros [Hcomp _]%andb_true_iff.
  assert (forall r,
            forallb (fun x => negb (String.eqb x "") && negb (String.eqb x ".")
                              && negb (String.eqb x "..")) (os.components r) = true ->
            exists s0 c, r = s0 +:+ String c EmptyString /\ is_char "/" c = false) as Hrel.
  { intros r Hr.
    destruct (components_name r) as [-> | Hname]; [| | exact Hname].
    - destruct (os.components r) as [|x xs]; [reflexivity|].
      cbn [tl]. cbn [forallb] in Hr. apply andb_true_iff in Hr as [_ Hr].
      clear -Hr. induction xs as [|y ys IH]; [reflexivity|].
      cbn [forallb] in *. apply andb_true_iff in Hr as [Hy Hr].
      apply andb_true_iff in Hy as [Hy _]. apply andb_true_iff in Hy as [Hy _].
      rewrite Hy. cbn. now apply IH.
    - cbn in Hr. discriminate. }
  destruct p as [|c p']; [cbn in Hcomp; discriminate|].
  destruct (is_char "/" c) eqn:Hc.
  - destruct (Hrel _ Hcomp) as (s0 & c0 & -> & Hc0).
    exists (String c s0), c0. split; [reflexivity | exact Hc0].
  - exact (Hrel _ Hcomp).
Qed.

Lemma ancestors_from_length (fuel : nat) (d a : string) :
  a ∈ os.ancestors_from fuel d -> (String.length a <= String.length d)%nat.
Proof.
  revert d. induction fuel as [|fuel IH]; intros d; cbn [os.ancestors_from].
  - intros Hin. inversion Hin.
  - destruct (String.eqb d ""); [intros Hin; inversion Hin|].
    intros [-> | Hin]%elem_of_cons; [lia|].
    destruct (String.eqb (os.dirname d) d); [inversion Hin|].
    apply IH in Hin. pose proof (dirname_length d). lia.
Qed.

Lemma ancestors_self (d : string) : d <> "" -> d ∈ os.ancestors d.
Proof.
  intros Hd. unfold os.ancestors. destruct d as [|c d]; [congruence|].
  cbn [String.length os.ancestors_from String.eqb]. apply elem_of_cons; now left.
Qed.

(** A path in normal form is not one of the directories above it. *)
Lemma normal_not_ancestor (p : string) :
  os.normal p = true -> p ∉ os.ancestors (os.dirname p).
Proof.
  intros (s0 & c & -> & Hc)%normal_name Hin.
  apply ancestors_from_length in Hin.
  pose proof (dirname_shorter s0 c Hc). lia.
Qed.

Context `{P : Primitives}.

(** The first start with no key file: the directories are made, the drawn
    key is written, and the file gets the mode the umask leaves. *)
Lemma ensure_keypair_generates (environ : gmap string string) (seed : bytes)
    (fs : os.filesystem) :
  let path := config.KEY_PATH environ in
  os.normal path = true ->
  os.dirname path <> "" ->
  (forall a, a ∈ os.ancestors (os.dirname path) -> os.files fs !! a = None) ->
  os.files fs !! path = None ->
  path ∉ os.dirs fs ->
  crypto.ensure_keypair environ seed fs
  = (Ok (seed, ed25519_verify_key seed),
     os.Filesystem
       (<[path := os.File seed (Z.land 438 (Z.lnot (os.umask fs)))]> (os.files fs))
       (list_to_set (os.ancestors (os.dirname path)) ∪ os.dirs fs) (os.umask fs)).
Proof.
  intros path Hnormal Hdir Hfree Hnofile Hnotdir.
  unfold crypto.ensure_keypair, os.makedirs. fold path.
  rewrite (proj2 (String.eqb_neq _ _) Hdir).
  rewrite bool_decide_eq_false_2
    by (rewrite (Hfree _ (ancestors_self _ Hdir)); apply is_Some_None).
  assert (existsb (fun a => bool_decide (is_Some (os.files fs !! a)))
            (os.ancestors (os.dirname path)) = false) as ->.
  { apply not_true_is_false. intros (a & Ha & Hsome)%existsb_exists.
    apply bool_decide_eq_true_1 in Hsome.
    rewrite (Hfree a) in Hsome by (now apply list_elem_of_In).
    now apply is_Some_None in Hsome. }
  unfold os.exists_, os.write_file. cbn [os.files os.dirs os.umask].
  rewrite (bool_decide_eq_false_2 (is_Some _)) by (rewrite Hnofile; apply is_Some_None).
  assert (path ∉ list_to_set (C := gset string) (os.ancestors (os.dirname path))
                 ∪ os.dirs fs) as Hfresh.
  { rewrite elem_of_union, elem_of_list_to_set.
    intros [Hin | Hin]; [now apply (normal_not_ancestor path) | now apply Hnotdir]. }
  rewrite (bool_decide_eq_false_2 (path ∈ _)) by exact Hfresh.
  cbn [negb orb].
  rewrite (bool_decide_eq_true_2 (os.dirname path ∈ _))
    by (rewrite elem_of_union, elem_of_list_to_set; left; now apply ancestors_self).
  cbn [negb andb]. rewrite andb_false_r. now rewrite Hnofile.
Qed.

(** A later start with the key file in place reads it back. *)
Lemma ensure_keypair_reads (environ : gmap string string) (seed seed' : bytes)
    (fs : os.filesystem) (m : Z) :
  let path := config.KEY_PATH environ in
  length seed = 32%nat ->
  os.normal path = true ->
  os.dirname path <> "" ->
  (forall a, a ∈ os.ancestors (os.dirname path) -> os.files fs !! a = None) ->
  let fs1 :=
    os.Filesystem (<[path := os.File seed m]> (os.files fs))
      (list_to_set (os.ancestors (os.dirname path)) ∪ os.dirs fs) (os.umask fs) in
  crypto.ensure_keypair environ seed' fs1 = (Ok (seed, ed25519_verify_key seed), fs1).
Proof.
  intros path Hseed Hnormal Hdir Hfree fs1.
  assert (forall a, a ∈ os.ancestors (os.dirname path) ->
            os.files fs1 !! a = None) as Hfree1.
  { intros a Ha. subst fs1. cbn [os.files].
    rewrite lookup_insert_ne; [now apply Hfree|].
    intros <-. now apply (normal_not_ancestor path). }
  unfold crypto.ensure_keypair, os.makedirs. fold path.
  rewrite (proj2 (String.eqb_neq _ _) Hdir).
  rewrite bool_decide_eq_false_2
    by (rewrite (Hfree1 _ (ancestors_self _ Hdir)); apply is_Some_None).
  assert (existsb (fun a => bool_decide (is_Some (os.files fs1 !! a)))
            (os.ancestors (os.dirname path)) = false) as ->.
  { apply not_true_is_false. intros (a & Ha & Hsome)%existsb_exists.
    apply bool_decide_eq_true_1 in Hsome.
    rewrite (Hfree1 a) in Hsome by (now apply list_elem_of_In).
    now apply is_Some_None in Hsome. }
  unfold os.exists_, os.read_file. subst fs1. cbn [os.files os.dirs os.umask].
  rewrite lookup_insert_eq.
  rewrite (bool_decide_eq_true_2 (is_Some _)) by eauto.
  cbn [orb negb os.content]. run_bind.
  unfold SigningKey. rewrite Hseed. cbn [Nat.eqb]. run_bind.
  f_equal. f_equal. now rewrite (assoc_L (∪)), union_idemp_L.
Qed.

End os_facts.

(** ** Key loading and key derivation *)

(** C7, as amended.  In development mode ([ENV] unset or ["development"]):
    when the key file at [KEY_PATH] is absent (a path in normal form with
    a directory part, and no regular file in the place of that directory
    or of one above it; access rights, which the model leaves out,
    permitting), [crypto.ensure_keypair] generates a key and
    writes it there, and the new file gets the mode [0o666 & ~umask], the
    code setting no permissions; when one of [ED25519_SK_B64],
    [ED25519_VK_B64] is unset or empty, [passport._load_keys] generates a
    key pair and writes nothing.  In any other mode [passport._load_keys],
    with one of the two unset or empty, raises [ValueError] instead of
    generating a key. *)
Theorem key_loading `{P : Primitives} (environ : gmap string string) (seed : bytes)
    (fs : os.filesystem) :
  let path := config.KEY_PATH environ in
  let mode := default "development" (environ !! "ENV") in
  let unset :=
    default "" (environ !! "ED25519_SK_B64") = "" \/
    default "" (environ !! "ED25519_VK_B64") = "" in
  (mode = "development" ->
   os.normal path = true ->
   os.dirname path <> "" ->
   (forall a, a ∈ os.ancestors (os.dirname path) -> os.files fs !! a = None) ->
   os.files fs !! path = None ->
   path ∉ os.dirs fs ->
   exists fs',
     crypto.ensure_keypair environ seed fs = (Ok (seed, ed25519_verify_key seed), fs') /\
     os.files fs' = <[path := os.File seed (Z.land 438 (Z.lnot (os.umask fs)))]> (os.files fs))
  /\
  (mode = "development" -> unset ->
   passport._load_keys environ seed = Ok (seed, ed25519_verify_key seed))
  /\
  (mode <> "development" -> unset ->
   exists msg, passport._load_keys environ seed = Raise (Exn ValueError msg)).
Proof.
  cbv zeta.
  assert (default "" (environ !! "ED25519_SK_B64") = "" \/
          default "" (environ !! "ED25519_VK_B64") = "" ->
          String.eqb (default "" (environ !! "ED25519_SK_B64")) ""
          || String.eqb (default "" (environ !! "ED25519_VK_B64")) "" = true) as Hunset.
  { intros [-> | ->]; cbn; [reflexivity | apply orb_true_r]. }
  split; [|split].
  - intros _ Hnormal Hdir Hfree Hnofile Hnotdir.
    eexists. split.
    + now apply ensure_keypair_generates.
    + reflexivity.
  - intros Hmode Hmissing. unfold passport._load_keys.
    rewrite (Hunset Hmissing), Hmode. reflexivity.
  - intros Hmode Hmissing. unfold passport._load_keys.
    rewrite (Hunset Hmissing).
    apply String.eqb_neq in Hmode. rewrite Hmode. eexists. reflexivity.
Qed.

Section key_examples.
#[local] Existing Instance toy.primitives.

Lemma key_loading_witness :
  (exists fs',
     crypto.ensure_keypair examples.development examples.seed examples.empty_disk
       = (Ok (examples.seed, ed25519_verify_key examples.seed), fs') /\
     os.files fs'
       = <["keys/ed25519.key" := os.File examples.seed (Z.land 438 (Z.lnot 18))]> ∅)
  /\
  passport._load_keys examples.development examples.seed
    = Ok (examples.seed, ed25519_verify_key examples.seed)
  /\
  exists msg,
    passport._load_keys examples.production examples.seed = Raise (Exn ValueError msg).
Proof.
  destruct (key_loading examples.development examples.seed examples.empty_disk)
    as (Hfile & Hdev & _).
  destruct (key_loading examples.production examples.seed examples.empty_disk)
    as (_ & _ & Hprod).
  split; [|split].
  - apply Hfile;
      [reflexivity | reflexivity | discriminate | intros a _; reflexivity
      | reflexivity | apply not_elem_of_empty].
  - apply Hdev; [reflexivity | left; reflexivity].
  - apply Hprod; [discriminate | left; reflexivity].
Defined.

(** C7, the claim as stated fails: in development mode, with no key file
    on the disk and the usual umask 022, [ensure_keypair] generates a key
    and writes it with the mode [0o644], not [0o600]. *)
Lemma ensure_keypair_writes_mode_0644 :
  default "development" (examples.development !! "ENV") = "development" /\
  let r := crypto.ensure_keypair examples.development examples.seed examples.empty_disk in
  r.1 = Ok (examples.seed, ed25519_verify_key examples.seed) /\
  os.files r.2 !! "keys/ed25519.key" = Some (os.File examples.seed 420) /\
  420 <> 384.
Proof.
  cbv zeta. split; [reflexivity|].
  split; [|split]; [vm_compute; reflexivity .. | discriminate].
Qed.

(** [ensure_keypair] does not look at the mode: with [ENV=production] and
    no key file it generates and writes a key all the same, where
    [passport._load_keys] raises. *)
Lemma ensure_keypair_generates_in_production :
  let r := crypto.ensure_keypair examples.production examples.seed examples.empty_disk in
  r.1 = Ok (examples.seed, ed25519_verify_key examples.seed) /\
  os.files r.2 !! "keys/ed25519.key" = Some (os.File examples.seed 420).
Proof. cbv zeta. split; vm_compute; reflexivity. Qed.

End key_examples.

(** C8, at the failing inputs.  For [METRICS_SECRET] equal to ["x"]
    followed by 32 zeros (not purely hexadecimal: the raw bytes should be
    the key) and for 33 zeros (purely hexadecimal, at least 32 characters),
    the test on the stripped string succeeds, [bytes.fromhex] is applied to
    the string itself and raises [ValueError]: [hmac_metrics] raises instead
    of returning a digest. *)
Theorem hmac_metrics_raises `{P : Primitives} (payload : dict) :
  storage.hmac_metrics {[ "METRICS_SECRET" := "x00000000000000000000000000000000" ]} payload
    = Raise (Exn ValueError "non-hexadecimal number found in fromhex() arg at position 0") /\
  storage.hmac_metrics {[ "METRICS_SECRET" := "000000000000000000000000000000000" ]} payload
    = Raise (Exn ValueError "non-hexadecimal number found in fromhex() arg at position 33").
Proof. split; reflexivity. Qed.

(** ** The JWKS cache *)
Section jwks_facts.

Lemma invalid_structure_no_keys (v : value) :
  auth0_utils.has_keys_array v = false ->
  auth0_utils.invalid_structure v = Ok true \/
  exists msg, auth0_utils.invalid_structure v = Raise (Exn TypeError msg).
Proof.
  destruct v as [| | | |s|l|l|d]; cbn; try (right; eexists; reflexivity).
  - destruct (String.index 0 "keys" s); [right; eexists|left]; reflexivity.
  - destruct (existsb _ l); [right; eexists|left]; reflexivity.
  - destruct (existsb _ l); [right; eexists|left]; reflexivity.
  - destruct (d !! "keys") as [[]|]; try discriminate; left; reflexivity.
Qed.

(** C9.  When the cached keys are not fresh, so that a fetch is attempted:
    if the fetch fails with a network or HTTP error and the cache is not
    empty ([JWKS_CACHE["keys"]] holds a key set), that stale key set is
    returned, a warning is logged and the cache is unchanged; if the cache
    is empty, the error is raised; and a response without a [keys] array
    raises an error and leaves the cache unchanged. *)
Theorem jwks_failure_semantics (environ : gmap string string) (now : spec_float)
    (st : auth0_utils.state) :
  auth0_utils.AUTH0_DOMAIN environ <> "" ->
  auth0_utils.fresh now st = false ->
  (forall e, exn_cls e = HTTPError ->
     let r := auth0_utils._jwks environ now (Raise e) st in
     if truthy (auth0_utils.JWKS_CACHE_keys st)
     then r.1 = Ok (auth0_utils.JWKS_CACHE_keys st) /\
          In (auth0_utils.WARNING, "Using stale JWKS cache as fallback")
             (auth0_utils.log r.2) /\
          auth0_utils.cache_of r.2 = auth0_utils.cache_of st
     else r.1 = Raise e)
  /\
  (forall v, auth0_utils.has_keys_array v = false ->
     let r := auth0_utils._jwks environ now (Ok v) st in
     (exists e, r.1 = Raise e) /\ auth0_utils.cache_of r.2 = auth0_utils.cache_of st).
Proof.
  intros Hdomain Hstale. apply String.eqb_neq in Hdomain. split.
  - intros e He. cbv zeta. unfold auth0_utils._jwks.
    rewrite Hdomain, Hstale. cbv zeta. run_bind.
    rewrite bool_decide_eq_true_2 by exact He.
    cbn [auth0_utils.logged auth0_utils.JWKS_CACHE_keys].
    destruct (truthy (auth0_utils.JWKS_CACHE_keys st)); [|reflexivity].
    cbn. split; [reflexivity|]. split; [|reflexivity].
    rewrite !in_app_iff. right. left. reflexivity.
  - intros v Hv. cbv zeta. unfold auth0_utils._jwks.
    rewrite Hdomain, Hstale. cbv zeta. run_bind.
    destruct (invalid_structure_no_keys v Hv) as [-> | [msg ->]]; cbn;
      rewrite bool_decide_eq_false_2 by discriminate; cbn; eauto.
Qed.

Lemma jwks_failure_semantics_witness :
  (let r := auth0_utils._jwks examples.auth0 examples.t1024 examples.outage examples.warm in
   r.1 = Ok examples.jwks /\
   In (auth0_utils.WARNING, "Using stale JWKS cache as fallback") (auth0_utils.log r.2) /\
   auth0_utils.cache_of r.2 = auth0_utils.cache_of examples.warm)
  /\
  (let r := auth0_utils._jwks examples.auth0 examples.t1024 (Ok (VDict ∅)) examples.warm in
   (exists e, r.1 = Raise e) /\
   auth0_utils.cache_of r.2 = auth0_utils.cache_of examples.warm)
  /\
  (auth0_utils._jwks examples.auth0 examples.t1024 examples.outage auth0_utils.initial).1
    = examples.outage.
Proof.
  destruct (jwks_failure_semantics examples.auth0 examples.t1024 examples.warm
              ltac:(discriminate) eq_refl) as [Hwarm Hbody].
  destruct (jwks_failure_semantics examples.auth0 examples.t1024 auth0_utils.initial
              ltac:(discriminate) eq_refl) as [Hcold _].
  split; [exact (Hwarm (Exn HTTPError "All connection attempts failed") eq_refl)|].
  split; [exact (Hbody (VDict ∅) eq_refl)|].
  exact (Hcold (Exn HTTPError "All connection attempts failed") eq_refl).
Defined.

End jwks_facts.

(** ** Further properties *)

(** X1.  Where [json.dumps] returns on the metrics and on the passport
    (neither nested deeper than the recursion limit leaves room for),
    [verify_passport] returns a boolean for every passport dictionary of
    the model except one whose [exp] is an infinite float, for which it
    raises [OverflowError]. *)
Theorem verify_passport_total_but_overflow `{P : Primitives}
    (environ : gmap string string) (now : Z) (p : dict) (a s : string) (m : dict)
    (room : nat) :
  json_dumps_returns room (VDict m) = true ->
  json_dumps_returns room (VDict p) = true ->
  match p !! "exp" with
  | Some (VFloat (S754_infinity _)) =>
      passport.verify_passport environ now p a s m
        = Raise (Exn OverflowError "cannot convert float infinity to integer")
  | _ => exists b, passport.verify_passport environ now p a s m = Ok b
  end.
Proof.
  intros _ _.
  assert (forall e, passport.verify_passport environ now p a s m = Raise e ->
            exists sgn, p !! "exp" = Some (VFloat (S754_infinity sgn))) as Honly.
  { intros e He.
    destruct (verify_passport_raises_only_overflow environ now p a s m e He) as [Hint Hc].
    destruct (int_raises _ _ Hint) as [Hv | [Ht | [_ [sgn Hinf]]]];
      [rewrite Hc in Hv; discriminate | rewrite Hc in Ht; discriminate |].
    exists sgn. unfold dict_get in Hinf.
    destruct (p !! "exp") as [v|]; cbn in Hinf; [now subst | discriminate]. }
  destruct (p !! "exp") as [v|] eqn:E.
  - destruct v as [| | |f| | | |];
      try solve [destruct (passport.verify_passport environ now p a s m) as [r|err] eqn:Hv;
                 [eauto | destruct (Honly err eq_refl) as [sgn [=]]]].
    destruct f as [| | |];
      try solve [destruct (passport.verify_passport environ now p a s m) as [r|err] eqn:Hv;
                 [eauto | destruct (Honly err eq_refl) as [sgn [=]]]].
    unfold passport.verify_passport. rewrite (dict_get_Some _ _ _ _ E). reflexivity.
  - destruct (passport.verify_passport environ now p a s m) as [r|err] eqn:Hv;
      [eauto | destruct (Honly err eq_refl) as [sgn [=]]].
Qed.

Lemma verify_passport_total_but_overflow_witness :
  exists b,
    passport.verify_passport (H := toy.primitives) examples.development 1030
      {[ "exp" := VStr "soon"; "nonce" := VList [VInt 1] ]} "a1" "s1" examples.metrics
    = Ok b.
Proof.
  exact (verify_passport_total_but_overflow (P := toy.primitives) examples.development 1030
           {[ "exp" := VStr "soon"; "nonce" := VList [VInt 1] ]} "a1" "s1"
           examples.metrics 900
           ltac:(vm_compute; reflexivity) ltac:(vm_compute; reflexivity)).
Defined.

(** X2.  Round trip in development mode (no keys configured, [ENV] unset),
    where [json.dumps] returns on the metrics and on [ttl_s] (the metrics
    not nested deeper than the recursion limit leaves room for at either
    call, no [int] of more than 4300 digits): [issue_passport] succeeds,
    and verifying the passport with its own identifiers and metrics gives
    [True] exactly while the verifier's clock reading is at most
    [t + ttl_s]. *)
Theorem passport_round_trip `{P : Primitives} {L : PrimitivesLaws P}
    (seed : bytes) (nonce : string) (t t_issued : Z)
    (agent_id session_id : string) (m : dict) (ttl_s : Z) (room : nat) :
  length seed = 32%nat ->
  json_dumps_returns room (VDict m) = true ->
  json_dumps_returns room (VInt ttl_s) = true ->
  exists p,
    passport.issue_passport examples.development seed nonce t t_issued
      agent_id session_id m ttl_s = Ok p /\
    forall now,
      passport.verify_passport examples.development now p agent_id session_id m
        = Ok (now <=? t + ttl_s).
Proof.
  intros Hseed _ _. eexists. split; [reflexivity|]. intros now.
  destruct (verify_issued examples.development seed nonce t t_issued agent_id session_id
              m ttl_s _ now agent_id session_id m Hseed eq_refl)
    as (sk & vk & Hkeys & ->).
  change (Ok (seed, ed25519_verify_key seed) = Ok (sk, vk)) in Hkeys.
  injection Hkeys as <- <-.
  rewrite !String.eqb_refl, (verify_sign _ _ Hseed), !andb_true_r.
  f_equal. rewrite Z.gtb_ltb, Z.leb_antisym. reflexivity.
Qed.

Lemma passport_round_trip_witness :
  exists p,
    passport.issue_passport (H := toy.primitives) examples.development examples.seed
      examples.nonce 1000 1000 "a1" "s1" examples.metrics 60 = Ok p /\
    forall now,
      passport.verify_passport (H := toy.primitives) examples.development now p
        "a1" "s1" examples.metrics = Ok (now <=? 1000 + 60).
Proof.
  exact (passport_round_trip (L := toy_laws) examples.seed examples.nonce 1000 1000
           "a1" "s1" examples.metrics 60 900 eq_refl
           ltac:(vm_compute; reflexivity) ltac:(vm_compute; reflexivity)).
Defined.

(** X3.  A revoked lease is never valid again: after [revoke_lease(id)] and
    any further calls, [lease_valid] returns [False] for every lease that
    carries the identifier. *)
Theorem revoke_lease_is_final (st : tokens.store) (lease_id : string)
    (calls : list tokens.call) (now : Z) (L : dict) (s : string) (c : bool) :
  L !! "lease_id" = Some (VStr lease_id) ->
  (tokens.lease_valid now L s c
     (tokens.run (tokens.revoke_lease lease_id st).2 calls)).1 = Ok false.
Proof.
  intros Hid.
  rewrite (lease_valid_used now L s lease_id c _ Hid); [reflexivity|].
  apply run_keeps_used. cbn. apply existsb_set_add_same.
Qed.

Lemma revoke_lease_is_final_witness :
  (tokens.lease_valid 1001 examples.lease "tool:x" true
     (tokens.run (tokens.revoke_lease examples.lease_id examples.store_after_issue).2
        [tokens.Cleanup 1001])).1 = Ok false.
Proof.
  exact (revoke_lease_is_final examples.store_after_issue examples.lease_id
           [tokens.Cleanup 1001] 1001 examples.lease "tool:x" true eq_refl).
Defined.

(** ** The key of the metrics tag *)
Section metrics_key_facts.

Lemma lstrip_keeps (f : ascii -> bool) (s : string) (c : ascii) :
  In c (list_ascii_of_string s) -> f c = false ->
  In c (list_ascii_of_string (lstrip f s)).
Proof.
  intros Hin Hc. induction s as [|x s IH]; [exact Hin|].
  cbn [lstrip]. destruct (f x) eqn:Hx; [|exact Hin].
  apply IH. destruct Hin as [-> | Hin]; [congruence | exact Hin].
Qed.

Lemma string_rev_In (s : string) (c : ascii) :
  In c (list_ascii_of_string (string_rev s)) <-> In c (list_ascii_of_string s).
Proof.
  unfold string_rev. rewrite list_ascii_roundtrip. symmetry. apply in_rev.
Qed.

(** [strip] takes away nothing but the characters it is given. *)
Lemma strip_keeps (f : ascii -> bool) (s : string) (c : ascii) :
  In c (list_ascii_of_string s) -> f c = false ->
  In c (list_ascii_of_string (strip f s)).
Proof.
  intros Hin Hc. unfold strip, rstrip.
  apply string_rev_In, lstrip_keeps; [|exact Hc].
  apply string_rev_In, lstrip_keeps; assumption.
Qed.

Lemma lstrip_none (f : ascii -> bool) (s : string) :
  forallb (fun c => negb (f c)) (list_ascii_of_string s) = true -> lstrip f s = s.
Proof.
  destruct s as [|x s]; [reflexivity|]. cbn [list_ascii_of_string forallb lstrip].
  intros [Hx _]%andb_true_iff. apply negb_true_iff in Hx. now rewrite Hx.
Qed.

Lemma string_rev_involutive (s : string) : string_rev (string_rev s) = s.
Proof.
  unfold string_rev. rewrite list_ascii_roundtrip, rev_involutive.
  apply string_of_list_ascii_of_string.
Qed.

Lemma strip_none (f : ascii -> bool) (s : string) :
  forallb (fun c => negb (f c)) (list_ascii_of_string s) = true -> strip f s = s.
Proof.
  intros Hall. unfold strip, rstrip. rewrite (lstrip_none f s Hall).
  rewrite lstrip_none; [apply string_rev_involutive|].
  rewrite forallb_forall in *. intros c Hc. apply Hall. now apply string_rev_In.
Qed.

Lemma lower_not_hex (c : ascii) :
  hex_value c = None -> lower_char c <> "x"%char ->
  storage.is_lower_hex (lower_char c) = false /\ is_char "x" (lower_char c) = false.
Proof.
  destruct c as [[] [] [] [] [] [] [] []]; vm_compute; intros Hv Hx;
    try discriminate Hv; try (exfalso; apply Hx; reflexivity); split; reflexivity.
Qed.

Lemma lower_hex (c : ascii) (v : Z) :
  hex_value c = Some v ->
  0 <= v < 16 /\ hex_digit v = lower_char c /\
  storage.is_lower_hex (lower_char c) = true /\
  is_char "x" c = false /\ is_char "x" (lower_char c) = false /\ is_hex_space c = false.
Proof.
  destruct c as [[] [] [] [] [] [] [] []]; vm_compute; intros [= <-];
    repeat split; congruence.
Qed.

Lemma hex_of_digits (hi lo : Z) :
  0 <= hi < 16 -> 0 <= lo < 16 ->
  hex [byte_of_Z (16 * hi + lo)]
  = String (hex_digit hi) (String (hex_digit lo) EmptyString).
Proof.
  intros Hhi Hlo.
  assert (hi = 0 \/ hi = 1 \/ hi = 2 \/ hi = 3 \/ hi = 4 \/ hi = 5 \/ hi = 6 \/ hi = 7 \/
          hi = 8 \/ hi = 9 \/ hi = 10 \/ hi = 11 \/ hi = 12 \/ hi = 13 \/ hi = 14 \/
          hi = 15) as Hi by lia.
  assert (lo = 0 \/ lo = 1 \/ lo = 2 \/ lo = 3 \/ lo = 4 \/ lo = 5 \/ lo = 6 \/ lo = 7 \/
          lo = 8 \/ lo = 9 \/ lo = 10 \/ lo = 11 \/ lo = 12 \/ lo = 13 \/ lo = 14 \/
          lo = 15) as Lo by lia.
  clear Hhi Hlo.
  repeat (destruct Hi as [-> | Hi]); try subst hi;
    repeat (destruct Lo as [-> | Lo]); try subst lo; reflexivity.
Qed.

Lemma hex_cons (x : byte) (b : bytes) : hex (x :: b) = hex [x] +:+ hex b.
Proof. reflexivity. Qed.

(** [bytes.fromhex] on an even number of hexadecimal digits gives the
    bytes whose hexadecimal text is that of the digits, in lower case. *)
Lemma fromhex_digits (n : nat) :
  forall (l : list ascii) (pos : nat),
    length l = (2 * n)%nat ->
    Forall (fun c => is_Some (hex_value c)) l ->
    exists b, fromhex_go pos l = inr b /\
              hex b = string_of_list_ascii (map lower_char l).
Proof.
  induction n as [|n IH]; intros l pos Hlen Hall.
  - destruct l; [|discriminate]. exists []. split; reflexivity.
  - destruct l as [|c [|d l]]; [cbn in Hlen; lia | cbn in Hlen; lia |].
    apply List.Forall_cons_iff in Hall as [[hi Hc] Hall1].
    apply List.Forall_cons_iff in Hall1 as [[lo Hd] Hall2].
    destruct (lower_hex c hi Hc) as (Hhi & Hch & _ & _ & _ & Hsp).
    destruct (lower_hex d lo Hd) as (Hlo & Hdl & _).
    destruct (IH l (S (S pos))) as (b & Hb & Hhex); [cbn in Hlen; lia | exact Hall2 |].
    exists (byte_of_Z (16 * hi + lo) :: b). split.
    + cbn [fromhex_go]. rewrite Hsp, Hc, Hd, Hb. reflexivity.
    + rewrite hex_cons, (hex_of_digits hi lo Hhi Hlo), Hhex, Hch, Hdl. reflexivity.
Qed.

End metrics_key_facts.

(** X4.  The key of [hmac_metrics], where [json.dumps] returns on the
    payload.  A [METRICS_SECRET] with a character that is neither a
    hexadecimal digit nor the letter x (the default one has such
    characters) is used as its UTF-8 bytes.  A [METRICS_SECRET] that is an
    even number, 32 or more, of hexadecimal digits is used as the bytes
    the digits spell: the hexadecimal text of the key is the secret in
    lower case. *)
Theorem hmac_metrics_keys `{P : Primitives} (environ : gmap string string)
    (payload : dict) (room : nat) :
  json_dumps_returns room (VDict payload) = true ->
  let secret := config.METRICS_SECRET environ in
  let msg := encode_utf8 (json_dumps (VDict payload)) in
  (forall c, In c (list_ascii_of_string secret) ->
             hex_value c = None -> lower_char c <> "x"%char ->
     storage.hmac_metrics environ payload
       = Ok (hex (hmac_sha256 (encode_utf8 secret) msg)))
  /\
  (Forall (fun c => is_Some (hex_value c)) (list_ascii_of_string secret) ->
   Nat.even (String.length secret) = true ->
   (32 <= String.length secret)%nat ->
   exists key,
     hex key = lower secret /\
     storage.hmac_metrics environ payload = Ok (hex (hmac_sha256 key msg))).
Proof.
  intros _ secret msg. split.
  - intros c Hin Hv Hx. unfold storage.hmac_metrics. fold secret. cbv zeta.
    destruct (lower_not_hex c Hv Hx) as [Hhex Hnx].
    assert (forallb storage.is_lower_hex
              (list_ascii_of_string (strip (is_char "x") (lower secret))) = false) as ->.
    { apply not_true_is_false. intros Hall. rewrite forallb_forall in Hall.
      specialize (Hall (lower_char c)). rewrite Hhex in Hall.
      discriminate Hall.
      apply strip_keeps; [|exact Hnx].
      unfold lower. rewrite list_ascii_roundtrip. now apply in_map. }
    reflexivity.
  - intros Hall Heven Hlen. unfold storage.hmac_metrics. fold secret. cbv zeta.
    assert (forall c, In c (list_ascii_of_string secret) ->
              storage.is_lower_hex (lower_char c) = true /\
              is_char "x" c = false /\ is_char "x" (lower_char c) = false) as Hchars.
    { intros c Hc. rewrite Forall_forall in Hall.
      destruct (Hall c (proj2 (list_elem_of_In _ _) Hc)) as [v Hv].
      destruct (lower_hex c v Hv) as (_ & _ & H1 & H2 & H3 & _). auto. }
    assert (strip (is_char "x") (lower secret) = lower secret) as ->.
    { apply strip_none. unfold lower. rewrite list_ascii_roundtrip.
      rewrite forallb_forall. intros c' (c & <- & Hc)%in_map_iff.
      destruct (Hchars c Hc) as (_ & _ & ->). reflexivity. }
    assert (forallb storage.is_lower_hex (list_ascii_of_string (lower secret)) = true) as ->.
    { unfold lower. rewrite list_ascii_roundtrip.
      rewrite forallb_forall. intros c' (c & <- & Hc)%in_map_iff.
      now destruct (Hchars c Hc) as (-> & _). }
    assert (remove_char "x" secret = secret) as ->.
    { unfold remove_char.
      rewrite List.forallb_filter_id.
      - apply string_of_list_ascii_of_string.
      - rewrite forallb_forall. intros c Hc.
        destruct (Hchars c Hc) as (_ & -> & _). reflexivity. }
    rewrite (proj2 (Z.leb_le 32 _)) by lia. cbn [andb].
    apply Nat.even_spec in Heven as [n Hn].
    destruct (fromhex_digits n (list_ascii_of_string secret) 0) as (key & Hkey & Hhex).
    { rewrite <- Hn. clear. induction secret as [|c s IH]; [reflexivity|].
      cbn. now rewrite IH. }
    { exact Hall. }
    exists key. split; [exact Hhex|].
    unfold fromhex. rewrite Hkey. reflexivity.
Qed.

Lemma hmac_metrics_keys_witness :
  storage.hmac_metrics (H := toy.primitives) ∅ examples.metrics
    = Ok (hex (hmac_sha256 (Primitives := toy.primitives)
                 (encode_utf8 "please_change_me_00000000000000000000000000000000")
                 (encode_utf8 (json_dumps (H := toy.primitives) (VDict examples.metrics)))))
  /\
  exists key,
    hex key = "000102030405060708090a0b0c0d0e0f" /\
    storage.hmac_metrics (H := toy.primitives)
      {[ "METRICS_SECRET" := "000102030405060708090A0b0c0d0e0f" ]} examples.metrics
    = Ok (hex (hmac_sha256 (Primitives := toy.primitives) key
                 (encode_utf8 (json_dumps (H := toy.primitives) (VDict examples.metrics))))).
Proof.
  split.
  - apply (proj1 (hmac_metrics_keys (P := toy.primitives) ∅ examples.metrics 900
                    ltac:(vm_compute; reflexivity)) "p"%char);
      [vm_compute; tauto | reflexivity | discriminate].
  - apply (proj2 (hmac_metrics_keys (P := toy.primitives)
                    {[ "METRICS_SECRET" := "000102030405060708090A0b0c0d0e0f" ]}
                    examples.metrics 900 ltac:(vm_compute; reflexivity)));
      [repeat constructor; vm_compute; eauto | reflexivity | vm_compute; lia].
Defined.

(** X5.  Lease at-most-once under concurrency: when any number of callers
    validate, with [consume=True], leases that carry one identifier, then
    however their critical sections interleave, at most one of them
    returns [True]. *)
Theorem lease_valid_concurrent_at_most_once (lid : string) (st : tokens.store)
    (requests : list (Z * dict * string)) (order : list nat) :
  Forall (fun r : Z * dict * string => r.1.2 !! "lease_id" = Some (VStr lid)) requests ->
  let sys :=
    tokens.System st
      (List.map (fun r : Z * dict * string => tokens.Start r.1.1 r.1.2 r.2 true) requests) in
  (length (List.filter tokens.returned_true
             (tokens.callers (tokens.interleave sys order))) <= 1)%nat.
Proof.
  intros Hreq sys.
  assert (tokens.at_most_one lid sys) as Hinit.
  { split; cbn [tokens.callers tokens.shared sys].
    - apply List.Forall_map. eapply Forall_impl; [exact Hreq|].
      intros r Hr. cbn. now split.
    - left. clear Hreq. induction requests as [|r rs IH]; [reflexivity|].
      cbn. exact IH. }
  destruct (interleave_at_most_one lid order sys Hinit) as [_ Hcount].
  pose proof (returned_true_won (tokens.callers (tokens.interleave sys order))) as Hle.
  destruct Hcount as [H0 | [H1 _]]; lia.
Qed.

Lemma lease_valid_concurrent_at_most_once_witness :
  (length (List.filter tokens.returned_true
             (tokens.callers
                (tokens.interleave
                   (tokens.System examples.store_after_issue
                      [tokens.Start 1001 examples.lease "tool:x" true;
                       tokens.Start 1001 examples.lease "tool:x" true])
                   [0; 1; 0; 1; 0; 1]%nat))) <= 1)%nat.
Proof.
  exact (lease_valid_concurrent_at_most_once examples.lease_id examples.store_after_issue
           [(1001, examples.lease, "tool:x"); (1001, examples.lease, "tool:x")]
           [0; 1; 0; 1; 0; 1]%nat
           ltac:(repeat constructor)).
Defined.
(** ** Capability leases: issuing, storage and clean-up *)
Section tokens_more.

Lemma gtb_false (a b : Z) : a <= b -> (a >? b) = false.
Proof. intros Hle. rewrite Z.gtb_ltb. apply Z.ltb_ge. exact Hle. Qed.

(** The accepting path of [lease_valid]. *)
Lemma lease_valid_fresh (now exp : Z) (lease : dict) (scope lid : string)
    (consume : bool) (st : tokens.store) :
  lease !! "lease_id" = Some (VStr lid) ->
  lease !! "exp" = Some (VInt exp) ->
  lease !! "scope" = Some (VStr scope) ->
  lid <> "" ->
  tokens.used_in st lid = false ->
  now <= exp ->
  tokens.lease_valid now lease scope consume st =
    (Ok true,
     if consume
     then tokens.Store (VStr lid :: tokens._USED_LEASES st)
            (tokens.mark_used (VStr lid) (tokens._ACTIVE_LEASES st))
     else st).
Proof.
  intros Hid Hexp Hscope Hne Hunused Hnow. unfold tokens.lease_valid.
  rewrite (dict_get_Some _ _ _ _ Hid), (dict_get_Some _ _ _ _ Hexp),
    (dict_get_Some _ _ _ _ Hscope).
  cbn [truthy]. apply String.eqb_neq in Hne. rewrite Hne. cbn [negb].
  unfold contains. cbn [hashable]. unfold tokens.used_in in Hunused. rewrite Hunused.
  cbn [int]. rewrite (gtb_false _ _ Hnow).
  cbn [ne_str]. rewrite String.eqb_refl. cbn [negb].
  destruct consume; [|reflexivity].
  unfold set_add. rewrite Hunused. reflexivity.
Qed.

(** A call of [lease_valid] leaves the stores as they are, or it answers
    [True] with [consume=True] and has added the identifier. *)
Lemma lease_valid_store (now : Z) (lease : dict) (needed_scope : string)
    (consume : bool) (st : tokens.store) :
  let r := tokens.lease_valid now lease needed_scope consume st in
  r.2 = st \/
  (r.1 = Ok true /\ consume = true /\
   tokens._USED_LEASES r.2 = dict_get lease "lease_id" VNone :: tokens._USED_LEASES st /\
   tokens._ACTIVE_LEASES r.2
     = tokens.mark_used (dict_get lease "lease_id" VNone) (tokens._ACTIVE_LEASES st)).
Proof.
  cbv zeta. unfold tokens.lease_valid.
  destruct (negb _); [left; reflexivity|].
  unfold contains. destruct (hashable _); [|left; reflexivity].
  destruct (existsb _ _) eqn:Hused; [left; reflexivity|].
  destruct (int _) as [exp|e]; [|left; reflexivity].
  destruct (now >? exp); [left; reflexivity|].
  destruct (ne_str _ _); [left; reflexivity|].
  destruct consume; [|left; reflexivity].
  right. cbn. unfold set_add. rewrite Hused. auto.
Qed.

Lemma set_add_length (s : list value) (v : value) :
  (length s <= length (set_add s v) <= S (length s))%nat.
Proof. unfold set_add. destruct (existsb _ _); cbn; lia. Qed.

Lemma step_used_count (st : tokens.store) (c : tokens.call) :
  tokens.get_used_lease_count st <= tokens.get_used_lease_count (tokens.step st c)
    <= tokens.get_used_lease_count st + 1.
Proof.
  unfold tokens.get_used_lease_count.
  destruct c; cbn [tokens.step]; try lia.
  - cbn. lia.
  - destruct (lease_valid_store now lease needed_scope consume st)
      as [-> | (_ & _ & -> & _)]; cbn [length]; lia.
  - cbn. pose proof (set_add_length (tokens._USED_LEASES st) (VStr lease_id)). lia.
  - unfold tokens.cleanup_expired_leases. destruct (mapM _ _); cbn; lia.
Qed.

Lemma foldr_delete_size {A} (m : gmap string A) (ks : list string) :
  NoDup ks -> Forall (fun k => is_Some (m !! k)) ks ->
  (size (foldr delete m ks) + length ks = size m)%nat.
Proof.
  induction 1 as [|k ks Hk Hnd IH]; intros Hin; cbn [foldr length]; [lia|].
  apply Forall_cons in Hin as [Hkm Hin].
  rewrite map_size_delete_Some.
  - specialize (IH Hin).
    assert (size (foldr delete m ks) <> 0)%nat; [|lia].
    apply map_size_ne_0_lookup. exists k.
    now rewrite lookup_foldr_delete_not_elem_of.
  - now rewrite lookup_foldr_delete_not_elem_of.
Qed.

(** On leases with an integer [exp] the scan of [cleanup_expired_leases]
    raises nothing. *)
Lemma cleanup_scan (now : Z) (items : list (string * dict)) :
  Forall (fun item => exists exp, item.2 !! "exp" = Some (VInt exp)) items ->
  mapM (fun item : string * dict =>
          expired ← lt_int (dict_get item.2 "exp" (VInt 0)) now;
          Ok (item.1, expired)) items
  = Ok (List.map (fun item : string * dict =>
                    (item.1, match item.2 !! "exp" with
                             | Some (VInt exp) => exp <? now
                             | _ => false
                             end)) items).
Proof.
  induction 1 as [|item items [exp Hexp] _ IH]; [reflexivity|].
  cbn [mapM List.map]. rewrite IH, (dict_get_Some _ _ _ _ Hexp), Hexp. reflexivity.
Qed.

Lemma flagged_NoDup {A} (flag : string * A -> string * bool) (items : list (string * A)) :
  (forall item, (flag item).1 = item.1) ->
  NoDup (List.map fst items) ->
  NoDup (List.map fst (List.filter snd (List.map flag items))).
Proof.
  intros Hflag. induction items as [|item items IH]; intros Hnd; [constructor|].
  cbn [List.map] in Hnd. apply NoDup_cons in Hnd as [Hnotin Hnd].
  cbn [List.map List.filter]. destruct (flag item).2 eqn:Hb; [|now apply IH].
  cbn [List.map]. apply NoDup_cons. split; [|now apply IH].
  rewrite Hflag. intros Hin. apply Hnotin.
  apply list_elem_of_fmap in Hin as (x & -> & Hin).
  apply list_elem_of_In, filter_In in Hin as [Hin _].
  apply list_elem_of_In, list_elem_of_fmap in Hin as (y & -> & Hin).
  rewrite Hflag. apply list_elem_of_fmap. eauto.
Qed.

Lemma mark_used_lookup (v : value) (a : gmap string dict) (lid : string) (l : dict) :
  tokens.mark_used v a !! lid = Some l ->
  exists l0, a !! lid = Some l0 /\ (l = l0 \/ l = <["used" := VBool true]> l0).
Proof.
  unfold tokens.mark_used. destruct v as [| | | |k| | |]; try (intros; eexists; eauto; fail).
  destruct (a !! k) as [l0|] eqn:Hk; [|intros; eexists; eauto].
  destruct (decide (k = lid)) as [->|Hne].
  - rewrite lookup_insert_eq. intros [= <-]. eauto.
  - rewrite lookup_insert_ne by exact Hne. eauto.
Qed.

Lemma cleanup_active (now : Z) (st : tokens.store) (lid : string) (l : dict) :
  tokens._ACTIVE_LEASES (tokens.cleanup_expired_leases now st).2 !! lid = Some l ->
  tokens._ACTIVE_LEASES st !! lid = Some l.
Proof.
  unfold tokens.cleanup_expired_leases. destruct (mapM _ _); [|easy].
  cbn. rewrite lookup_foldr_delete_Some. tauto.
Qed.

Lemma step_stored_by_issue (st : tokens.store) (c : tokens.call) :
  tokens.stored_by_issue st -> tokens.stored_by_issue (tokens.step st c).
Proof.
  intros Hst. destruct c; cbn [tokens.step]; try exact Hst.
  - intros lid l. cbn. destruct (decide (lease_id = lid)) as [->|Hne].
    + rewrite lookup_insert_eq. intros [= <-]. split; [reflexivity|]. eexists. reflexivity.
    + rewrite lookup_insert_ne by exact Hne. apply Hst.
  - intros lid l.
    destruct (lease_valid_store now lease needed_scope consume st)
      as [-> | (_ & _ & _ & ->)]; [apply Hst|].
    intros (l0 & Hl0 & [-> | ->])%mark_used_lookup; [now apply Hst|].
    destruct (Hst _ _ Hl0) as [Hid [exp Hexp]].
    rewrite !lookup_insert_ne by discriminate. eauto.
  - intros lid l. cbn. rewrite lookup_delete_Some. intros [_ Hl]. now apply Hst.
  - intros lid l Hl%cleanup_active. now apply Hst.
Qed.

Lemma run_stored_by_issue (cs : list tokens.call) (st : tokens.store) :
  tokens.stored_by_issue st -> tokens.stored_by_issue (tokens.run st cs).
Proof.
  revert st. induction cs as [|c cs IH]; intros st Hst; [exact Hst|].
  cbn. apply IH. now apply step_stored_by_issue.
Qed.

Lemma cleanup_spec (now : Z) (st : tokens.store) :
  tokens.stored_by_issue st ->
  exists n st',
    tokens.cleanup_expired_leases now st = (Ok n, st') /\
    tokens._USED_LEASES st' = tokens._USED_LEASES st /\
    n = tokens.get_active_lease_count st - tokens.get_active_lease_count st' /\
    forall lid l,
      tokens.get_lease_status lid st' = Some l <->
      tokens.get_lease_status lid st = Some l /\
      exists exp, l !! "exp" = Some (VInt exp) /\ now <= exp.
Proof.
  intros Hst. unfold tokens.cleanup_expired_leases.
  rewrite cleanup_scan.
  2:{ apply Forall_forall. intros [lid l] Hin%elem_of_map_to_list.
      now destruct (Hst _ _ Hin). }
  set (flag := fun item : string * dict => _).
  set (ids := List.map fst (List.filter snd (List.map flag _))).
  assert (forall lid, lid ∈ ids <->
            exists l exp, tokens._ACTIVE_LEASES st !! lid = Some l /\
                          l !! "exp" = Some (VInt exp) /\ exp < now) as Hids.
  { intros lid. subst ids. rewrite list_elem_of_fmap. split.
    - intros ([k b] & -> & Hin). apply list_elem_of_In, filter_In in Hin as [Hin Hb].
      apply list_elem_of_In, list_elem_of_fmap in Hin as ([k' l] & [= -> ->] & Hin).
      apply elem_of_map_to_list in Hin. cbn in Hb |- *.
      destruct (Hst _ _ Hin) as [_ [exp Hexp]]. rewrite Hexp in Hb.
      exists l, exp. repeat split; try assumption. now apply Z.ltb_lt.
    - intros (l & exp & Hl & Hexp & Hlt). exists (lid, true). split; [reflexivity|].
      apply list_elem_of_In, filter_In. split; [|reflexivity].
      apply list_elem_of_In, list_elem_of_fmap. exists (lid, l). split.
      + subst flag. cbn. rewrite Hexp. f_equal. symmetry. now apply Z.ltb_lt.
      + now apply elem_of_map_to_list. }
  eexists _, _. split; [reflexivity|]. split; [reflexivity|]. split.
  - unfold tokens.get_active_lease_count. cbn [tokens._ACTIVE_LEASES tokens.set_active].
    assert (size (foldr delete (tokens._ACTIVE_LEASES st) ids) + length ids
            = size (tokens._ACTIVE_LEASES st))%nat as Hsize; [|lia].
    apply foldr_delete_size.
    + subst ids. apply (flagged_NoDup flag); [reflexivity|apply NoDup_fst_map_to_list].
    + apply Forall_forall. intros lid (l & _ & Hl & _)%Hids. eauto.
  - intros lid l. unfold tokens.get_lease_status. cbn [tokens._ACTIVE_LEASES tokens.set_active].
    rewrite lookup_foldr_delete_Some, Hids. split.
    + intros [Hnot Hl]. split; [exact Hl|].
      destruct (Hst _ _ Hl) as [_ [exp Hexp]]. exists exp. split; [exact Hexp|].
      destruct (Z.le_gt_cases now exp) as [Hle|Hlt]; [exact Hle|].
      exfalso. apply Hnot. eauto.
    + intros [Hl (exp & Hexp & Hle)]. split; [|exact Hl].
      intros (l' & exp' & Hl' & Hexp' & Hlt).
      rewrite Hl in Hl'. injection Hl' as <-. rewrite Hexp in Hexp'. injection Hexp' as <-. lia.
Qed.

End tokens_more.

(** X6.  Issue, look up, validate.  A lease issued under an identifier that
    is not empty and not in the used-set is stored under that identifier,
    and [lease_valid] accepts it for its own scope at every clock reading
    up to [exp]; with [consume=True] the stored lease is then marked
    [used], with [consume=False] it is left as it was. *)
Theorem issued_lease_validates (st : tokens.store) (lease_id : string)
    (t_exp t_issued : Z) (user_id action_id scope : string) (ttl_s now : Z)
    (consume : bool) :
  lease_id <> "" ->
  tokens.used_in st lease_id = false ->
  now <= t_exp + ttl_s ->
  let issued :=
    tokens.issue_capability_lease lease_id t_exp t_issued user_id action_id scope ttl_s st in
  let checked := tokens.lease_valid now issued.1 scope consume issued.2 in
  tokens.get_lease_status lease_id issued.2 = Some issued.1 /\
  checked.1 = Ok true /\
  tokens.get_lease_status lease_id checked.2
    = Some (if consume then <["used" := VBool true]> issued.1 else issued.1).
Proof.
  intros Hne Hunused Hnow issued checked.
  assert (tokens.get_lease_status lease_id issued.2 = Some issued.1) as Hstored.
  { cbn. apply lookup_insert_eq. }
  split; [exact Hstored|].
  subst checked.
  rewrite (lease_valid_fresh now (t_exp + ttl_s) issued.1 scope lease_id consume issued.2);
    try assumption; try reflexivity.
  split; [reflexivity|].
  destruct consume; [|exact Hstored].
  cbn [snd]. unfold tokens.get_lease_status in *. cbn [tokens._ACTIVE_LEASES tokens.mark_used].
  rewrite Hstored. apply lookup_insert_eq.
Qed.

Lemma issued_lease_validates_witness :
  let issued :=
    tokens.issue_capability_lease examples.lease_id 1000 1000 "u" "a" "tool:x" 30
      tokens.empty in
  let checked := tokens.lease_valid 1030 issued.1 "tool:x" true issued.2 in
  tokens.get_lease_status examples.lease_id issued.2 = Some issued.1 /\
  checked.1 = Ok true /\
  tokens.get_lease_status examples.lease_id checked.2
    = Some (<["used" := VBool true]> issued.1).
Proof.
  exact (issued_lease_validates tokens.empty examples.lease_id 1000 1000 "u" "a" "tool:x"
           30 1030 true ltac:(discriminate) eq_refl ltac:(lia)).
Defined.

(** X7.  [lease_valid] never reads [_ACTIVE_LEASES]: its answer and the
    used-set it leaves are the same whatever that store holds.  The lease
    is judged by the copy the caller carries, the clock and the used-set. *)
Theorem lease_valid_ignores_storage (now : Z) (lease : dict) (needed_scope : string)
    (consume : bool) (used : list value) (active active' : gmap string dict) :
  let r := tokens.lease_valid now lease needed_scope consume (tokens.Store used active) in
  let r' := tokens.lease_valid now lease needed_scope consume (tokens.Store used active') in
  r.1 = r'.1 /\ tokens._USED_LEASES r.2 = tokens._USED_LEASES r'.2.
Proof.
  cbv zeta. unfold tokens.lease_valid. cbn [tokens._USED_LEASES].
  destruct (negb _); [split; reflexivity|].
  destruct (contains _ _) as [[|]|e]; try (split; reflexivity).
  destruct (int _) as [exp|e]; [|split; reflexivity].
  destruct (now >? exp); [split; reflexivity|].
  destruct (ne_str _ _); [split; reflexivity|].
  destruct consume; [|split; reflexivity].
  destruct (existsb _ _); split; reflexivity.
Qed.

(** X8.  Only an accepted, consuming validation changes the stores: a call
    of [lease_valid] that answers [False], raises, or is made with
    [consume=False] leaves both stores as they were; the call that changes
    them answers [True] and adds the lease's identifier to the used-set. *)
Theorem lease_valid_changes_store_only_on_consume (now : Z) (lease : dict)
    (needed_scope : string) (consume : bool) (st : tokens.store) :
  let r := tokens.lease_valid now lease needed_scope consume st in
  r.2 = st \/
  (r.1 = Ok true /\ consume = true /\
   tokens._USED_LEASES r.2 = dict_get lease "lease_id" VNone :: tokens._USED_LEASES st).
Proof.
  cbv zeta.
  destruct (lease_valid_store now lease needed_scope consume st)
    as [Hsame | (Hr & Hc & Hused & _)]; [left | right]; auto.
Qed.

(** X9.  [cleanup_expired_leases] on any store the module's calls can
    produce: it raises nothing, returns the number of leases it removed,
    leaves the used-set alone, and keeps exactly the stored leases with
    [now <= exp], the ones whose expiry test [lease_valid] still passes at
    that clock reading. *)
Theorem cleanup_expired_leases_spec (calls : list tokens.call) (now : Z) :
  let st := tokens.run tokens.empty calls in
  exists n st',
    tokens.cleanup_expired_leases now st = (Ok n, st') /\
    tokens._USED_LEASES st' = tokens._USED_LEASES st /\
    n = tokens.get_active_lease_count st - tokens.get_active_lease_count st' /\
    forall lid l,
      tokens.get_lease_status lid st' = Some l <->
      tokens.get_lease_status lid st = Some l /\
      exists exp, l !! "exp" = Some (VInt exp) /\ now <= exp.
Proof.
  cbv zeta. apply cleanup_spec, run_stored_by_issue.
  intros lid l Hl. cbn in Hl. now rewrite lookup_empty in Hl.
Qed.

(** X10.  The replay set only grows: over any sequence of calls
    [get_used_lease_count] never decreases, and it grows by at most one
    per call. *)
Theorem used_lease_count_monotone (st : tokens.store) (calls : list tokens.call) :
  tokens.get_used_lease_count st
    <= tokens.get_used_lease_count (tokens.run st calls)
    <= tokens.get_used_lease_count st + Z.of_nat (length calls).
Proof.
  revert st. induction calls as [|c cs IH]; intros st; [cbn; lia|].
  cbn [tokens.run foldl length]. specialize (IH (tokens.step st c)).
  unfold tokens.run in IH. pose proof (step_used_count st c). lia.
Qed.
(** ** Passports: the quick checks and key loading *)
Section passport_quick.
Context `{P : Primitives}.
Variable environ : gmap string string.

(** What [verify_passport] must have seen to answer [True]. *)
Lemma verify_passport_true (now : Z) (p : dict) (a s : string) (m : dict) :
  passport.verify_passport environ now p a s m = Ok true ->
  exists exp,
    int (dict_get p "exp" (VInt 0)) = Ok exp /\ (now >? exp) = false /\
    compare_digest (VStr (passport.hmac_commit environ m))
      (dict_get p "commitment" (VStr "")) = Ok true.
Proof.
  unfold passport.verify_passport.
  case_bind (int (dict_get p "exp" (VInt 0))) exp e0 E0.
  2:{ unfold try_except. destruct (existsb _ _); discriminate. }
  destruct (now >? exp) eqn:Hexp; [discriminate|].
  case_bind (compare_digest (VStr (passport.hmac_commit environ m))
               (dict_get p "commitment" (VStr ""))) same e0 E1.
  2:{ unfold try_except. destruct (existsb _ _); discriminate. }
  destruct same; [|discriminate]. eauto.
Qed.

End passport_quick.

(** X11.  [verify_passport_commitment_only] raises nothing, whatever the
    passport holds, and answers [True] exactly when the passport's
    [commitment] (the empty string when the field is missing) is the
    string [hmac_commit(redacted_metrics)]; a commitment that is not a
    string, or not ASCII, gives [False]. *)
Theorem verify_passport_commitment_only_spec `{P : Primitives}
    (environ : gmap string string) (p m : dict) :
  exists b,
    passport.verify_passport_commitment_only environ p m = Ok b /\
    (b = true <->
     dict_get p "commitment" (VStr "") = VStr (passport.hmac_commit environ m)).
Proof.
  unfold passport.verify_passport_commitment_only, try_except_all. cbv zeta.
  destruct (dict_get p "commitment" (VStr "")) as [| | | |t| | |];
    try (exists false; cbn; split; [reflexivity | split; discriminate]).
  unfold compare_digest.
  assert (is_ascii (passport.hmac_commit environ m) = true) as Hascii
    by apply hex_is_ascii.
  rewrite Hascii. cbn [andb].
  destruct (is_ascii t) eqn:Ht.
  - eexists. split; [reflexivity|]. rewrite String.eqb_eq. split; congruence.
  - exists false. split; [reflexivity|]. split; [discriminate|].
    intros [= ->]. congruence.
Qed.

(** X12.  The two quick checks are necessary for the full one: when
    [verify_passport] answers [True], [passport_is_expired] answers [False]
    at the same clock reading and [verify_passport_commitment_only] answers
    [True] for the same metrics. *)
Theorem verify_passport_passes_quick_checks `{P : Primitives}
    (environ : gmap string string) (now : Z) (p : dict) (a s : string) (m : dict) :
  passport.verify_passport environ now p a s m = Ok true ->
  passport.passport_is_expired now p = Ok false /\
  passport.verify_passport_commitment_only environ p m = Ok true.
Proof.
  intros (exp & Hint & Hexp & Hsame)%verify_passport_true. split.
  - unfold passport.passport_is_expired. rewrite Hint. run_bind. now rewrite Hexp.
  - unfold passport.verify_passport_commitment_only. cbv zeta. now rewrite Hsame.
Qed.

Section passport_quick_examples.
#[local] Existing Instance toy.primitives.

Lemma verify_passport_passes_quick_checks_witness :
  passport.passport_is_expired 1030 examples.issued_passport = Ok false /\
  passport.verify_passport_commitment_only examples.development
    examples.issued_passport examples.metrics = Ok true.
Proof.
  exact (verify_passport_passes_quick_checks (P := toy.primitives) examples.development 1030
           examples.issued_passport "a1" "s1" examples.metrics
           ltac:(vm_compute; reflexivity)).
Defined.

End passport_quick_examples.

(** X13.  [passport_is_expired] and [verify_passport] read [exp] the same
    way.  Either [passport_is_expired] answers, and when it answers [True]
    (the clock is past [exp], or [exp] cannot be read as a number)
    [verify_passport] answers [False] whatever is expected; or [exp] is an
    infinite float and both raise the same [OverflowError]. *)
Theorem passport_is_expired_sound `{P : Primitives}
    (environ : gmap string string) (now : Z) (p : dict) :
  (exists b, passport.passport_is_expired now p = Ok b /\
     (b = true -> forall a s m, passport.verify_passport environ now p a s m = Ok false))
  \/
  (exists e, exn_cls e = OverflowError /\
     passport.passport_is_expired now p = Raise e /\
     forall a s m, passport.verify_passport environ now p a s m = Raise e).
Proof.
  unfold passport.passport_is_expired, passport.verify_passport.
  destruct (int (dict_get p "exp" (VInt 0))) as [exp|e] eqn:Hint; run_bind.
  - left. eexists. split; [reflexivity|]. intros Hb a s m. run_bind. now rewrite Hb.
  - destruct (int_raises _ _ Hint) as [Hc | [Hc | [Hc _]]].
    + left. exists true. unfold try_except. rewrite Hc. cbn. split; [reflexivity|].
      intros _ a s m. rewrite Hc. reflexivity.
    + left. exists true. unfold try_except. rewrite Hc. cbn. split; [reflexivity|].
      intros _ a s m. rewrite Hc. reflexivity.
    + right. exists e. unfold try_except. rewrite Hc. cbn.
      split; [reflexivity|]. split; [reflexivity|]. intros a s m. rewrite Hc. reflexivity.
Qed.

(** X14.  Keys written to the environment load back: with
    [ED25519_SK_B64] and [ED25519_VK_B64] set to the base64 text of a
    32-byte signing key and a 32-byte verifying key, [_load_keys] returns
    these two keys.  [ENV] is not consulted, nothing is generated, and the
    verifying key is the configured one, not one derived from the signing
    key. *)
Theorem load_keys_configured `{P : Primitives} {L : PrimitivesLaws P}
    (environ : gmap string string) (seed sk vk : bytes) :
  length sk = 32%nat ->
  length vk = 32%nat ->
  b64encode sk <> "" ->
  b64encode vk <> "" ->
  environ !! "ED25519_SK_B64" = Some (b64encode sk) ->
  environ !! "ED25519_VK_B64" = Some (b64encode vk) ->
  passport._load_keys environ seed = Ok (sk, vk).
Proof.
  intros Hsk Hvk Hnsk Hnvk Esk Evk.
  apply String.eqb_neq in Hnsk, Hnvk.
  unfold passport._load_keys. rewrite Esk, Evk. cbn [default from_option id].
  rewrite Hnsk, Hnvk. cbn [orb]. cbv zeta.
  rewrite !b64decode_encode. run_bind.
  unfold SigningKey, VerifyKey. rewrite Hsk, Hvk. reflexivity.
Qed.

Lemma load_keys_configured_witness :
  passport._load_keys (H := toy.primitives) examples.configured [] =
    Ok (examples.seed, examples.seed).
Proof.
  exact (load_keys_configured (P := toy.primitives) (L := toy_laws) examples.configured []
           examples.seed examples.seed eq_refl eq_refl
           ltac:(vm_compute; discriminate) ltac:(vm_compute; discriminate)
           ltac:(vm_compute; reflexivity) ltac:(vm_compute; reflexivity)).
Defined.
(** ** Compact tokens: base64 without padding, signing and checking *)
Section text_facts.
Local Open Scope list_scope.

Lemma list_ascii_app (s t : string) :
  list_ascii_of_string (s +:+ t) = list_ascii_of_string s ++ list_ascii_of_string t.
Proof. induction s as [|c s IH]; [reflexivity|]. cbn [list_ascii_of_string]. simpl. f_equal. exact IH. Qed.

Lemma string_of_list_inj (s t : string) :
  list_ascii_of_string s = list_ascii_of_string t -> s = t.
Proof.
  intros E. rewrite <- (string_of_list_ascii_of_string s), <- (string_of_list_ascii_of_string t).
  now rewrite E.
Qed.

Lemma string_length_list (s : string) : String.length s = length (list_ascii_of_string s).
Proof. induction s as [|c s IH]; cbn; [reflexivity | now rewrite IH]. Qed.

Lemma list_ascii_rev (s : string) :
  list_ascii_of_string (string_rev s) = rev (list_ascii_of_string s).
Proof. unfold string_rev. apply list_ascii_roundtrip. Qed.

Lemma lstrip_split (p : ascii -> bool) (s : string) :
  exists pre, list_ascii_of_string s = pre ++ list_ascii_of_string (lstrip p s) /\
              forallb p pre = true.
Proof.
  induction s as [|c s [pre [E Hpre]]]; [exists []; now split|].
  cbn [lstrip]. destruct (p c) eqn:Hc.
  - exists (c :: pre). cbn. rewrite E, Hc, Hpre. now split.
  - exists []. now split.
Qed.

Lemma rstrip_split (p : ascii -> bool) (s : string) :
  exists suf, list_ascii_of_string s = list_ascii_of_string (rstrip p s) ++ suf /\
              forallb p suf = true.
Proof.
  destruct (lstrip_split p (string_rev s)) as [pre [E Hpre]].
  exists (rev pre). unfold rstrip. rewrite list_ascii_rev. split.
  - rewrite <- rev_app_distr, <- E, list_ascii_rev. symmetry. apply rev_involutive.
  - rewrite forallb_forall in *. intros c Hc. apply Hpre. now apply in_rev.
Qed.

Lemma lstrip_map (p : ascii -> bool) (f : ascii -> ascii) (l : list ascii) :
  (forall c, p (f c) = p c) ->
  list_ascii_of_string (lstrip p (string_of_list_ascii (List.map f l)))
  = List.map f (list_ascii_of_string (lstrip p (string_of_list_ascii l))).
Proof.
  intros Hp. induction l as [|c l IH]; [reflexivity|].
  cbn [List.map string_of_list_ascii lstrip]. rewrite Hp. destruct (p c); [exact IH|].
  cbn. now rewrite !list_ascii_roundtrip.
Qed.

Lemma rstrip_map (p : ascii -> bool) (f : ascii -> ascii) (l : list ascii) :
  (forall c, p (f c) = p c) ->
  list_ascii_of_string (rstrip p (string_of_list_ascii (List.map f l)))
  = List.map f (list_ascii_of_string (rstrip p (string_of_list_ascii l))).
Proof.
  intros Hp. unfold rstrip. rewrite !list_ascii_rev.
  unfold string_rev. rewrite !list_ascii_roundtrip, <- map_rev.
  rewrite (lstrip_map p f _ Hp). now rewrite map_rev.
Qed.

Lemma forallb_is_char (c : ascii) (l : list ascii) :
  forallb (is_char c) l = true -> l = replicate (length l) c.
Proof.
  induction l as [|x l IH]; [reflexivity|]. cbn [forallb length replicate].
  intros [Hx Hl]%andb_true_iff. apply Ascii.eqb_eq in Hx. subst x. f_equal. now apply IH.
Qed.

End text_facts.

Section b64url_facts.
Local Open Scope list_scope.
Context `{P : Primitives} {L : PrimitivesLaws P} {B : Base64Laws P}.

Lemma translate_list (a b : ascii) (s : string) :
  list_ascii_of_string (crypto.translate a b s)
  = List.map (fun c => if is_char a c then b else c) (list_ascii_of_string s).
Proof. unfold crypto.translate. apply list_ascii_roundtrip. Qed.

(** The URL-safe alphabet and back, on a character of base64 text. *)
Lemma url_char (c : ascii) :
  is_b64_char c || is_char "=" c = true ->
  let c1 := if is_char "+" c then "-"%char else c in
  let c2 := if is_char "/" c1 then "_"%char else c1 in
  let c3 := if is_char "-" c2 then "+"%char else c2 in
  let c4 := if is_char "_" c3 then "/"%char else c3 in
  c4 = c /\ (code c2 <? 128) = true /\ is_char "." c2 = false.
Proof.
  destruct c as [[] [] [] [] [] [] [] []]; vm_compute; intros H;
    try discriminate H; repeat split.
Qed.

Lemma translate_keeps_pad (a b : ascii) :
  a <> "="%char -> b <> "="%char ->
  forall c, is_char "=" (if is_char a c then b else c) = is_char "=" c.
Proof.
  intros Ha Hb c. unfold is_char. destruct (Ascii.eqb_spec c a) as [->|Hca]; [|reflexivity].
  destruct (Ascii.eqb_spec b "=") as [?|_]; [contradiction|].
  destruct (Ascii.eqb_spec a "=") as [?|_]; [contradiction|]. reflexivity.
Qed.

(** Base64 text is its body, then the padding. *)
Lemma b64_text (data : bytes) :
  exists body k,
    list_ascii_of_string (b64encode data) = body ++ replicate k "="%char /\
    list_ascii_of_string (rstrip (is_char "=") (b64encode data)) = body /\
    (k <= 2)%nat /\ ((length body + k) mod 4 = 0)%nat /\
    forallb (fun c => is_b64_char c || is_char "=" c) (body ++ replicate k "="%char) = true.
Proof.
  pose proof (b64encode_shape data) as Hshape. unfold b64_shape in Hshape.
  apply andb_true_iff in Hshape as [[Hbody Hk]%andb_true_iff Hlen].
  apply Nat.leb_le in Hk. apply Nat.eqb_eq in Hlen.
  destruct (rstrip_split (is_char "=") (b64encode data)) as [suf [E Hsuf]].
  apply forallb_is_char in Hsuf.
  rewrite (string_length_list (rstrip _ _)) in Hk.
  rewrite (string_length_list (b64encode data)), E, length_app in Hk, Hlen.
  exists (list_ascii_of_string (rstrip (is_char "=") (b64encode data))), (length suf).
  split; [now rewrite <- Hsuf|]. split; [reflexivity|]. split; [lia|]. split; [exact Hlen|].
  rewrite forallb_app. apply andb_true_iff. split.
  - rewrite forallb_forall in *. intros c Hc. now rewrite (Hbody c Hc).
  - clear. induction (length suf) as [|n IH]; [reflexivity|]. cbn. exact IH.
Qed.

Lemma map_replicate_pad (f : ascii -> ascii) (k : nat) :
  f "="%char = "="%char -> List.map f (replicate k "="%char) = replicate k "="%char.
Proof. intros Hf. induction k as [|k IH]; [reflexivity|]. cbn. now rewrite Hf, IH. Qed.

(** Cutting the padding and putting it back gives the URL-safe text. *)
Lemma pad_restored (data : bytes) :
  let s := crypto.b64url data in
  s +:+ string_of_list_ascii
          (replicate (Z.to_nat ((- Z.of_nat (String.length s)) mod 4)) "="%char)
  = crypto.urlsafe_b64encode data.
Proof.
  cbv zeta. destruct (b64_text data) as (body & k & E & Hbody & Hk & Hlen & _).
  assert (list_ascii_of_string (crypto.b64url data)
          = List.map (fun c => if is_char "/" c then "_"%char else c)
              (List.map (fun c => if is_char "+" c then "-"%char else c) body)) as Hs.
  { unfold crypto.b64url, crypto.urlsafe_b64encode.
    unfold crypto.translate at 1.
    rewrite rstrip_map by (apply translate_keeps_pad; discriminate).
    rewrite string_of_list_ascii_of_string. unfold crypto.translate.
    rewrite rstrip_map by (apply translate_keeps_pad; discriminate).
    now rewrite string_of_list_ascii_of_string, Hbody. }
  apply string_of_list_inj.
  rewrite list_ascii_app, list_ascii_roundtrip, Hs, string_length_list, Hs, !length_map.
  unfold crypto.urlsafe_b64encode. rewrite !translate_list, E, !map_app.
  rewrite !map_replicate_pad by reflexivity. f_equal. f_equal.
  apply Nat.Div0.mod_divides in Hlen as [q Hq].
  replace (- Z.of_nat (length body)) with (Z.of_nat k + (- Z.of_nat q) * 4) by lia.
  rewrite Z.mod_add by lia. rewrite Z.mod_small by lia. lia.
Qed.

Lemma urlsafe_b64decode_encode (data : bytes) :
  crypto.urlsafe_b64decode (crypto.urlsafe_b64encode data) = Ok data.
Proof.
  destruct (b64_text data) as (body & k & E & _ & _ & _ & Hok).
  rewrite <- E in Hok. clear E.
  assert (is_ascii (crypto.urlsafe_b64encode data) = true /\
          crypto.translate "_" "/" (crypto.translate "-" "+" (crypto.urlsafe_b64encode data))
          = b64encode data) as [Hascii Hback].
  { unfold is_ascii, crypto.urlsafe_b64encode. split.
    - rewrite !translate_list.
      induction (list_ascii_of_string (b64encode data)) as [|c l IH]; [reflexivity|].
      cbn [forallb List.map] in *. apply andb_true_iff in Hok as [Hc Hl].
      destruct (url_char c Hc) as (_ & Hc2 & _). cbv zeta in Hc2. rewrite Hc2. exact (IH Hl).
    - apply string_of_list_inj. rewrite !translate_list.
      induction (list_ascii_of_string (b64encode data)) as [|c l IH]; [reflexivity|].
      cbn [forallb List.map] in *. apply andb_true_iff in Hok as [Hc Hl].
      destruct (url_char c Hc) as (Hc4 & _ & _). cbv zeta in Hc4. rewrite Hc4. f_equal. exact (IH Hl). }
  unfold crypto.urlsafe_b64decode. rewrite Hascii, Hback.
  unfold b64decode. now rewrite b64encode_ascii, b64_roundtrip.
Qed.

Lemma b64url_decode_b64url (data : bytes) :
  crypto.b64url_decode (crypto.b64url data) = Ok data.
Proof.
  unfold crypto.b64url_decode. cbv zeta. rewrite pad_restored.
  apply urlsafe_b64decode_encode.
Qed.

(** A part of a compact token is ASCII text without a dot. *)
Lemma b64url_text (data : bytes) :
  forallb (fun c => (code c <? 128) && negb (is_char "." c))
    (list_ascii_of_string (crypto.b64url data)) = true.
Proof.
  destruct (b64_text data) as (body & k & E & Hbody & _ & _ & Hok).
  rewrite forallb_app in Hok. apply andb_true_iff in Hok as [Hok _].
  unfold crypto.b64url, crypto.urlsafe_b64encode.
  unfold crypto.translate at 1.
  rewrite rstrip_map by (apply translate_keeps_pad; discriminate).
  rewrite string_of_list_ascii_of_string. unfold crypto.translate.
  rewrite rstrip_map by (apply translate_keeps_pad; discriminate).
  rewrite string_of_list_ascii_of_string, Hbody.
  clear E Hbody. induction body as [|c l IH]; [reflexivity|].
  cbn [forallb List.map] in *. apply andb_true_iff in Hok as [Hc Hl].
  destruct (url_char c Hc) as (_ & Hc2 & Hdot). cbv zeta in Hc2, Hdot.
  rewrite Hc2, Hdot. exact (IH Hl).
Qed.

End b64url_facts.

Section compact_facts.
Context `{P : Primitives} {L : PrimitivesLaws P} {B : Base64Laws P}.

Lemma append_assoc (a b c : string) : (a +:+ b) +:+ c = a +:+ (b +:+ c).
Proof. apply string_of_list_inj. rewrite !list_ascii_app. symmetry. apply app_assoc. Qed.

Lemma split_dot_no_dot (s : string) : (forallb (fun c => (code c <? 128) && negb (is_char "." c)) (list_ascii_of_string s) = true) -> crypto.split_dot s = [s].
Proof.
  induction s as [|c s IH]; [reflexivity|].
  cbn [list_ascii_of_string forallb crypto.split_dot].
  intros [[_ Hc]%andb_true_iff Hs]%andb_true_iff.
  apply negb_true_iff in Hc. rewrite Hc, (IH Hs). reflexivity.
Qed.

Lemma split_dot_app (a rest : string) :
  (forallb (fun c => (code c <? 128) && negb (is_char "." c)) (list_ascii_of_string a) = true) ->
  crypto.split_dot (a +:+ String "." rest) = a :: crypto.split_dot rest.
Proof.
  induction a as [|c a IH]; [reflexivity|].
  cbn [list_ascii_of_string forallb].
  intros [[_ Hc]%andb_true_iff Ha]%andb_true_iff.
  apply negb_true_iff in Hc. simpl. rewrite Hc. now rewrite (IH Ha).
Qed.

Lemma token_parts (a b c : string) :
  (a +:+ "." +:+ b) +:+ "." +:+ c = a +:+ String "." (b +:+ String "." c).
Proof.
  apply string_of_list_inj. rewrite !list_ascii_app. cbn [list_ascii_of_string].
  rewrite !list_ascii_app. cbn [list_ascii_of_string]. rewrite <- !app_assoc. reflexivity.
Qed.

Lemma no_dot_is_ascii (a b : string) :
  (forallb (fun c => (code c <? 128) && negb (is_char "." c)) (list_ascii_of_string a) = true) -> (forallb (fun c => (code c <? 128) && negb (is_char "." c)) (list_ascii_of_string b) = true) -> is_ascii (a +:+ "." +:+ b) = true.
Proof.
  unfold is_ascii. intros Ha Hb.
  rewrite !list_ascii_app, !forallb_app. cbn [list_ascii_of_string forallb].
  rewrite forallb_forall in *.
  assert (forall s, (forall x, In x (list_ascii_of_string s) ->
                      (code x <? 128) && negb (is_char "." x) = true) ->
            forallb (fun c => code c <? 128) (list_ascii_of_string s) = true) as Hw.
  { intros s Hs. apply forallb_forall. intros x Hx.
    specialize (Hs x Hx). apply andb_true_iff in Hs. tauto. }
  now rewrite (Hw a Ha), (Hw b Hb).
Qed.

(** What [verify_compact] makes of a token [sign_compact] wrote. *)
Lemma verify_signed (header payload : dict) (sk : bytes) :
  length sk = 32%nat ->
  crypto.verify_compact (crypto.sign_compact header payload sk) (ed25519_verify_key sk)
  = try_except
      (h ← json_loads (encode_utf8 (json_dumps (VDict header)));
       p ← json_loads (encode_utf8 (json_dumps (VDict payload)));
       Ok (h, p))
      [BadSignatureError; ValueError]
      (fun e => raise ValueError ("verification failed: " +:+ exn_msg e)).
Proof.
  intros Hsk. unfold crypto.verify_compact, crypto.sign_compact. cbv zeta.
  set (hb := encode_utf8 (json_dumps (VDict header))).
  set (pb := encode_utf8 (json_dumps (VDict payload))).
  change (rstrip (is_char "=") (crypto.urlsafe_b64encode hb)) with (crypto.b64url hb).
  change (rstrip (is_char "=") (crypto.urlsafe_b64encode pb)) with (crypto.b64url pb).
  set (input := crypto.b64url hb +:+ "." +:+ crypto.b64url pb).
  set (sg := ed25519_sign sk (encode_utf8 input)).
  change (rstrip (is_char "=") (crypto.urlsafe_b64encode sg)) with (crypto.b64url sg).
  assert (crypto.split_dot (input +:+ "." +:+ crypto.b64url sg)
          = [crypto.b64url hb; crypto.b64url pb; crypto.b64url sg]) as ->.
  { subst input. rewrite token_parts.
    rewrite !split_dot_app by apply b64url_text.
    now rewrite split_dot_no_dot by apply b64url_text. }
  rewrite !b64url_decode_b64url. run_bind.
  fold input. unfold input at 1.
  rewrite no_dot_is_ascii by apply b64url_text. fold input. run_bind.
  unfold vk_verify. subst sg. rewrite (sign_length _ _ Hsk), Nat.eqb_refl.
  rewrite (verify_sign _ _ Hsk). run_bind. reflexivity.
Qed.

End compact_facts.

Section compact_sound.
Context `{P : Primitives}.

Lemma try_except_Ok {A} (body : result A) (classes : list exn_class)
    (h : exn -> result A) (a : A) :
  (forall e, exists e', h e = Raise e') ->
  try_except body classes h = Ok a -> body = Ok a.
Proof.
  intros Hh. destruct body as [x|e]; [easy|]. cbn.
  destruct (existsb _ _); [|discriminate]. destruct (Hh e) as [e' ->]. discriminate.
Qed.

(** A token [verify_compact] accepts has three parts, and its third part
    is a signature of the first two under the key. *)
Lemma verify_compact_ok (token : string) (vk : bytes) (header payload : value) :
  crypto.verify_compact token vk = Ok (header, payload) ->
  exists p0 p1 p2 h_b p_b sig_b,
    crypto.split_dot token = [p0; p1; p2] /\
    crypto.b64url_decode p0 = Ok h_b /\
    crypto.b64url_decode p1 = Ok p_b /\
    crypto.b64url_decode p2 = Ok sig_b /\
    length sig_b = 64%nat /\
    ed25519_verify vk (encode_utf8 (p0 +:+ "." +:+ p1)) sig_b = true /\
    json_loads h_b = Ok header /\
    json_loads p_b = Ok payload.
Proof.
  unfold crypto.verify_compact. intros Hv.
  apply try_except_Ok in Hv; [|intros e; eexists; reflexivity].
  destruct (crypto.split_dot token) as [|p0 [|p1 [|p2 [|]]]]; try discriminate.
  revert Hv.
  case_bind (crypto.b64url_decode p0) h_b err0 E0; [|discriminate].
  case_bind (crypto.b64url_decode p1) p_b err1 E1; [|discriminate].
  case_bind (crypto.b64url_decode p2) sig_b err2 E2; [|discriminate].
  destruct (is_ascii (p0 +:+ "." +:+ p1)); run_bind; [|discriminate].
  unfold vk_verify. destruct (Nat.eqb_spec (length sig_b) 64); run_bind; [|discriminate].
  destruct (ed25519_verify vk _ sig_b) eqn:Hsig; run_bind; [|discriminate].
  case_bind (json_loads h_b) h err3 E3; [|discriminate].
  case_bind (json_loads p_b) p err4 E4; [|discriminate].
  intros [= <- <-]. exists p0, p1, p2, h_b, p_b, sig_b. repeat split; assumption.
Qed.

End compact_sound.


(** ** The second small instance satisfies the laws *)
Section padded_facts.
Local Open Scope list_scope.

Lemma hex_length (b : bytes) :
  length (list_ascii_of_string (hex b)) = (2 * length b)%nat.
Proof.
  unfold hex. rewrite list_ascii_roundtrip.
  induction b as [|x b IH]; [reflexivity|]. cbn [flat_map length app]. rewrite IH. lia.
Qed.

Lemma hex_byte_b64 (x : byte) :
  let h1 := hex_digit (Z_of_byte x / 16) in
  let h2 := hex_digit (Z_of_byte x mod 16) in
  is_b64_char h1 = true /\ is_b64_char h2 = true /\
  is_char "=" h1 = false /\ is_char "=" h2 = false.
Proof. destruct x; vm_compute; repeat split. Qed.

Lemma hex_chars (b : bytes) :
  forallb (fun c => is_b64_char c && negb (is_char "=" c))
    (list_ascii_of_string (hex b)) = true.
Proof.
  unfold hex. rewrite list_ascii_roundtrip.
  induction b as [|x b IH]; [reflexivity|]. cbn [flat_map app forallb].
  destruct (hex_byte_b64 x) as (-> & -> & -> & ->). exact IH.
Qed.

Lemma lstrip_pad (p : ascii -> bool) (pre rest : list ascii) :
  forallb p pre = true ->
  match rest with [] => True | c :: _ => p c = false end ->
  lstrip p (string_of_list_ascii (pre ++ rest)) = string_of_list_ascii rest.
Proof.
  intros Hpre Hrest. induction pre as [|c pre IH].
  - destruct rest as [|c rest]; [reflexivity|]. cbn. now rewrite Hrest.
  - cbn [forallb] in Hpre. apply andb_true_iff in Hpre as [Hc Hpre].
    cbn. rewrite Hc. now apply IH.
Qed.

Lemma rstrip_pad (p : ascii -> bool) (s t : string) :
  forallb (fun c => negb (p c)) (list_ascii_of_string s) = true ->
  forallb p (list_ascii_of_string t) = true ->
  rstrip p (s +:+ t) = s.
Proof.
  intros Hs Ht. unfold rstrip. unfold string_rev at 2.
  rewrite list_ascii_app, rev_app_distr, lstrip_pad.
  - unfold string_rev. rewrite list_ascii_roundtrip, rev_involutive.
    apply string_of_list_ascii_of_string.
  - rewrite forallb_forall in *. intros c Hc. apply Ht. now apply in_rev.
  - destruct (rev (list_ascii_of_string s)) as [|c l] eqn:E; [exact I|].
    rewrite forallb_forall in Hs. apply negb_true_iff, Hs, in_rev. rewrite E. now left.
Qed.

Lemma b64pad_shape (b : bytes) : b64_shape (toy.b64pad b) = true.
Proof.
  unfold b64_shape, toy.b64pad. cbv zeta.
  pose proof (hex_chars b) as Hchars. pose proof (hex_length b) as Hlen.
  rewrite rstrip_pad.
  - rewrite !string_length_list, list_ascii_app, length_app, Hlen.
    apply andb_true_iff. split; [apply andb_true_iff; split|].
    + rewrite forallb_forall in *. intros c Hc. specialize (Hchars c Hc).
      apply andb_true_iff in Hchars. tauto.
    + apply Nat.leb_le. destruct (Nat.even (length b)); cbn; lia.
    + apply Nat.eqb_eq. destruct (Nat.even (length b)) eqn:Heven.
      * apply Nat.even_spec in Heven as [q ->]. cbn [list_ascii_of_string length].
        replace (2 * (2 * q) + 0)%nat with (q * 4)%nat by lia. apply Nat.Div0.mod_mul.
      * apply (f_equal negb) in Heven. rewrite Nat.negb_even in Heven. cbn in Heven.
        apply Nat.odd_spec in Heven as [q ->]. cbn [list_ascii_of_string length].
        replace (2 * (2 * q + 1) + 2)%nat with ((q + 1) * 4)%nat by lia.
        apply Nat.Div0.mod_mul.
  - rewrite forallb_forall in *. intros c Hc. specialize (Hchars c Hc).
    apply andb_true_iff in Hchars. tauto.
  - destruct (Nat.even (length b)); reflexivity.
Qed.

Lemma b64pad_ascii (b : bytes) : is_ascii (toy.b64pad b) = true.
Proof.
  unfold is_ascii, toy.b64pad. rewrite list_ascii_app, forallb_app.
  pose proof (hex_is_ascii b) as Hhex. unfold is_ascii in Hhex. rewrite Hhex.
  destruct (Nat.even (length b)); reflexivity.
Qed.

Lemma b64pad_roundtrip (b : bytes) : toy.unhex (toy.b64pad b) = Some b.
Proof.
  assert (remove_char "=" (toy.b64pad b) = remove_char "=" (hex b)) as E.
  { unfold remove_char, toy.b64pad. f_equal.
    rewrite list_ascii_app, List.filter_app.
    destruct (Nat.even (length b)); cbn; now rewrite app_nil_r. }
  unfold toy.unhex. rewrite E. apply toy_hex_roundtrip.
Qed.

Lemma padded_laws (docs : list (string * value)) : PrimitivesLaws (toy.padded docs).
Proof.
  split; cbn.
  - intros seed Hlen. exact Hlen.
  - intros seed msg _. apply toy_cut_length.
  - intros seed msg _. unfold toy.verify, toy.sign, toy.verify_key.
    now rewrite bool_decide_eq_true_2.
  - apply b64pad_ascii.
  - apply b64pad_roundtrip.
  - reflexivity.
Qed.

Lemma padded_base64 (docs : list (string * value)) : Base64Laws (toy.padded docs).
Proof. split. cbn. apply b64pad_shape. Qed.

End padded_facts.

(** X15.  The URL-safe base64 text without padding decodes to the bytes it
    was made from, [b64url_decode(b64url(data)) == data], and it is ASCII
    text without a dot, so that the parts of a compact token can be told
    apart (for base64 text of the standard shape). *)
Theorem b64url_round_trip `{P : Primitives} {L : PrimitivesLaws P} {B : Base64Laws P}
    (data : bytes) :
  crypto.b64url_decode (crypto.b64url data) = Ok data /\
  is_ascii (crypto.b64url data) = true /\
  crypto.split_dot (crypto.b64url data) = [crypto.b64url data].
Proof.
  split; [apply b64url_decode_b64url|].
  pose proof (b64url_text data) as Htext. split.
  - unfold is_ascii. rewrite forallb_forall in *. intros c Hc.
    specialize (Htext c Hc). apply andb_true_iff in Htext. tauto.
  - now apply split_dot_no_dot.
Qed.

Lemma b64url_round_trip_witness :
  let text := crypto.b64url (H := toy.padded []) [x01; x02; x03] in
  crypto.b64url_decode (H := toy.padded []) text = Ok [x01; x02; x03] /\
  is_ascii text = true /\
  crypto.split_dot text = [text].
Proof.
  exact (b64url_round_trip (P := toy.padded []) (L := padded_laws []) (B := padded_base64 [])
           [x01; x02; x03]).
Defined.

(** X16.  A token written by [sign_compact] with a 32-byte key is accepted
    by [verify_compact] under the matching verifying key: the token has
    three parts, each decodes, the signature verifies, and the result is
    what [json.loads] makes of the canonical JSON of header and payload. *)
Theorem sign_then_verify_compact `{P : Primitives} {L : PrimitivesLaws P}
    {B : Base64Laws P} (header payload : dict) (sk : bytes) (h p : value) :
  length sk = 32%nat ->
  json_loads (encode_utf8 (json_dumps (VDict header))) = Ok h ->
  json_loads (encode_utf8 (json_dumps (VDict payload))) = Ok p ->
  crypto.verify_compact (crypto.sign_compact header payload sk) (ed25519_verify_key sk)
  = Ok (h, p).
Proof.
  intros Hsk Hh Hp. rewrite (verify_signed _ _ _ Hsk), Hh, Hp. reflexivity.
Qed.

Lemma sign_then_verify_compact_witness :
  crypto.verify_compact (H := toy.padded examples.issue_docs) examples.issued_token
    (ed25519_verify_key (Primitives := toy.padded examples.issue_docs) examples.seed)
  = Ok (VDict examples.issue_header, VDict examples.issue_payload).
Proof.
  exact (sign_then_verify_compact (P := toy.padded examples.issue_docs)
           (L := padded_laws _) (B := padded_base64 _)
           examples.issue_header examples.issue_payload examples.seed
           (VDict examples.issue_header) (VDict examples.issue_payload)
           eq_refl ltac:(vm_compute; reflexivity) ltac:(vm_compute; reflexivity)).
Defined.

(** ** The service: [/issue], [/verify], [/revoke] *)

(** X17.  What a [valid=True] answer of [/verify] certifies: the token has
    three parts, the third is an Ed25519 signature of the first two that
    verifies under the service key, the payload is a JSON object whose
    [exp] is not before the clock reading, whose [jti] is present and not
    in the revocation ledger, and the answer repeats the payload's [sub],
    [scope], [org_id], [exp], [kid] and [jti]. *)
Theorem verify_valid_sound `{P : Primitives} (vk : bytes) (now : Z)
    (req : authy_server.VerifyReq.t) (db : storage.database)
    (resp : authy_server.VerifyResp.t) :
  authy_server.verify vk now req db = Ok resp ->
  authy_server.VerifyResp.valid resp = true ->
  exists p0 p1 p2 sig_b p_b payload,
    crypto.split_dot (authy_server.VerifyReq.token req) = [p0; p1; p2] /\
    crypto.b64url_decode p2 = Ok sig_b /\
    ed25519_verify vk (encode_utf8 (p0 +:+ "." +:+ p1)) sig_b = true /\
    crypto.b64url_decode p1 = Ok p_b /\
    json_loads p_b = Ok (VDict payload) /\
    lt_int (dict_get payload "exp" (VInt 0)) now = Ok false /\
    truthy (dict_get payload "jti" VNone) = true /\
    storage.is_revoked (dict_get payload "jti" VNone) db = Ok false /\
    resp = {| authy_server.VerifyResp.valid := true;
              authy_server.VerifyResp.sub := dict_get payload "sub" VNone;
              authy_server.VerifyResp.scope := dict_get payload "scope" VNone;
              authy_server.VerifyResp.org_id := dict_get payload "org_id" VNone;
              authy_server.VerifyResp.exp := dict_get payload "exp" VNone;
              authy_server.VerifyResp.kid := dict_get payload "kid" VNone;
              authy_server.VerifyResp.jti := dict_get payload "jti" VNone;
              authy_server.VerifyResp.reason := VNone |}.
Proof.
  unfold authy_server.verify.
  destruct (crypto.verify_compact _ _) as [[header payload]|e] eqn:Hv.
  2: { intros [= <-]. discriminate. }
  apply verify_compact_ok in Hv
    as (p0 & p1 & p2 & h_b & p_b & sig_b & Hs & _ & H1 & H2 & _ & Hsig & _ & Hp).
  case_bind (authy_server.as_dict payload) d e E1; [|discriminate].
  destruct payload; try discriminate. injection E1 as ->.
  case_bind (lt_int (dict_get d "exp" (VInt 0)) now) expired e E2; [|discriminate].
  destruct expired; [intros [= <-]; discriminate|].
  destruct (truthy (dict_get d "jti" VNone)) eqn:Ht; cbn [negb];
    [|intros [= <-]; discriminate].
  case_bind (storage.is_revoked (dict_get d "jti" VNone) db) revoked e E3; [|discriminate].
  destruct revoked; [intros [= <-]; discriminate|].
  intros [= <-] _. exists p0, p1, p2, sig_b, p_b, d. repeat split; assumption.
Qed.


Lemma verify_valid_sound_witness :
  exists p0 p1 p2 sig_b p_b payload,
    crypto.split_dot examples.issued_token = [p0; p1; p2] /\
    crypto.b64url_decode (H := toy.padded examples.issue_docs) p2 = Ok sig_b /\
    ed25519_verify (Primitives := toy.padded examples.issue_docs)
      (ed25519_verify_key (Primitives := toy.padded examples.issue_docs) examples.seed)
      (encode_utf8 (p0 +:+ "." +:+ p1)) sig_b = true /\
    crypto.b64url_decode (H := toy.padded examples.issue_docs) p1 = Ok p_b /\
    json_loads (Primitives := toy.padded examples.issue_docs) p_b = Ok (VDict payload) /\
    lt_int (dict_get payload "exp" (VInt 0)) 1030 = Ok false /\
    truthy (dict_get payload "jti" VNone) = true /\
    storage.is_revoked (H := toy.padded examples.issue_docs)
      (dict_get payload "jti" VNone) examples.no_revocations = Ok false /\
    {| authy_server.VerifyResp.valid := true;
       authy_server.VerifyResp.sub := VStr "alice";
       authy_server.VerifyResp.scope := VList [VStr "demo:read"];
       authy_server.VerifyResp.org_id := VNone;
       authy_server.VerifyResp.exp := VInt 1060;
       authy_server.VerifyResp.kid := VInt 1;
       authy_server.VerifyResp.jti := VStr examples.issue_jti;
       authy_server.VerifyResp.reason := VNone |}
    = {| authy_server.VerifyResp.valid := true;
         authy_server.VerifyResp.sub := dict_get payload "sub" VNone;
         authy_server.VerifyResp.scope := dict_get payload "scope" VNone;
         authy_server.VerifyResp.org_id := dict_get payload "org_id" VNone;
         authy_server.VerifyResp.exp := dict_get payload "exp" VNone;
         authy_server.VerifyResp.kid := dict_get payload "kid" VNone;
         authy_server.VerifyResp.jti := dict_get payload "jti" VNone;
         authy_server.VerifyResp.reason := VNone |}.
Proof.
  exact (verify_valid_sound (P := toy.padded examples.issue_docs)
           (ed25519_verify_key (Primitives := toy.padded examples.issue_docs) examples.seed)
           1030 {| authy_server.VerifyReq.token := examples.issued_token |}
           examples.no_revocations _
           ltac:(vm_compute; reflexivity) eq_refl).
Defined.



(** X19.  [/revoke] with a [jti]: the identifier is written to the ledger
    and [is_revoked] then says yes; the [token] field is not looked at,
    whatever it holds; and a second revocation of the same identifier
    replaces the row (time and reason) of the first. *)
Theorem revoke_by_jti `{P : Primitives} {L : PrimitivesLaws P} (vk : bytes)
    (now now2 : Z) (J : string) (tok tok2 : option string) (r r2 : option string)
    (db : storage.database) :
  J <> "" ->
  let req := {| authy_server.RevokeReq.token := tok;
                authy_server.RevokeReq.jti := Some J;
                authy_server.RevokeReq.reason := r |} in
  let req2 := {| authy_server.RevokeReq.token := tok2;
                 authy_server.RevokeReq.jti := Some J;
                 authy_server.RevokeReq.reason := r2 |} in
  let db1 :=
    storage.Database
      (<[J := storage.Revocation now (authy_server.opt_str r) (VStr "api")]>
         (storage.revocations db)) in
  authy_server.revoke vk now req db = (Ok (VStr J), db1) /\
  storage.is_revoked (VStr J) db1 = Ok true /\
  (authy_server.revoke vk now2 req2 db1).2 = (authy_server.revoke vk now2 req2 db).2.
Proof.
  intros HJ req req2 db1. apply String.eqb_neq in HJ.
  assert (forall t n rr d,
            authy_server.revoke vk n
              {| authy_server.RevokeReq.token := t; authy_server.RevokeReq.jti := Some J;
                 authy_server.RevokeReq.reason := rr |} d
            = (Ok (VStr J),
               storage.Database
                 (<[J := storage.Revocation n (authy_server.opt_str rr) (VStr "api")]>
                    (storage.revocations d)))) as Hrev.
  { intros t n rr d. unfold authy_server.revoke.
    cbn [authy_server.RevokeReq.token authy_server.RevokeReq.jti
         authy_server.RevokeReq.reason authy_server.opt_str truthy].
    rewrite HJ. cbn [negb]. rewrite andb_false_r. cbn [truthy]. rewrite HJ. cbn [negb].
    unfold storage.revoke_jti. rewrite sqlite_text_str. reflexivity. }
  split; [apply Hrev|]. split.
  - unfold storage.is_revoked. rewrite sqlite_text_str. run_bind. subst db1.
    cbn [storage.revocations]. rewrite lookup_insert_eq.
    now rewrite bool_decide_eq_true_2.
  - subst req2. rewrite !Hrev. subst db1. cbn [snd storage.revocations].
    now rewrite insert_insert_eq.
Qed.

Lemma revoke_by_jti_witness :
  let req := {| authy_server.RevokeReq.token := Some "junk";
                authy_server.RevokeReq.jti := Some "J";
                authy_server.RevokeReq.reason := None |} in
  let db1 := storage.Database (<["J" := storage.Revocation 50 VNone (VStr "api")]> ∅) in
  authy_server.revoke (H := toy.primitives) [] 50 req examples.no_revocations
    = (Ok (VStr "J"), db1) /\
  storage.is_revoked (H := toy.primitives) (VStr "J") db1 = Ok true /\
  (authy_server.revoke (H := toy.primitives) [] 70 examples.revoke_J db1).2
    = (authy_server.revoke (H := toy.primitives) [] 70 examples.revoke_J
         examples.no_revocations).2.
Proof.
  exact (revoke_by_jti (P := toy.primitives) (L := toy_laws) [] 50 70 "J"
           (Some "junk") None None None examples.no_revocations ltac:(discriminate)).
Defined.
(** ** The key file *)
Section keypair_facts.
Context `{P : Primitives}.

Lemma lstrip_all (p : ascii -> bool) (s : string) :
  forallb p (list_ascii_of_string s) = true -> lstrip p s = "".
Proof.
  induction s as [|c s IH]; [reflexivity|]. cbn.
  intros [Hc Hs]%andb_true_iff. rewrite Hc. now apply IH.
Qed.

(** A path without a [/] has no directory part. *)
Lemma dirname_bare (p : string) :
  forallb (fun c => negb (is_char "/" c)) (list_ascii_of_string p) = true ->
  os.dirname p = "".
Proof.
  intros Hp. unfold os.dirname.
  rewrite (lstrip_all _ (string_rev p)); [reflexivity|].
  unfold string_rev. rewrite list_ascii_roundtrip.
  rewrite forallb_forall in *. intros c Hc. apply Hp. now apply in_rev.
Qed.

End keypair_facts.

(** X20.  A [KEY_PATH] without a directory part (no [/], such as
    [ed25519.key]) stops [ensure_keypair]: [os.makedirs] is called with
    the empty string and raises, before any key is read or written. *)
Theorem ensure_keypair_bare_file_name `{P : Primitives} (environ : gmap string string)
    (seed : bytes) (fs : os.filesystem) :
  forallb (fun c => negb (is_char "/" c))
    (list_ascii_of_string (config.KEY_PATH environ)) = true ->
  crypto.ensure_keypair environ seed fs
  = (Raise (Exn OSError "No such file or directory: ''"), fs).
Proof.
  intros Hp. unfold crypto.ensure_keypair, os.makedirs.
  rewrite (dirname_bare _ Hp). reflexivity.
Qed.

(** X21.  The key survives a restart: after [ensure_keypair] has generated
    a 32-byte key and written it to [KEY_PATH] (a path in normal form with
    a directory part, nothing at the path and no regular file in the place
    of its directory or of one above it), a later call returns that same
    key pair, whatever the generator would draw then, and leaves the files
    as they are. *)
Theorem ensure_keypair_persistent `{P : Primitives} (environ : gmap string string)
    (seed seed' : bytes) (fs : os.filesystem) :
  let path := config.KEY_PATH environ in
  length seed = 32%nat ->
  os.normal path = true ->
  os.dirname path <> "" ->
  (forall a, a ∈ os.ancestors (os.dirname path) -> os.files fs !! a = None) ->
  os.files fs !! path = None ->
  path ∉ os.dirs fs ->
  let first := crypto.ensure_keypair environ seed fs in
  first.1 = Ok (seed, ed25519_verify_key seed) /\
  crypto.ensure_keypair environ seed' first.2 = (Ok (seed, ed25519_verify_key seed), first.2).
Proof.
  intros path Hseed Hnormal Hdir Hfree Hnofile Hnotdir. cbv zeta.
  rewrite (ensure_keypair_generates environ seed fs Hnormal Hdir Hfree Hnofile Hnotdir).
  cbn [fst snd]. split; [reflexivity|].
  now apply ensure_keypair_reads.
Qed.

Section keypair_examples.
#[local] Existing Instance toy.primitives.

Lemma ensure_keypair_bare_file_name_witness :
  crypto.ensure_keypair {[ "KEY_PATH" := "ed25519.key" ]} examples.seed examples.empty_disk
  = (Raise (Exn OSError "No such file or directory: ''"), examples.empty_disk).
Proof.
  exact (ensure_keypair_bare_file_name {[ "KEY_PATH" := "ed25519.key" ]} examples.seed
           examples.empty_disk eq_refl).
Defined.

Lemma ensure_keypair_persistent_witness :
  let first := crypto.ensure_keypair ∅ examples.seed examples.empty_disk in
  first.1 = Ok (examples.seed, ed25519_verify_key examples.seed) /\
  crypto.ensure_keypair ∅ (replicate 32 x02) first.2
    = (Ok (examples.seed, ed25519_verify_key examples.seed), first.2).
Proof.
  apply (ensure_keypair_persistent ∅ examples.seed (replicate 32 x02) examples.empty_disk);
    [reflexivity | reflexivity | discriminate | intros a _; reflexivity
    | reflexivity | apply not_elem_of_empty].
Defined.

End keypair_examples.
(** ** The signed message *)
Section pack_facts.
Local Open Scope list_scope.
Context `{P : Primitives}.

Lemma pack_items (f : value -> string) (a s c t n : value) :
  sort_items
    (map_fold (fun k x acc => (k, f x) :: acc) []
       ({[ "agent_id" := a; "session_id" := s; "commitment" := c;
           "ttl_s" := t; "nonce" := n ]} : dict))
  = [("agent_id", f a); ("commitment", f c); ("nonce", f n);
     ("session_id", f s); ("ttl_s", f t)].
Proof. vm_compute. reflexivity. Qed.

(** The text [pack_message] encodes: the five fields in the order of
    their names. *)
Lemma pack_message_text (a s c t n : value) :
  passport.pack_message a s c t n
  = encode_utf8
      ("{" +:+ json_string "agent_id" +:+ ":" +:+ json_dumps a +:+ ","
           +:+ json_string "commitment" +:+ ":" +:+ json_dumps c +:+ ","
           +:+ json_string "nonce" +:+ ":" +:+ json_dumps n +:+ ","
           +:+ json_string "session_id" +:+ ":" +:+ json_dumps s +:+ ","
           +:+ json_string "ttl_s" +:+ ":" +:+ json_dumps t +:+ "}").
Proof.
  unfold passport.pack_message. cbv zeta. f_equal.
  change (json_dumps (VDict ?d))
    with ("{" +:+
          String.concat ","
            (List.map (fun kv : string * string => json_string kv.1 +:+ ":" +:+ kv.2)
               (sort_items (map_fold (fun k x acc => (k, json_dumps x) :: acc) [] d)))
          +:+ "}").
  rewrite pack_items. cbn [List.map String.concat fst snd].
  apply string_of_list_inj. rewrite !list_ascii_app, <- !app_assoc. reflexivity.
Qed.

(** The UTF-8 bytes of a character tell the character and where it ends. *)
Lemma utf8_prefix (c c' : ascii) (r r' : bytes) :
  (let n := code c in
   if n <? 128 then [byte_of_Z n]
   else [byte_of_Z (Z.lor 192 (Z.shiftr n 6)); byte_of_Z (Z.lor 128 (Z.land n 63))]) ++ r
  = (let n := code c' in
     if n <? 128 then [byte_of_Z n]
     else [byte_of_Z (Z.lor 192 (Z.shiftr n 6)); byte_of_Z (Z.lor 128 (Z.land n 63))]) ++ r' ->
  c = c' /\ r = r'.
Proof.
  set (enc := fun c : ascii =>
         let n := code c in
         if n <? 128 then [byte_of_Z n]
         else [byte_of_Z (Z.lor 192 (Z.shiftr n 6)); byte_of_Z (Z.lor 128 (Z.land n 63))]).
  set (dec := fun l : bytes =>
         match l with
         | [] => None
         | b :: rest =>
             if Z_of_byte b <? 128 then Some (chr (Z_of_byte b), rest)
             else match rest with
                  | [] => None
                  | b2 :: rest' =>
                      Some (chr (Z.lor (Z.shiftl (Z.land (Z_of_byte b) 3) 6)
                                   (Z.land (Z_of_byte b2) 63)), rest')
                  end
         end).
  assert (forall x t, dec (enc x ++ t) = Some (x, t)) as Hdec.
  { intros x t. destruct x as [[] [] [] [] [] [] [] []]; reflexivity. }
  change (enc c ++ r = enc c' ++ r' -> c = c' /\ r = r').
  intros E. apply (f_equal dec) in E. rewrite !Hdec in E. now injection E.
Qed.

Lemma encode_utf8_inj (s s' : string) : encode_utf8 s = encode_utf8 s' -> s = s'.
Proof.
  intros E. apply string_of_list_inj. revert E. unfold encode_utf8.
  generalize (list_ascii_of_string s') as l'. generalize (list_ascii_of_string s) as l.
  clear s s'. induction l as [|c l IH]; intros [|c' l'] E.
  - reflexivity.
  - cbn [flat_map] in E. apply (f_equal (fun l => match l with [] => true | _ => false end)) in E.
    destruct c' as [[] [] [] [] [] [] [] []]; discriminate E.
  - cbn [flat_map] in E. apply (f_equal (fun l => match l with [] => true | _ => false end)) in E.
    destruct c as [[] [] [] [] [] [] [] []]; discriminate E.
  - cbn [flat_map] in E. apply utf8_prefix in E as [-> Hl].
    f_equal. now apply IH.
Qed.

End pack_facts.

Section json_string_facts.
Local Open Scope list_scope.
Context `{P : Primitives}.

Lemma concat_empty_cons (x : string) (xs : list string) :
  list_ascii_of_string (String.concat "" (x :: xs))
  = list_ascii_of_string x ++ list_ascii_of_string (String.concat "" xs).
Proof.
  cbn [String.concat]. destruct xs as [|y ys]; [now rewrite app_nil_r|].
  now rewrite !list_ascii_app.
Qed.

(** The escape of a character tells the character and where it ends, and
    never starts with the closing quote. *)
Lemma escape_prefix :
  exists dec : list ascii -> option (ascii * list ascii),
    (forall c r, dec (list_ascii_of_string (escape_char c) ++ r) = Some (c, r)) /\
    (forall r, dec (chr 34 :: r) = None).
Proof.
  exists (fun l =>
    match l with
    | [] => None
    | x :: r =>
        if code x =? 34 then None
        else if code x =? 92 then
          match r with
          | [] => None
          | y :: r' =>
              if code y =? 34 then Some (chr 34, r')
              else if code y =? 92 then Some (chr 92, r')
              else if code y =? 110 then Some (chr 10, r')
              else if code y =? 114 then Some (chr 13, r')
              else if code y =? 116 then Some (chr 9, r')
              else if code y =? 98 then Some (chr 8, r')
              else if code y =? 102 then Some (chr 12, r')
              else
                match r' with
                | _ :: _ :: h1 :: h2 :: r'' =>
                    match hex_value h1, hex_value h2 with
                    | Some a, Some b => Some (chr (16 * a + b), r'')
                    | _, _ => None
                    end
                | _ => None
                end
          end
        else Some (x, r)
    end).
  split; [|reflexivity].
  intros c r. destruct c as [[] [] [] [] [] [] [] []]; reflexivity.
Qed.

Lemma escaped_inj (l l' : list ascii) (r r' : list ascii) :
  list_ascii_of_string (String.concat "" (List.map escape_char l)) ++ chr 34 :: r
  = list_ascii_of_string (String.concat "" (List.map escape_char l')) ++ chr 34 :: r' ->
  l = l' /\ r = r'.
Proof.
  destruct escape_prefix as (dec & Hdec & Hquote).
  revert l'. induction l as [|c l IH]; intros [|c' l'] E.
  - cbn in E. now injection E.
  - cbn [List.map] in E. rewrite concat_empty_cons, <- app_assoc in E.
    apply (f_equal dec) in E. cbn [String.concat list_ascii_of_string app] in E.
    rewrite Hdec, Hquote in E. discriminate.
  - cbn [List.map] in E. rewrite concat_empty_cons, <- app_assoc in E.
    apply (f_equal dec) in E. cbn [String.concat list_ascii_of_string app] in E.
    rewrite Hdec, Hquote in E. discriminate.
  - cbn [List.map] in E. rewrite !concat_empty_cons, <- !app_assoc in E.
    apply (f_equal dec) in E. rewrite !Hdec in E. injection E as -> E.
    apply IH in E as [-> ->]. now split.
Qed.

(** A JSON string ends where its closing quote is. *)
Lemma json_string_inj_app (a a' r r' : string) :
  json_string a +:+ r = json_string a' +:+ r' -> a = a' /\ r = r'.
Proof.
  intros E. apply (f_equal list_ascii_of_string) in E.
  unfold json_string in E. rewrite !list_ascii_app in E.
  change (list_ascii_of_string dquote) with [chr 34] in E.
  rewrite <- !app_assoc in E. cbn [app] in E. injection E as E.
  apply escaped_inj in E as [Hl Hr].
  split; now apply string_of_list_inj.
Qed.

Lemma append_inj_r (s s' t : string) : s +:+ t = s' +:+ t -> s = s'.
Proof.
  intros E. apply string_of_list_inj. apply (f_equal list_ascii_of_string) in E.
  rewrite !list_ascii_app in E. now apply app_inv_tail in E.
Qed.

End json_string_facts.

(** X26.  The signed message tells its five fields apart, for fields that
    are text of code points below 256 (the strings of the model) and an
    integer [ttl_s] that [json.dumps] writes (at most 4300 digits): two
    calls of [pack_message] that differ in the agent or session
    identifier, the commitment, the lifetime or the nonce give different
    bytes. *)
Theorem pack_message_inj `{P : Primitives} (a s c n a' s' c' n' : string) (t t' : Z)
    (room : nat) :
  json_dumps_returns room (VInt t) = true ->
  json_dumps_returns room (VInt t') = true ->
  (a, s, c, t, n) <> (a', s', c', t', n') ->
  passport.pack_message (VStr a) (VStr s) (VStr c) (VInt t) (VStr n)
  <> passport.pack_message (VStr a') (VStr s') (VStr c') (VInt t') (VStr n').
Proof.
  intros _ _ Hne E. apply Hne. clear Hne.
  rewrite !pack_message_text in E. apply encode_utf8_inj in E.
  cbn [json_dumps] in E.
  apply (inj (String.append _)) in E. apply (inj (String.append _)) in E.
  apply (inj (String.append _)) in E. apply json_string_inj_app in E as [-> E].
  do 3 apply (inj (String.append _)) in E. apply json_string_inj_app in E as [-> E].
  do 3 apply (inj (String.append _)) in E. apply json_string_inj_app in E as [-> E].
  do 3 apply (inj (String.append _)) in E. apply json_string_inj_app in E as [-> E].
  do 3 apply (inj (String.append _)) in E.
  apply append_inj_r, (inj pretty) in E. now subst.
Qed.

Lemma pack_message_inj_witness :
  passport.pack_message (H := toy.primitives)
    (VStr "a") (VStr "bc") (VStr "c0ffee") (VInt 60) (VStr examples.nonce)
  <> passport.pack_message (H := toy.primitives)
       (VStr "ab") (VStr "c") (VStr "c0ffee") (VInt 60) (VStr examples.nonce).
Proof.
  exact (pack_message_inj (P := toy.primitives) "a" "bc" "c0ffee" examples.nonce
           "ab" "c" "c0ffee" examples.nonce 60 60 0
           ltac:(vm_compute; reflexivity) ltac:(vm_compute; reflexivity)
           ltac:(discriminate)).
Defined.
(** ** Scopes *)
Section scope_facts.
Local Open Scope list_scope.

Lemma append_nil_r (s : string) : s +:+ "" = s.
Proof.
  apply string_of_list_inj. rewrite list_ascii_app. apply app_nil_r.
Qed.

Lemma append_eq_nil (s t : string) : s +:+ t = "" -> s = "" /\ t = "".
Proof. destruct s; [now split | discriminate]. Qed.

(** Reading on in a word. *)
Lemma split_from_word (w t rest : string) :
  forallb (fun c => negb (is_whitespace c)) (list_ascii_of_string t) = true ->
  split_from w (t +:+ rest) = split_from (w +:+ t) rest.
Proof.
  revert w. induction t as [|c t IH]; intros w Ht.
  - now rewrite append_nil_r.
  - cbn [list_ascii_of_string forallb] in Ht. apply andb_true_iff in Ht as [Hc Ht].
    apply negb_true_iff in Hc.
    change (String c t +:+ rest) with (String c (t +:+ rest)).
    cbn [split_from]. rewrite Hc, (IH _ Ht).
    f_equal. apply string_of_list_inj. rewrite !list_ascii_app.
    cbn [list_ascii_of_string]. now rewrite <- app_assoc.
Qed.

(** [" ".join(l).split() == l] for words. *)
Lemma split_join (l : list string) :
  Forall (fun t => t <> "" /\
            forallb (fun c => negb (is_whitespace c)) (list_ascii_of_string t) = true) l ->
  split (String.concat " " l) = l.
Proof.
  unfold split. induction 1 as [|t l [Hne Ht] Hl IH]; [reflexivity|].
  cbn [String.concat]. destruct l as [|t' l].
  - rewrite <- (append_nil_r t) at 1. rewrite split_from_word by exact Ht.
    cbn [split_from]. change ("" +:+ t) with t.
    apply String.eqb_neq in Hne. now rewrite Hne.
  - rewrite split_from_word by exact Ht.
    change (" " +:+ String.concat " " (t' :: l))
      with (String " " (String.concat " " (t' :: l))).
    cbn [split_from]. change (is_whitespace " ") with true. cbn iota.
    apply String.eqb_neq in Hne. change ("" +:+ t) with t. rewrite Hne. now rewrite IH.
Qed.

(** What [split] returns are words. *)
Lemma split_from_words (w s : string) :
  forallb (fun c => negb (is_whitespace c)) (list_ascii_of_string w) = true ->
  Forall (fun t => t <> "" /\
            forallb (fun c => negb (is_whitespace c)) (list_ascii_of_string t) = true)
    (split_from w s).
Proof.
  revert w. induction s as [|c s IH]; intros w Hw; cbn [split_from].
  - destruct (String.eqb_spec w ""); [constructor|].
    constructor; [now split | constructor].
  - destruct (is_whitespace c) eqn:Hc.
    + destruct (String.eqb_spec w ""); [now apply IH|].
      constructor; [now split | now apply IH].
    + apply IH. rewrite list_ascii_app, forallb_app, Hw. cbn. now rewrite Hc.
Qed.

End scope_facts.

(** A claim written from words is read back as these words. *)
Lemma scope_read_back (l : list string) :
  Forall (fun t => t <> "" /\
            forallb (fun c => negb (is_whitespace c)) (list_ascii_of_string t) = true) l ->
  str_split (or_else (dict_get ({[ "scope" := VStr (String.concat " " l) ]} : dict)
                        "scope" VNone) (VStr "")) = Ok l.
Proof.
  intros Hl. unfold dict_get. rewrite lookup_singleton_eq. cbn [default from_option id].
  unfold or_else. cbn [truthy].
  destruct (String.eqb_spec (String.concat " " l) "") as [E|_]; cbn [negb str_split].
  - rewrite <- E. now rewrite split_join.
  - now rewrite split_join.
Qed.

Lemma granted_decide (l : list string) (needed : list string) :
  forallb (auth0_utils.granted l) needed = forallb (fun s => bool_decide (s ∈ l)) needed.
Proof.
  induction needed as [|x xs IH]; [reflexivity|]. cbn [forallb]. rewrite IH. f_equal.
  unfold auth0_utils.granted. destruct (existsb _ l) eqn:E.
  - apply existsb_exists in E as (y & Hy & ->%String.eqb_eq).
    symmetry. apply bool_decide_eq_true_2. now apply list_elem_of_In.
  - symmetry. apply bool_decide_eq_false_2. intros Hx%list_elem_of_In.
    assert (existsb (String.eqb x) l = true) as E'; [|congruence].
    apply existsb_exists. exists x. split; [exact Hx | apply String.eqb_refl].
Qed.

(** X22.  A scope claim written from a list of scopes grants exactly
    those scopes: for words [l] (non-empty, free of white space),
    [get_user_scopes] reads [" ".join(l)] back as [l], and
    [require_scopes] answers [True] exactly when every needed scope is a
    member of [l]. *)
Theorem scope_claim_round_trip (l needed : list string) (st : auth0_utils.state) :
  Forall (fun t => t <> "" /\
            forallb (fun c => negb (is_whitespace c)) (list_ascii_of_string t) = true) l ->
  let claims : dict := {[ "scope" := VStr (String.concat " " l) ]} in
  auth0_utils.get_user_scopes claims = Ok l /\
  (auth0_utils.require_scopes claims needed st).1
    = Ok (forallb (fun s => bool_decide (s ∈ l)) needed).
Proof.
  intros Hl claims. pose proof (scope_read_back l Hl) as Hsplit. fold claims in Hsplit.
  split; [exact Hsplit|].
  unfold auth0_utils.require_scopes. destruct needed as [|s needed]; [reflexivity|].
  cbv zeta. rewrite Hsplit, granted_decide.
  destruct (negb _); reflexivity.
Qed.

Lemma scope_claim_round_trip_witness :
  let claims : dict := {[ "scope" := VStr (String.concat " " ["db:read"; "db:write"]) ]} in
  auth0_utils.get_user_scopes claims = Ok ["db:read"; "db:write"] /\
  (auth0_utils.require_scopes claims ["db:write"; "db:admin"] auth0_utils.initial).1
    = Ok (forallb (fun s => bool_decide (s ∈ ["db:read"; "db:write"]))
            ["db:write"; "db:admin"]).
Proof.
  apply (scope_claim_round_trip ["db:read"; "db:write"] ["db:write"; "db:admin"]
           auth0_utils.initial).
  repeat constructor; discriminate.
Defined.

(** X23.  A needed scope that is empty or contains white space is never
    granted: whatever the claims hold, [require_scopes] with such a scope
    among the needed ones answers [False], or raises [AttributeError] when
    the scope claim is not a string; it never answers [True]. *)
Theorem require_scopes_rejects_blank (claims : dict) (needed : list string)
    (st : auth0_utils.state) (s : string) :
  In s needed ->
  s = "" \/ existsb is_whitespace (list_ascii_of_string s) = true ->
  (auth0_utils.require_scopes claims needed st).1 = Ok false \/
  exists msg, (auth0_utils.require_scopes claims needed st).1 = Raise (Exn AttributeError msg).
Proof.
  intros Hin Hblank. unfold auth0_utils.require_scopes.
  destruct needed as [|s0 needed]; [destruct Hin|]. cbv zeta.
  destruct (or_else _ _) as [| | | |x| | |]; try (right; eexists; reflexivity).
  cbn [str_split]. left.
  assert (forallb (auth0_utils.granted (split x)) (s0 :: needed) = false) as ->;
    [|reflexivity].
  apply not_true_is_false. intros Hall. rewrite forallb_forall in Hall.
  specialize (Hall s Hin). unfold auth0_utils.granted in Hall.
  apply existsb_exists in Hall as (t & Ht & ->%String.eqb_eq).
  pose proof (split_from_words "" x eq_refl) as Hwords.
  rewrite Forall_forall in Hwords. apply list_elem_of_In in Ht.
  destruct (Hwords _ Ht) as [Hne Hws].
  destruct Hblank as [->|Hsp]; [now apply Hne|].
  apply existsb_exists in Hsp as (c & Hc & Hcw).
  rewrite forallb_forall in Hws. specialize (Hws c Hc). now rewrite Hcw in Hws.
Qed.

Lemma require_scopes_rejects_blank_witness :
  (auth0_utils.require_scopes examples.claims_u1 ["db:read db:write"] auth0_utils.initial).1
    = Ok false \/
  exists msg,
    (auth0_utils.require_scopes examples.claims_u1 ["db:read db:write"]
       auth0_utils.initial).1 = Raise (Exn AttributeError msg).
Proof.
  apply (require_scopes_rejects_blank examples.claims_u1 ["db:read db:write"]
           auth0_utils.initial "db:read db:write");
    [now left | right; reflexivity].
Defined.

(** ** The JWKS cache over time *)
Section jwks_more.
Variable environ : gmap string string.

(** What the cache holds is nothing, or a key set that passed the check. *)
Lemma jwks_validated (now : spec_float) (response : result value)
    (st : auth0_utils.state) :
  (auth0_utils.JWKS_CACHE_keys st = VNone \/
   auth0_utils.has_keys_array (auth0_utils.JWKS_CACHE_keys st) = true) ->
  let r := auth0_utils._jwks environ now response st in
  (auth0_utils.JWKS_CACHE_keys r.2 = VNone \/
   auth0_utils.has_keys_array (auth0_utils.JWKS_CACHE_keys r.2) = true) /\
  forall v, r.1 = Ok v -> auth0_utils.has_keys_array v = true.
Proof.
  intros Hst. cbv zeta.
  assert (truthy (auth0_utils.JWKS_CACHE_keys st) = true ->
          auth0_utils.has_keys_array (auth0_utils.JWKS_CACHE_keys st) = true) as Htruthy.
  { destruct Hst as [-> | H]; [discriminate | auto]. }
  assert (forall v, auth0_utils.invalid_structure v = Ok false ->
                    auth0_utils.has_keys_array v = true) as Hvalid.
  { intros v. destruct v as [| | | |s|l|l|d]; cbn; try discriminate.
    - destruct (String.index 0 "keys" s); discriminate.
    - destruct (existsb _ l); discriminate.
    - destruct (existsb _ l); discriminate.
    - destruct (d !! "keys") as [[]|]; try discriminate. reflexivity. }
  unfold auth0_utils._jwks.
  destruct (String.eqb _ ""); [split; [exact Hst | discriminate]|].
  destruct (auth0_utils.fresh now st) eqn:Hfresh.
  { split; [exact Hst|]. intros v [= <-]. apply Htruthy.
    unfold auth0_utils.fresh in Hfresh. now apply andb_true_iff in Hfresh as [? _]. }
  cbv zeta. destruct response as [jwks|e]; run_bind.
  - destruct (auth0_utils.invalid_structure jwks) as [[|]|e] eqn:Hinv; run_bind.
    + cbn. rewrite bool_decide_eq_false_2 by discriminate. cbn.
      split; [exact Hst | discriminate].
    + cbn. split; [right; now apply Hvalid|]. intros v [= <-]. now apply Hvalid.
    + destruct (bool_decide (exn_cls e = HTTPError)); cbn.
      * destruct (truthy (auth0_utils.JWKS_CACHE_keys st)) eqn:Ht; cbn.
        -- split; [exact Hst|]. intros v [= <-]. now apply Htruthy.
        -- split; [exact Hst | discriminate].
      * split; [exact Hst | discriminate].
  - destruct (bool_decide (exn_cls e = HTTPError)); cbn.
    + destruct (truthy (auth0_utils.JWKS_CACHE_keys st)) eqn:Ht; cbn.
      * split; [exact Hst|]. intros v [= <-]. now apply Htruthy.
      * split; [exact Hst | discriminate].
    + split; [exact Hst | discriminate].
Qed.

Lemma run_validated (calls : list auth0_utils.call) (st : auth0_utils.state) :
  (auth0_utils.JWKS_CACHE_keys st = VNone \/
   auth0_utils.has_keys_array (auth0_utils.JWKS_CACHE_keys st) = true) ->
  auth0_utils.JWKS_CACHE_keys (auth0_utils.run environ st calls) = VNone \/
  auth0_utils.has_keys_array
    (auth0_utils.JWKS_CACHE_keys (auth0_utils.run environ st calls)) = true.
Proof.
  revert st. induction calls as [|c calls IH]; intros st Hst; [exact Hst|].
  cbn. apply IH. destruct c as [now response|]; cbn [auth0_utils.step].
  - now apply jwks_validated.
  - left. reflexivity.
Qed.

End jwks_more.

(** X25.  The cache never holds, and [_jwks] never returns, a document
    that did not pass the structure check: after any sequence of [_jwks]
    and [clear_jwks_cache] calls from the initial state, [JWKS_CACHE["keys"]]
    is [None] or a JSON object with a [keys] array, and every value
    [_jwks] returns (fresh, cached or stale) is such an object. *)
Theorem jwks_cache_validated (environ : gmap string string)
    (calls : list auth0_utils.call) (now : spec_float) (response : result value) :
  let st := auth0_utils.run environ auth0_utils.initial calls in
  (auth0_utils.JWKS_CACHE_keys st = VNone \/
   auth0_utils.has_keys_array (auth0_utils.JWKS_CACHE_keys st) = true) /\
  forall v, (auth0_utils._jwks environ now response st).1 = Ok v ->
            auth0_utils.has_keys_array v = true.
Proof.
  cbv zeta.
  assert (auth0_utils.JWKS_CACHE_keys (auth0_utils.run environ auth0_utils.initial calls)
            = VNone \/
          auth0_utils.has_keys_array
            (auth0_utils.JWKS_CACHE_keys (auth0_utils.run environ auth0_utils.initial calls))
            = true) as Hst.
  { apply run_validated. left. reflexivity. }
  split; [exact Hst|]. now apply jwks_validated.
Qed.

(** X24.  After [clear_jwks_cache] nothing is cached:
    [get_jwks_cache_age] is [-1], and the next [_jwks] goes to the network
    whatever the clock says; if the fetch fails the error is raised (there
    is no stale set to fall back on), and if it succeeds the new key set
    is returned and cached with the time of the call. *)
Theorem clear_jwks_cache_forces_refetch (environ : gmap string string)
    (now : spec_float) (st : auth0_utils.state) :
  auth0_utils.AUTH0_DOMAIN environ <> "" ->
  let cleared := auth0_utils.clear_jwks_cache st in
  auth0_utils.get_jwks_cache_age now cleared = VInt (-1) /\
  (forall e, exn_cls e = HTTPError ->
     (auth0_utils._jwks environ now (Raise e) cleared).1 = Raise e) /\
  (forall v, auth0_utils.has_keys_array v = true ->
     let r := auth0_utils._jwks environ now (Ok v) cleared in
     r.1 = Ok v /\
     auth0_utils.JWKS_CACHE_keys r.2 = v /\ auth0_utils.JWKS_CACHE_ts r.2 = now).
Proof.
  intros Hdomain cleared. apply String.eqb_neq in Hdomain.
  split; [reflexivity|]. split.
  - intros e He. unfold auth0_utils._jwks. rewrite Hdomain.
    cbn [auth0_utils.fresh]. unfold auth0_utils.fresh, cleared. cbn.
    rewrite bool_decide_eq_true_2 by exact He. reflexivity.
  - intros v Hv. cbv zeta. unfold auth0_utils._jwks. rewrite Hdomain.
    unfold auth0_utils.fresh, cleared. cbn [auth0_utils.clear_jwks_cache auth0_utils.logged
      auth0_utils.JWKS_CACHE_keys truthy andb]. cbv zeta. run_bind.
    assert (auth0_utils.invalid_structure v = Ok false) as ->.
    { destruct v as [| | | | | | |d]; try discriminate. cbn in *.
      destruct (d !! "keys") as [[]|]; try discriminate. reflexivity. }
    run_bind. cbn. auto.
Qed.

Lemma clear_jwks_cache_forces_refetch_witness :
  let cleared := auth0_utils.clear_jwks_cache examples.warm in
  auth0_utils.get_jwks_cache_age examples.t1024 cleared = VInt (-1) /\
  (forall e, exn_cls e = HTTPError ->
     (auth0_utils._jwks examples.auth0 examples.t1024 (Raise e) cleared).1 = Raise e) /\
  (forall v, auth0_utils.has_keys_array v = true ->
     let r := auth0_utils._jwks examples.auth0 examples.t1024 (Ok v) cleared in
     r.1 = Ok v /\
     auth0_utils.JWKS_CACHE_keys r.2 = v /\ auth0_utils.JWKS_CACHE_ts r.2 = examples.t1024).
Proof.
  exact (clear_jwks_cache_forces_refetch examples.auth0 examples.t1024 examples.warm
           ltac:(discriminate)).
Defined.
(** ** [verify_jwt] *)
Section verify_jwt_facts.
Variable environ : gmap string string.
Variable get_unverified_header : string -> auth0_utils.failure + dict.
Variable decode : string -> dict -> string -> string -> auth0_utils.failure + dict.
Variable str_of : value -> string.
Variable name_of : exn -> string.

Lemma find_key_Some (kid : value) (items : list value) (k : dict) :
  auth0_utils.find_key kid items = inr (Some k) ->
  In (VDict k) items /\ value_eq (dict_get k "kid" VNone) kid = true.
Proof.
  induction items as [|x items IH]; [discriminate|]. cbn [auth0_utils.find_key].
  destruct x as [| | | | | | |d]; try discriminate.
  destruct (value_eq (dict_get d "kid" VNone) kid) eqn:E.
  - intros [= <-]. split; [now left | exact E].
  - intros H. destruct (IH H) as [Hin Heq]. split; [now right | exact Heq].
Qed.

Lemma verify_jwt_body_claims (now : spec_float) (response : result value)
    (token : string) (st st' : auth0_utils.state) (claims : dict) :
  auth0_utils.verify_jwt_body environ get_unverified_header decode str_of name_of
    now response token st = (inr claims, st') ->
  exists header jwks items key,
    get_unverified_header token = inr header /\
    truthy (dict_get header "kid" VNone) = true /\
    dict_get header "alg" VNone = VStr "RS256" /\
    auth0_utils._jwks environ now response st = (Ok (VDict jwks), st') /\
    iterate (dict_get jwks "keys" (VList [])) = Ok items /\
    In (VDict key) items /\
    value_eq (dict_get key "kid" VNone) (dict_get header "kid" VNone) = true /\
    (truthy (dict_get key "alg" VNone) = false \/ dict_get key "alg" VNone = VStr "RS256") /\
    decode token key (auth0_utils.AUTH0_AUDIENCE environ)
      ("https://" +:+ auth0_utils.AUTH0_DOMAIN environ +:+ "/") = inr claims.
Proof.
  unfold auth0_utils.verify_jwt_body.
  destruct (get_unverified_header token) as [f|header] eqn:Hh; [discriminate|].
  cbv zeta.
  destruct (truthy (dict_get header "kid" VNone)) eqn:Hkid; cbn [negb]; [|discriminate].
  destruct (ne_str (dict_get header "alg" VNone) "RS256") eqn:Halg; [discriminate|].
  destruct (auth0_utils._jwks environ now response st) as [[jwks|e] st1] eqn:Hj;
    [|discriminate].
  destruct jwks as [| | | | | | |d]; try discriminate.
  destruct (iterate _) as [items|e] eqn:Hit; [|discriminate].
  destruct (auth0_utils.find_key _ items) as [f|[k|]] eqn:Hk; try discriminate.
  destruct (negb (truthy (VDict k))); [discriminate|].
  destruct (truthy (dict_get k "alg" VNone) && ne_str (dict_get k "alg" VNone) "RS256")
    eqn:Hkalg; [discriminate|].
  intros [= Hd <-].
  apply find_key_Some in Hk as [Hin Heq].
  exists header, d, items, k. repeat split; try assumption.
  - destruct (dict_get header "alg" VNone); try discriminate Halg.
    cbn in Halg. apply negb_false_iff, String.eqb_eq in Halg. now subst.
  - apply andb_false_iff in Hkalg as [Ht|Hne]; [now left|right].
    destruct (dict_get k "alg" VNone); try discriminate Hne.
    cbn in Hne. apply negb_false_iff, String.eqb_eq in Hne. now subst.
Qed.

(** Every exception that leaves [verify_jwt] is a [ValueError]. *)
Lemma verify_jwt_raises_class (now : spec_float) (response : result value)
    (token : string) (st st' : auth0_utils.state) (e : exn) :
  auth0_utils.verify_jwt environ get_unverified_header decode str_of name_of
    now response token st = (Raise e, st') ->
  exn_cls e = ValueError.
Proof.
  unfold auth0_utils.verify_jwt.
  destruct (String.eqb token ""); [now intros [= <- _]|].
  destruct (_ || _); [now intros [= <- _]|].
  destruct (auth0_utils.verify_jwt_body _ _ _ _ _ _ _ _ _) as [[f|c] st1]; [|discriminate].
  destruct (auth0_utils.is_JWTError f); now intros [= <- _].
Qed.

End verify_jwt_facts.


(** X27.  What claims returned by [verify_jwt] certify: the token is not
    empty, its unverified header names a key ([kid]) and the algorithm
    RS256, the key set [_jwks] returned is a JSON object whose [keys] hold
    a key with that [kid], the key's own [alg] is absent (or falsy) or
    RS256, and [jose.jwt.decode] accepted the token under that key, for
    the configured audience and the issuer [https://AUTH0_DOMAIN/], and
    returned these claims. *)
Theorem verify_jwt_sound (environ : gmap string string)
    (get_unverified_header : string -> auth0_utils.failure + dict)
    (decode : string -> dict -> string -> string -> auth0_utils.failure + dict)
    (str_of : value -> string) (name_of : exn -> string)
    (now : spec_float) (response : result value) (token : string)
    (st : auth0_utils.state) (claims : dict) :
  (auth0_utils.verify_jwt environ get_unverified_header decode str_of name_of
     now response token st).1 = Ok claims ->
  token <> "" /\
  exists header jwks items key,
    get_unverified_header token = inr header /\
    truthy (dict_get header "kid" VNone) = true /\
    dict_get header "alg" VNone = VStr "RS256" /\
    (auth0_utils._jwks environ now response st).1 = Ok (VDict jwks) /\
    iterate (dict_get jwks "keys" (VList [])) = Ok items /\
    In (VDict key) items /\
    value_eq (dict_get key "kid" VNone) (dict_get header "kid" VNone) = true /\
    (truthy (dict_get key "alg" VNone) = false \/ dict_get key "alg" VNone = VStr "RS256") /\
    decode token key (auth0_utils.AUTH0_AUDIENCE environ)
      ("https://" +:+ auth0_utils.AUTH0_DOMAIN environ +:+ "/") = inr claims.
Proof.
  unfold auth0_utils.verify_jwt.
  destruct (String.eqb_spec token "") as [->|Hne]; [discriminate|].
  destruct (_ || _); [discriminate|].
  destruct (auth0_utils.verify_jwt_body _ _ _ _ _ _ _ _ _) as [[f|c] st'] eqn:Hbody.
  - destruct (auth0_utils.is_JWTError f); discriminate.
  - cbn [fst]. intros [= ->]. split; [exact Hne|].
    apply verify_jwt_body_claims in Hbody
      as (header & jwks & items & key & H1 & H2 & H3 & H4 & H5 & H6 & H7 & H8 & H9).
    exists header, jwks, items, key. rewrite H4. repeat split; assumption.
Qed.


Lemma verify_jwt_sound_witness :
  "tok" <> "" /\
  exists header jwks items key,
    examples.header_k1 "tok" = inr header /\
    truthy (dict_get header "kid" VNone) = true /\
    dict_get header "alg" VNone = VStr "RS256" /\
    (auth0_utils._jwks examples.auth0_api examples.t0 examples.outage examples.warm).1
      = Ok (VDict jwks) /\
    iterate (dict_get jwks "keys" (VList [])) = Ok items /\
    In (VDict key) items /\
    value_eq (dict_get key "kid" VNone) (dict_get header "kid" VNone) = true /\
    (truthy (dict_get key "alg" VNone) = false \/ dict_get key "alg" VNone = VStr "RS256") /\
    examples.decode_ok "tok" key (auth0_utils.AUTH0_AUDIENCE examples.auth0_api)
      ("https://" +:+ auth0_utils.AUTH0_DOMAIN examples.auth0_api +:+ "/")
      = inr examples.claims_u1.
Proof.
  exact (verify_jwt_sound examples.auth0_api examples.header_k1 examples.decode_ok
           examples.str_of examples.name_of examples.t0 examples.outage "tok"
           examples.warm examples.claims_u1 ltac:(vm_compute; reflexivity)).
Defined.



(** ** Authentication of a request *)
Section bearer_facts.

Lemma lower_char_space (c : ascii) : lower_char c = " "%char -> c = " "%char.
Proof. destruct c as [[] [] [] [] [] [] [] []]; vm_compute; congruence. Qed.

Lemma lower_char_letter (c : ascii) :
  lower_char c <> " "%char -> is_char " " c = false.
Proof.
  intros H. unfold is_char. destruct (Ascii.eqb_spec c " ") as [->|]; [|reflexivity].
  now contradiction H.
Qed.

Lemma prefix_lower (p : ascii) (ps a : string) :
  String.prefix (String p ps) (lower a) = true ->
  exists c rest, a = String c rest /\ lower_char c = p /\ String.prefix ps (lower rest) = true.
Proof.
  destruct a as [|c rest]; [discriminate|].
  unfold lower. cbn [list_ascii_of_string List.map string_of_list_ascii String.prefix].
  destruct (Ascii.ascii_dec p (lower_char c)) as [->|]; [|discriminate].
  intros H. exists c, rest. auto.
Qed.

(** A header that starts with the scheme, in any case, and a space is the
    scheme, the space, and the rest. *)
Lemma bearer_split (a : string) :
  startswith (lower a) "bearer " = true ->
  exists scheme token,
    a = scheme +:+ " " +:+ token /\ lower scheme = "bearer" /\
    split_once " " a = [scheme; token].
Proof.
  unfold startswith.
  intros (c1 & r1 & -> & H1 & H)%prefix_lower.
  apply prefix_lower in H as (c2 & r2 & -> & H2 & H).
  apply prefix_lower in H as (c3 & r3 & -> & H3 & H).
  apply prefix_lower in H as (c4 & r4 & -> & H4 & H).
  apply prefix_lower in H as (c5 & r5 & -> & H5 & H).
  apply prefix_lower in H as (c6 & r6 & -> & H6 & H).
  apply prefix_lower in H as (c7 & rest & -> & H7 & _).
  apply lower_char_space in H7 as ->.
  exists (String c1 (String c2 (String c3 (String c4 (String c5 (String c6 "")))))), rest.
  split; [reflexivity|]. split.
  - unfold lower. cbn. congruence.
  - cbn [split_once].
    rewrite !lower_char_letter by congruence. reflexivity.
Qed.

End bearer_facts.

(** X29.  [get_authenticated_user] answers with claims or with a 401:
    whatever the header and the library do, what leaves the function is an
    [HTTPException] with status 401 (no [IndexError] from taking the text
    after the space, no other exception), or the claims [verify_jwt]
    returned for the text after the first space of a header whose scheme
    is [bearer] in any letter case. *)
Theorem get_authenticated_user_outcome (environ : gmap string string)
    (get_unverified_header : string -> auth0_utils.failure + dict)
    (decode : string -> dict -> string -> string -> auth0_utils.failure + dict)
    (str_of : value -> string) (name_of : exn -> string)
    (now : spec_float) (response : result value) (authorization : option string)
    (st : auth0_utils.state) :
  match
    (mcp_integration.get_authenticated_user environ get_unverified_header decode
       str_of name_of now response authorization st).1
  with
  | inr claims =>
      exists scheme token,
        authorization = Some (scheme +:+ " " +:+ token) /\
        lower scheme = "bearer" /\
        (auth0_utils.verify_jwt environ get_unverified_header decode str_of name_of
           now response token st).1 = Ok claims
  | inl r => exists detail, r = mcp_integration.HTTPException 401 detail
  end.
Proof.
  unfold mcp_integration.get_authenticated_user.
  destruct authorization as [a|]; [|cbn; eauto].
  destruct (String.eqb a ""); [cbn; eauto|].
  destruct (startswith (lower a) "bearer ") eqn:Hb; cbn [negb]; [|cbn; eauto].
  apply bearer_split in Hb as (scheme & token & Ha & Hs & ->).
  destruct (auth0_utils.verify_jwt _ _ _ _ _ _ _ token st) as [[claims|e] st'] eqn:Hv.
  - cbn [fst]. exists scheme, token. rewrite Hv. now subst.
  - rewrite bool_decide_eq_true_2
      by exact (verify_jwt_raises_class _ _ _ _ _ _ _ _ _ _ _ Hv).
    cbn. eauto.
Qed.

(** X30.  [require_db_scope] on a scope claim written from a list of
    scopes: it returns when the scope of the operation ([db:read],
    [db:write] or [db:admin]; [db:read] for any other operation name) is a
    member of the list, and raises [HTTPException] 403 naming the missing
    scope when it is not; nothing else leaves it. *)
Theorem require_db_scope_words (l : list string) (operation : string)
    (st : auth0_utils.state) :
  Forall (fun t => t <> "" /\
            forallb (fun c => negb (is_whitespace c)) (list_ascii_of_string t) = true) l ->
  let claims : dict := {[ "scope" := VStr (String.concat " " l) ]} in
  let needed :=
    if bool_decide (operation = "write") then "db:write"
    else if bool_decide (operation = "admin") then "db:admin"
    else "db:read" in
  (mcp_integration.require_db_scope claims operation st).1
  = if bool_decide (needed ∈ l) then inr ()
    else inl (mcp_integration.HTTPException 403 ("Missing required scope: " +:+ needed)).
Proof.
  intros Hl claims needed.
  assert (mcp_integration.scope_map operation = needed) as Hmap.
  { unfold mcp_integration.scope_map, needed. rewrite !string_eqb_decide.
    destruct (bool_decide (operation = "read")) eqn:Hr; [|reflexivity].
    apply bool_decide_eq_true_1 in Hr as ->. reflexivity. }
  unfold mcp_integration.require_db_scope. cbv zeta. rewrite Hmap.
  pose proof (scope_read_back l Hl) as Hsplit. fold claims in Hsplit.
  unfold auth0_utils.require_scopes. cbv zeta. rewrite Hsplit, granted_decide.
  cbn [forallb]. rewrite andb_true_r.
  destruct (bool_decide (needed ∈ l)); reflexivity.
Qed.

Lemma require_db_scope_words_witness :
  (mcp_integration.require_db_scope
     {[ "scope" := VStr (String.concat " " ["db:read"; "db:write"]) ]} "admin"
     auth0_utils.initial).1
  = if bool_decide ("db:admin" ∈ ["db:read"; "db:write"]) then inr ()
    else inl (mcp_integration.HTTPException 403 ("Missing required scope: " +:+ "db:admin")).
Proof.
  apply (require_db_scope_words ["db:read"; "db:write"] "admin" auth0_utils.initial).
  repeat constructor; discriminate.
Defined.
